(** * Batch payments (go/stellar/batch.go): a shallow embedding

    The development follows batch.go function by function.  External
    collaborators (recipient lookup, the ledger gateway, the signer, the
    note encryptor, the clock, the status listener) are fields of an
    environment record [Env]; the goroutine scheduler and the listener
    channel are explicit inputs ([Schedule], [list Event]).  Go panics and
    a wait loop that is never woken again are outcomes of their own. *)

From Stdlib Require Import ZArith NArith Lia Ascii String.
From stdpp Require Import base option list strings gmap fin_maps sorting.

Local Open Scope Z_scope.

(** ** Go values *)

(** A Go [error] is represented by its message ([err.Error()]). *)
Definition error := string.

(** [(T, error)] return values. *)
Inductive result (A : Type) : Type :=
| Ok (a : A)
| Err (e : error).
Arguments Ok {A} a.
Arguments Err {A} e.

(** What running a piece of Go code can come to: a normal return, a
    run-time panic (nil dereference, index out of range), or being parked
    forever on a channel receive. *)
Inductive outcome (A : Type) : Type :=
| Ret (a : A)
| Panic (why : string)
| Blocked.
Arguments Ret {A} a.
Arguments Panic {A} why.
Arguments Blocked {A}.

(** A pointer that may be nil. *)
Abbreviation ptr := option (only parsing).

(** [int64] and (64-bit) [int] arithmetic wraps around. *)
Definition wrap64 (z : Z) : Z := (z + 2 ^ 63) mod 2 ^ 64 - 2 ^ 63.

(** [stellar1.TimeMs] is an [int64]. *)
Definition TimeMs := Z.
Definition TransactionID := string.
Definition AccountID := string.
Definition SeedStr := string.
Definition UserVersion := string.
Definition DeviceID := string.
Definition TeamID := string.

(** [stellar1.PaymentStatus]: the protocol's payment status enumeration, an
    integer type with named constants and a generated
    [PaymentStatusRevMap].  batch.go names PENDING, COMPLETED and ERROR and
    sends every other value through the default branch of
    [calculateStats]; [NONE] is the zero value. *)
Inductive PaymentStatus : Type :=
| PaymentStatus_NONE
| PaymentStatus_PENDING
| PaymentStatus_CLAIMABLE
| PaymentStatus_COMPLETED
| PaymentStatus_ERROR
| PaymentStatus_UNKNOWN
| PaymentStatus_CANCELED.

#[global] Instance PaymentStatus_eq_dec : EqDecision PaymentStatus.
Proof. solve_decision. Defined.

Module BatchPaymentArg.
Record t : Type := Build
  { Recipient : string;
    Amount : string;
    Message : string }.
End BatchPaymentArg.

Module BatchLocalArg.
Record t : Type := Build
  { BatchID : string;
    TimeoutSecs : Z;
    Payments : list BatchPaymentArg.t }.
End BatchLocalArg.

Module User.
Record t : Type := Build { UV : UserVersion }.
End User.

(** [stellarcommon.Recipient]: [User] and [AccountID] are pointers. *)
Module Recipient.
Record t : Type := Build
  { Input : string;
    User : ptr User.t;
    AccountID : ptr AccountID }.
End Recipient.

Module PaymentDirectPost.
Record t : Type := Build
  { FromDeviceID : DeviceID;
    To : ptr UserVersion;
    QuickReturn : bool;
    NoteB64 : string;
    SignedTransaction : string }.
End PaymentDirectPost.

Module PaymentRelayPost.
Record t : Type := Build
  { FromDeviceID : DeviceID;
    To : ptr UserVersion;
    ToAssertion : string;
    RelayAccount : AccountID;
    TeamID : TeamID;
    BoxB64 : string;
    SignedTransaction : string;
    QuickReturn : bool }.
End PaymentRelayPost.

(** [stellarnet.SignResult]; [Seqno] is a [uint64] that batch.go only
    copies and compares. *)
Module SignResult.
Record t : Type := Build
  { Seqno : N;
    Signed : string;
    TxHash : string }.
End SignResult.

Module NoteContents.
Record t : Type := Build
  { Note : string;
    StellarID : TransactionID }.
End NoteContents.

Module RelayInput.
Record t : Type := Build
  { From : string;
    AmountXLM : string;
    Note : string;
    EncryptFor : string }.
End RelayInput.

Module RelayOutput.
Record t : Type := Build
  { RelayAccountID : AccountID;
    EncryptedB64 : string;
    FundTx : SignResult.t }.
End RelayOutput.

Module PaymentResult.
Record t : Type := Build
  { StellarID : TransactionID;
    Pending : bool }.
End PaymentResult.

(** [MiniPrepared], with the fields batch.go reads and writes. *)
Module MiniPrepared.
Record t : Type := Build
  { Username : string;
    Direct : ptr PaymentDirectPost.t;
    Relay : ptr PaymentRelayPost.t;
    TxID : TransactionID;
    Seqno : N;
    Error : ptr error }.

(** [&MiniPrepared{Username: u}]: every other field at its zero value. *)
Definition zero (u : string) : t :=
  {| Username := u; Direct := None; Relay := None;
     TxID := ""; Seqno := 0%N; Error := None |}.

Definition withError (r : t) (e : error) : t :=
  {| Username := Username r; Direct := Direct r; Relay := Relay r;
     TxID := TxID r; Seqno := Seqno r; Error := Some e |}.

Definition withDirect (r : t) (d : PaymentDirectPost.t) : t :=
  {| Username := Username r; Direct := Some d; Relay := Relay r;
     TxID := TxID r; Seqno := Seqno r; Error := Error r |}.

Definition withRelay (r : t) (p : PaymentRelayPost.t) : t :=
  {| Username := Username r; Direct := Direct r; Relay := Some p;
     TxID := TxID r; Seqno := Seqno r; Error := Error r |}.

Definition withSeqnoTxID (r : t) (s : N) (tx : TransactionID) : t :=
  {| Username := Username r; Direct := Direct r; Relay := Relay r;
     TxID := tx; Seqno := s; Error := Error r |}.
End MiniPrepared.

Module BatchPaymentError.
Record t : Type := Build { Message : string }.
End BatchPaymentError.

Module BatchPaymentResult.
Record t : Type := Build
  { Username : string;
    StartTime : TimeMs;
    SubmittedTime : TimeMs;
    EndTime : TimeMs;
    TxID : TransactionID;
    Status : PaymentStatus;
    StatusDescription : string;
    Error : ptr BatchPaymentError.t }.

(** The zero value, as [make] fills a slice with. *)
Definition zero : t :=
  {| Username := ""; StartTime := 0; SubmittedTime := 0; EndTime := 0;
     TxID := ""; Status := PaymentStatus_NONE; StatusDescription := "";
     Error := None |}.

(** [BatchPaymentResult{Username: u, StartTime: t}] *)
Definition started (u : string) (x : TimeMs) : t :=
  {| Username := u; StartTime := x; SubmittedTime := 0; EndTime := 0;
     TxID := ""; Status := PaymentStatus_NONE; StatusDescription := "";
     Error := None |}.

Definition withSubmittedTime (r : t) (x : TimeMs) : t :=
  {| Username := Username r; StartTime := StartTime r; SubmittedTime := x;
     EndTime := EndTime r; TxID := TxID r; Status := Status r;
     StatusDescription := StatusDescription r; Error := Error r |}.

Definition withEndTime (r : t) (x : TimeMs) : t :=
  {| Username := Username r; StartTime := StartTime r;
     SubmittedTime := SubmittedTime r; EndTime := x; TxID := TxID r;
     Status := Status r; StatusDescription := StatusDescription r;
     Error := Error r |}.

Definition withTxID (r : t) (x : TransactionID) : t :=
  {| Username := Username r; StartTime := StartTime r;
     SubmittedTime := SubmittedTime r; EndTime := EndTime r; TxID := x;
     Status := Status r; StatusDescription := StatusDescription r;
     Error := Error r |}.

Definition withStatus (r : t) (x : PaymentStatus) : t :=
  {| Username := Username r; StartTime := StartTime r;
     SubmittedTime := SubmittedTime r; EndTime := EndTime r; TxID := TxID r;
     Status := x; StatusDescription := StatusDescription r;
     Error := Error r |}.

Definition withStatusDescription (r : t) (x : string) : t :=
  {| Username := Username r; StartTime := StartTime r;
     SubmittedTime := SubmittedTime r; EndTime := EndTime r; TxID := TxID r;
     Status := Status r; StatusDescription := x; Error := Error r |}.

Definition withError (r : t) (x : ptr BatchPaymentError.t) : t :=
  {| Username := Username r; StartTime := StartTime r;
     SubmittedTime := SubmittedTime r; EndTime := EndTime r; TxID := TxID r;
     Status := Status r; StatusDescription := StatusDescription r;
     Error := x |}.
End BatchPaymentResult.

Module BatchResultLocal.
Record t : Type := Build
  { StartTime : TimeMs;
    PreparedTime : TimeMs;
    AllSubmittedTime : TimeMs;
    EndTime : TimeMs;
    Payments : list BatchPaymentResult.t;
    OverallDurationMs : TimeMs;
    PrepareDurationMs : TimeMs;
    SubmitDurationMs : TimeMs;
    WaitDurationMs : TimeMs;
    CountSuccess : Z;
    CountPending : Z;
    CountError : Z;
    AvgDurationMs : TimeMs;
    AvgSuccessDurationMs : TimeMs;
    AvgErrorDurationMs : TimeMs }.

Definition zero : t :=
  Build 0 0 0 0 [] 0 0 0 0 0 0 0 0 0 0.

Definition withStartTime (r : t) (x : TimeMs) : t :=
  Build x (PreparedTime r) (AllSubmittedTime r) (EndTime r) (Payments r)
    (OverallDurationMs r) (PrepareDurationMs r) (SubmitDurationMs r)
    (WaitDurationMs r) (CountSuccess r) (CountPending r) (CountError r)
    (AvgDurationMs r) (AvgSuccessDurationMs r) (AvgErrorDurationMs r).

Definition withPreparedTime (r : t) (x : TimeMs) : t :=
  Build (StartTime r) x (AllSubmittedTime r) (EndTime r) (Payments r)
    (OverallDurationMs r) (PrepareDurationMs r) (SubmitDurationMs r)
    (WaitDurationMs r) (CountSuccess r) (CountPending r) (CountError r)
    (AvgDurationMs r) (AvgSuccessDurationMs r) (AvgErrorDurationMs r).

Definition withAllSubmittedTime (r : t) (x : TimeMs) : t :=
  Build (StartTime r) (PreparedTime r) x (EndTime r) (Payments r)
    (OverallDurationMs r) (PrepareDurationMs r) (SubmitDurationMs r)
    (WaitDurationMs r) (CountSuccess r) (CountPending r) (CountError r)
    (AvgDurationMs r) (AvgSuccessDurationMs r) (AvgErrorDurationMs r).

Definition withEndTime (r : t) (x : TimeMs) : t :=
  Build (StartTime r) (PreparedTime r) (AllSubmittedTime r) x (Payments r)
    (OverallDurationMs r) (PrepareDurationMs r) (SubmitDurationMs r)
    (WaitDurationMs r) (CountSuccess r) (CountPending r) (CountError r)
    (AvgDurationMs r) (AvgSuccessDurationMs r) (AvgErrorDurationMs r).

Definition withPayments (r : t) (x : list BatchPaymentResult.t) : t :=
  Build (StartTime r) (PreparedTime r) (AllSubmittedTime r) (EndTime r) x
    (OverallDurationMs r) (PrepareDurationMs r) (SubmitDurationMs r)
    (WaitDurationMs r) (CountSuccess r) (CountPending r) (CountError r)
    (AvgDurationMs r) (AvgSuccessDurationMs r) (AvgErrorDurationMs r).
End BatchResultLocal.

(** ** The world outside batch.go *)

(** The shared sequence provider ([NewSeqnoProvider]): its state is the
    number of the last sequence slot it has handed out.  Only the signer
    and [relays.Create] receive it. *)
Definition SeqnoProvider := N.

(** One submit RPC, as the gateway sees it. *)
Inductive Submission : Type :=
| SubmitDirect (post : PaymentDirectPost.t)
| SubmitRelay (post : PaymentRelayPost.t).

(** The wallet state and gateway behind [*WalletState]. *)
Module WalletState.
Record t : Type := Build
  { seqno : SeqnoProvider;
    pendingTxs : list (AccountID * TransactionID * N);
    submitted : list Submission }.

Definition withSeqno (ws : t) (sp : SeqnoProvider) : t :=
  Build sp (pendingTxs ws) (submitted ws).
End WalletState.

(** Everything [Batch] can change besides its result: the number of clock
    readings taken so far, the wallet state, and the chat notifications
    spawned (in spawn order). *)
Module World.
Record t : Type := Build
  { clock : nat;
    walletState : WalletState.t;
    chats : list (string * TransactionID) }.
End World.

(** The collaborators batch.go calls.  Lookups and ledger queries answer
    from their arguments; the signers thread the sequence provider; the
    submit RPCs also see what was submitted before. *)
Record Env : Type := BuildEnv
  { LookupSenderSeed : result (AccountID * SeedStr);
    LookupRecipient : string -> result Recipient.t;
    NewNormalizedUsername : string -> string;
    isAccountFunded : AccountID -> result bool;
    isAmountLessThanMin : string -> string -> bool;
    ActiveDeviceID : DeviceID;
    PaymentXLMTransaction :
      SeedStr -> AccountID -> string -> SeqnoProvider ->
      result SignResult.t * SeqnoProvider;
    CreateAccountXLMTransaction :
      SeedStr -> AccountID -> string -> SeqnoProvider ->
      result SignResult.t * SeqnoProvider;
    NoteEncryptB64 : NoteContents.t -> ptr UserVersion -> result string;
    relays_GetKey : Recipient.t -> result (string * TeamID);
    relays_Create :
      RelayInput.t -> SeqnoProvider -> result RelayOutput.t * SeqnoProvider;
    GetListener : ptr error;
    SubmitPayment :
      list Submission -> PaymentDirectPost.t -> result PaymentResult.t;
    SubmitRelayPayment :
      list Submission -> PaymentRelayPost.t -> result PaymentResult.t;
    now : nat -> TimeMs;
    PaymentStatusRevMap : PaymentStatus -> string }.

(** What the select statement of the wait loop delivers: the five-second
    timer, together with the outcome of the deadline comparison made on
    it, or a status update from the listener channel. *)
Inductive Event : Type :=
| Tick (expired : bool)
| Update (txID : TransactionID) (status : PaymentStatus).

(** ** Scheduling *)

(** The scheduler's choices turn a list into one of its arrangements: each
    choice removes one of the remaining elements; when the choices run out
    the rest follows in order. *)
Fixpoint arrange {A : Type} (choices : list nat) (l : list A) : list A :=
  match choices with
  | [] => l
  | c :: cs =>
      match l !! (c mod length l)%nat with
      | Some x => x :: arrange cs (delete (c mod length l)%nat l)
      | None => l
      end
  end.

(** The two scheduling decisions in [PrepareBatchPayments]: the order in
    which the goroutines get to the shared sequence provider, and the
    order in which their results arrive on the channel. *)
Record Schedule : Type := BuildSchedule
  { exec_order : list nat;
    recv_order : list nat }.

(** ** sort.Slice *)

(** Orderings by a key: the comparison handed to the sort (strictly
    smaller key), and the two orders its result is read in. *)
Definition lessBy {A : Type} (key : A → N) (a b : A) : bool :=
  (key a <? key b)%N.
Definition leBy {A : Type} (key : A → N) (a b : A) : Prop :=
  (key a ≤ key b)%N.
Definition geBy {A : Type} (key : A → N) (a b : A) : Prop :=
  (key b ≤ key a)%N.

(** The inner loop of Go's insertion sort: [x] travels left while
    [less x data[j-1]].  The prefix is held reversed, nearest element
    first. *)
Fixpoint insertBack {A : Type} (less : A -> A -> bool) (x : A)
    (rprefix : list A) : list A :=
  match rprefix with
  | [] => [x]
  | y :: r => if less x y then y :: insertBack less x r else x :: y :: r
  end.

(** [sort.Slice] on its insertion-sort path (the one short slices take;
    on longer ones equal keys may come out in another order). *)
Definition insertionSort {A : Type} (less : A -> A -> bool)
    (data : list A) : list A :=
  rev (fold_left (fun acc x => insertBack less x acc) data []).

(** ** batch.go *)

Definition minAmountRelayXLM : string := "2.01".
Definition minAmountCreateAccountXLM : string := "1".

(** [fmt.Errorf("you must send at least %s XLM to fund the account for %s", min, recipient)] *)
Definition errAtLeast (min recipient : string) : error :=
  "you must send at least " +:+ min +:+
  " XLM to fund the account for " +:+ recipient.

(** [prepareBatchPaymentDirect] (lines 187-241). *)
Definition prepareBatchPaymentDirect (env : Env) (sp : SeqnoProvider)
    (senderSeed : SeedStr) (payment : BatchPaymentArg.t)
    (recipient : Recipient.t) : outcome (ptr MiniPrepared.t * SeqnoProvider) :=
  let result :=
    MiniPrepared.zero
      (NewNormalizedUsername env (BatchPaymentArg.Recipient payment)) in
  match Recipient.AccountID recipient with
  | None => Panic "nil pointer dereference: recipient.AccountID"
  | Some accountID =>
      match isAccountFunded env accountID with
      | Err err => Ret (Some (MiniPrepared.withError result err), sp)
      | Ok funded =>
          if negb funded &&
             isAmountLessThanMin env (BatchPaymentArg.Amount payment)
               minAmountCreateAccountXLM
          then
            Ret (Some (MiniPrepared.withError result
                         (errAtLeast minAmountCreateAccountXLM
                            (BatchPaymentArg.Recipient payment))), sp)
          else
            (* To: &recipient.User.UV *)
            match Recipient.User recipient with
            | None => Panic "nil pointer dereference: recipient.User"
            | Some user =>
                let direct :=
                  {| PaymentDirectPost.FromDeviceID := ActiveDeviceID env;
                     PaymentDirectPost.To := Some (User.UV user);
                     PaymentDirectPost.QuickReturn := true;
                     PaymentDirectPost.NoteB64 := "";
                     PaymentDirectPost.SignedTransaction := "" |} in
                let result := MiniPrepared.withDirect result direct in
                let '(signed, sp) :=
                  if funded
                  then PaymentXLMTransaction env senderSeed accountID
                         (BatchPaymentArg.Amount payment) sp
                  else CreateAccountXLMTransaction env senderSeed accountID
                         (BatchPaymentArg.Amount payment) sp in
                match signed with
                | Err err => Ret (Some (MiniPrepared.withError result err), sp)
                | Ok signResult =>
                    let note :=
                      if (0 <? String.length (BatchPaymentArg.Message payment))%nat
                      then
                        NoteEncryptB64 env
                          {| NoteContents.Note := BatchPaymentArg.Message payment;
                             NoteContents.StellarID := SignResult.TxHash signResult |}
                          (Some (User.UV user))
                      else Ok (PaymentDirectPost.NoteB64 direct) in
                    match note with
                    | Err err =>
                        Ret (Some (MiniPrepared.withError result
                                     ("error encrypting note: " +:+ err)), sp)
                    | Ok noteB64 =>
                        let direct :=
                          {| PaymentDirectPost.FromDeviceID := PaymentDirectPost.FromDeviceID direct;
                             PaymentDirectPost.To := PaymentDirectPost.To direct;
                             PaymentDirectPost.QuickReturn := PaymentDirectPost.QuickReturn direct;
                             PaymentDirectPost.NoteB64 := noteB64;
                             PaymentDirectPost.SignedTransaction := SignResult.Signed signResult |} in
                        Ret (Some (MiniPrepared.withSeqnoTxID
                                     (MiniPrepared.withDirect result direct)
                                     (SignResult.Seqno signResult)
                                     (SignResult.TxHash signResult)), sp)
                    end
                end
            end
      end
  end.

(** [prepareBatchPaymentRelay] (lines 243-288). *)
Definition prepareBatchPaymentRelay (env : Env) (sp : SeqnoProvider)
    (senderSeed : SeedStr) (payment : BatchPaymentArg.t)
    (recipient : Recipient.t) : outcome (ptr MiniPrepared.t * SeqnoProvider) :=
  let result :=
    MiniPrepared.zero
      (NewNormalizedUsername env (BatchPaymentArg.Recipient payment)) in
  if isAmountLessThanMin env (BatchPaymentArg.Amount payment) minAmountRelayXLM
  then
    Ret (Some (MiniPrepared.withError result
                 (errAtLeast minAmountRelayXLM
                    (BatchPaymentArg.Recipient payment))), sp)
  else
    match relays_GetKey env recipient with
    | Err err => Ret (Some (MiniPrepared.withError result err), sp)
    | Ok (appKey, teamID) =>
        let '(created, sp) :=
          relays_Create env
            {| RelayInput.From := senderSeed;
               RelayInput.AmountXLM := BatchPaymentArg.Amount payment;
               RelayInput.Note := BatchPaymentArg.Message payment;
               RelayInput.EncryptFor := appKey |} sp in
        match created with
        | Err err => Ret (Some (MiniPrepared.withError result err), sp)
        | Ok relay =>
            let post :=
              {| PaymentRelayPost.FromDeviceID := ActiveDeviceID env;
                 PaymentRelayPost.To :=
                   match Recipient.User recipient with
                   | Some user => Some (User.UV user)
                   | None => None
                   end;
                 PaymentRelayPost.ToAssertion := Recipient.Input recipient;
                 PaymentRelayPost.RelayAccount := RelayOutput.RelayAccountID relay;
                 PaymentRelayPost.TeamID := teamID;
                 PaymentRelayPost.BoxB64 := RelayOutput.EncryptedB64 relay;
                 PaymentRelayPost.SignedTransaction :=
                   SignResult.Signed (RelayOutput.FundTx relay);
                 PaymentRelayPost.QuickReturn := true |} in
            Ret (Some (MiniPrepared.withSeqnoTxID
                         (MiniPrepared.withRelay result post)
                         (SignResult.Seqno (RelayOutput.FundTx relay))
                         (SignResult.TxHash (RelayOutput.FundTx relay))), sp)
        end
    end.

(** [prepareBatchPayment] (lines 171-185). *)
Definition prepareBatchPayment (env : Env) (sp : SeqnoProvider)
    (senderSeed : SeedStr) (payment : BatchPaymentArg.t)
    : outcome (ptr MiniPrepared.t * SeqnoProvider) :=
  match LookupRecipient env (BatchPaymentArg.Recipient payment) with
  | Err _ =>
      Ret (Some (MiniPrepared.withError
                   (MiniPrepared.zero
                      (NewNormalizedUsername env
                         (BatchPaymentArg.Recipient payment)))
                   "error looking up recipient"), sp)
  | Ok recipient =>
      match Recipient.AccountID recipient with
      | None => prepareBatchPaymentRelay env sp senderSeed payment recipient
      | Some _ => prepareBatchPaymentDirect env sp senderSeed payment recipient
      end
  end.

(** The goroutines of [PrepareBatchPayments], in the order in which they
    reach the shared provider.  A goroutine touches shared state only
    through the one call that hands it the provider, so its run is taken
    as one step; a panic in any of them ends the process. *)
Fixpoint runPrepare (env : Env) (sp : SeqnoProvider) (senderSeed : SeedStr)
    (order : list BatchPaymentArg.t)
    : outcome (list (ptr MiniPrepared.t) * SeqnoProvider) :=
  match order with
  | [] => Ret ([], sp)
  | p :: rest =>
      match prepareBatchPayment env sp senderSeed p with
      | Ret (r, sp) =>
          match runPrepare env sp senderSeed rest with
          | Ret (rs, sp) => Ret (r :: rs, sp)
          | Panic why => Panic why
          | Blocked => Blocked
          end
      | Panic why => Panic why
      | Blocked => Blocked
      end
  end.

(** All pointers of a slice dereferenced, if none is nil. *)
Definition derefAll {A : Type} (l : list (ptr A)) : option (list A) :=
  mapM id l.

Definition lessSeqno (a b : MiniPrepared.t) : bool :=
  (MiniPrepared.Seqno a <? MiniPrepared.Seqno b)%N.

(** [sort.Slice(preparedList, func(a, b) { return preparedList[a].Seqno < preparedList[b].Seqno })]:
    with two or more entries the comparison reads every one of them, and
    a nil entry makes it panic. *)
Definition sortBySeqno (preparedList : list (ptr MiniPrepared.t))
    : outcome (list (ptr MiniPrepared.t)) :=
  if (length preparedList <? 2)%nat then Ret preparedList
  else
    match derefAll preparedList with
    | Some l => Ret (Some <$> insertionSort lessSeqno l)
    | None => Panic "nil pointer dereference: preparedList[a]"
    end.

(** [PrepareBatchPayments] (lines 149-169). *)
Definition PrepareBatchPayments (env : Env) (walletState : WalletState.t)
    (senderSeed : SeedStr) (payments : list BatchPaymentArg.t)
    (sched : Schedule)
    : outcome (list (ptr MiniPrepared.t) * ptr error * WalletState.t) :=
  let sp := WalletState.seqno walletState in
  match runPrepare env sp senderSeed (arrange (exec_order sched) payments) with
  | Ret (results, sp) =>
      let preparedList := arrange (recv_order sched) results in
      match sortBySeqno preparedList with
      | Ret preparedList =>
          Ret (preparedList, None, WalletState.withSeqno walletState sp)
      | Panic why => Panic why
      | Blocked => Blocked
      end
  | Panic why => Panic why
  | Blocked => Blocked
  end.

(** [stellar1.ToTimeMs(time.Now())]: one more reading of the clock. *)
Definition timeNow (env : Env) (w : World.t) : TimeMs * World.t :=
  (now env (World.clock w),
   World.Build (S (World.clock w)) (World.walletState w) (World.chats w)).

(** [makeResultError] (lines 332-336). *)
Definition makeResultError (env : Env) (w : World.t)
    (res : BatchPaymentResult.t) (err : error)
    : BatchPaymentResult.t * World.t :=
  let '(t, w) := timeNow env w in
  let res := BatchPaymentResult.withEndTime res t in
  let res :=
    BatchPaymentResult.withError res
      (Some {| BatchPaymentError.Message := err |}) in
  (BatchPaymentResult.withStatus res PaymentStatus_ERROR, w).

(** [walletState.AddPendingTx]: its error is logged and dropped. *)
Definition AddPendingTx (ws : WalletState.t) (a : AccountID)
    (tx : TransactionID) (s : N) : WalletState.t :=
  WalletState.Build (WalletState.seqno ws)
    (WalletState.pendingTxs ws ++ [(a, tx, s)]) (WalletState.submitted ws).

Definition logSubmission (ws : WalletState.t) (x : Submission)
    : WalletState.t :=
  WalletState.Build (WalletState.seqno ws) (WalletState.pendingTxs ws)
    (WalletState.submitted ws ++ [x]).

Definition withWalletState (w : World.t) (ws : WalletState.t) : World.t :=
  World.Build (World.clock w) ws (World.chats w).

(** [submitBatchTx] (lines 338-372). *)
Definition submitBatchTx (env : Env) (w : World.t)
    (senderAccountID : AccountID) (prepared : MiniPrepared.t)
    (bpResult : BatchPaymentResult.t) : BatchPaymentResult.t * World.t :=
  let ws :=
    AddPendingTx (World.walletState w) senderAccountID
      (MiniPrepared.TxID prepared) (MiniPrepared.Seqno prepared) in
  let '(submitRes, ws) :=
    match MiniPrepared.Direct prepared, MiniPrepared.Relay prepared with
    | Some direct, _ =>
        (SubmitPayment env (WalletState.submitted ws) direct,
         logSubmission ws (SubmitDirect direct))
    | None, Some relay =>
        (SubmitRelayPayment env (WalletState.submitted ws) relay,
         logSubmission ws (SubmitRelay relay))
    | None, None => (Err "no prepared direct or relay payment", ws)
    end in
  let w := withWalletState w ws in
  let '(t, w) := timeNow env w in
  let bpResult := BatchPaymentResult.withSubmittedTime bpResult t in
  match submitRes with
  | Err err => makeResultError env w bpResult err
  | Ok submitRes =>
      let bpResult :=
        BatchPaymentResult.withTxID bpResult
          (PaymentResult.StellarID submitRes) in
      if PaymentResult.Pending submitRes
      then (BatchPaymentResult.withStatus bpResult PaymentStatus_PENDING, w)
      else
        let bpResult :=
          BatchPaymentResult.withStatus bpResult PaymentStatus_COMPLETED in
        let '(t, w) := timeNow env w in
        (BatchPaymentResult.withEndTime bpResult t, w)
  end.

(** The body of the submit loop for a non-nil [prepared[i]] (lines 72-86):
    the result for slot [i] and the waiting set after it. *)
Definition submitOne (env : Env) (senderAccountID : AccountID) (i : nat)
    (prepared : MiniPrepared.t) (waiting : gmap TransactionID nat)
    (w : World.t)
    : BatchPaymentResult.t * gmap TransactionID nat * World.t :=
  let '(t, w) := timeNow env w in
  let bpResult :=
    BatchPaymentResult.started (MiniPrepared.Username prepared) t in
  let '(bpResult, waiting, w) :=
    match MiniPrepared.Error prepared with
    | Some err =>
        let '(bpResult, w) := makeResultError env w bpResult err in
        (bpResult, waiting, w)
    | None =>
        let '(bpResult, w) :=
          submitBatchTx env w senderAccountID prepared bpResult in
        if decide (BatchPaymentResult.Status bpResult = PaymentStatus_PENDING)
        then (bpResult, <[BatchPaymentResult.TxID bpResult := i]> waiting, w)
        else (bpResult, waiting, w)
    end in
  (BatchPaymentResult.withStatusDescription bpResult
     (PaymentStatusRevMap env (BatchPaymentResult.Status bpResult)),
   waiting, w).

(** The submit loop of [Batch] (lines 66-88), from index [i] on; [rest] is
    [prepared[i:]].  The left outcome is the early return on a nil entry. *)
Fixpoint submitLoop (env : Env) (senderAccountID : AccountID)
    (rest : list (ptr MiniPrepared.t)) (i : nat)
    (resultList : list BatchPaymentResult.t)
    (waiting : gmap TransactionID nat) (w : World.t)
    : error * World.t +
      list BatchPaymentResult.t * gmap TransactionID nat * World.t :=
  match rest with
  | [] => inr (resultList, waiting, w)
  | None :: _ => inl ("batch prepare failed", w)
  | Some prepared :: rest =>
      let '(bpResult, waiting, w) :=
        submitOne env senderAccountID i prepared waiting w in
      submitLoop env senderAccountID rest (S i)
        (<[i := bpResult]> resultList) waiting w
  end.

(** The variables of the wait loop (lines 93-131). *)
Module WaitState.
Record t : Type := Build
  { resultList : list BatchPaymentResult.t;
    waiting : gmap TransactionID nat;
    waitingCount : Z;
    timedOut : bool;
    world : World.t }.
End WaitState.

(** One turn of the select statement (lines 99-130). *)
Definition waitStep (env : Env) (st : WaitState.t) (ev : Event)
    : outcome WaitState.t :=
  match ev with
  | Tick expired =>
      Ret (WaitState.Build (WaitState.resultList st) (WaitState.waiting st)
             (WaitState.waitingCount st)
             (if expired then true else WaitState.timedOut st)
             (WaitState.world st))
  | Update txID status =>
      match WaitState.waiting st !! txID with
      | None => Ret st
      | Some index =>
          match WaitState.resultList st !! index with
          | None => Panic "index out of range: resultList[index]"
          | Some r =>
              let r := BatchPaymentResult.withStatus r status in
              let r :=
                BatchPaymentResult.withStatusDescription r
                  (PaymentStatusRevMap env status) in
              let '(r, waiting, waitingCount, w) :=
                if decide (status <> PaymentStatus_PENDING)
                then
                  let '(t, w) := timeNow env (WaitState.world st) in
                  (BatchPaymentResult.withEndTime r t,
                   delete txID (WaitState.waiting st),
                   wrap64 (WaitState.waitingCount st - 1), w)
                else
                  (r, WaitState.waiting st, WaitState.waitingCount st,
                   WaitState.world st) in
              let w :=
                if decide (status = PaymentStatus_COMPLETED)
                then
                  World.Build (World.clock w) (World.walletState w)
                    (World.chats w ++ [(BatchPaymentResult.Username r, txID)])
                else w in
              Ret (WaitState.Build (<[index := r]> (WaitState.resultList st))
                     waiting waitingCount (WaitState.timedOut st) w)
          end
      end
  end.

(** [for waitingCount > 0 && !timedOut { select ... }]: the loop condition,
    and the loop; with the events used up and the condition still true
    the loop stays parked. *)
Definition waitGuard (st : WaitState.t) : bool :=
  (0 <? WaitState.waitingCount st) && negb (WaitState.timedOut st).

Fixpoint waitLoop (env : Env) (st : WaitState.t) (events : list Event)
    : outcome WaitState.t :=
  if waitGuard st
  then
    match events with
    | [] => Blocked
    | ev :: events =>
        match waitStep env st ev with
        | Ret st => waitLoop env st events
        | Panic why => Panic why
        | Blocked => Blocked
        end
    end
  else Ret st.

(** The local variables of [calculateStats] together with the three
    counters of the result it updates in place. *)
Module Stats.
Record t : Type := Build
  { durationTotal : TimeMs;
    durationSuccess : TimeMs;
    durationError : TimeMs;
    countDone : Z;
    CountSuccess : Z;
    CountPending : Z;
    CountError : Z }.
End Stats.

(** The body of the loop over [res.Payments] (lines 301-317). *)
Definition statsStep (acc : Stats.t) (p : BatchPaymentResult.t) : Stats.t :=
  let duration :=
    wrap64 (BatchPaymentResult.EndTime p - BatchPaymentResult.StartTime p) in
  let durationTotal := wrap64 (Stats.durationTotal acc + duration) in
  match BatchPaymentResult.Status p with
  | PaymentStatus_COMPLETED =>
      Stats.Build durationTotal
        (wrap64 (Stats.durationSuccess acc + duration))
        (Stats.durationError acc)
        (wrap64 (Stats.countDone acc + 1))
        (wrap64 (Stats.CountSuccess acc + 1))
        (Stats.CountPending acc) (Stats.CountError acc)
  | PaymentStatus_PENDING =>
      Stats.Build durationTotal (Stats.durationSuccess acc)
        (Stats.durationError acc) (Stats.countDone acc)
        (Stats.CountSuccess acc)
        (wrap64 (Stats.CountPending acc + 1)) (Stats.CountError acc)
  | _ =>
      Stats.Build durationTotal (Stats.durationSuccess acc)
        (wrap64 (Stats.durationError acc + duration))
        (wrap64 (Stats.countDone acc + 1))
        (Stats.CountSuccess acc) (Stats.CountPending acc)
        (wrap64 (Stats.CountError acc + 1))
  end.

(** Go's [/] on [int64]: truncated division, wrapped. *)
Definition div64 (a b : Z) : Z := wrap64 (Z.quot a b).

(** [calculateStats] (lines 290-330). *)
Definition calculateStats (res : BatchResultLocal.t) : BatchResultLocal.t :=
  let acc :=
    fold_left statsStep (BatchResultLocal.Payments res)
      (Stats.Build 0 0 0 0 (BatchResultLocal.CountSuccess res)
         (BatchResultLocal.CountPending res)
         (BatchResultLocal.CountError res)) in
  BatchResultLocal.Build
    (BatchResultLocal.StartTime res) (BatchResultLocal.PreparedTime res)
    (BatchResultLocal.AllSubmittedTime res) (BatchResultLocal.EndTime res)
    (BatchResultLocal.Payments res)
    (wrap64 (BatchResultLocal.EndTime res - BatchResultLocal.StartTime res))
    (wrap64 (BatchResultLocal.PreparedTime res - BatchResultLocal.StartTime res))
    (wrap64 (BatchResultLocal.AllSubmittedTime res - BatchResultLocal.PreparedTime res))
    (wrap64 (BatchResultLocal.EndTime res - BatchResultLocal.AllSubmittedTime res))
    (Stats.CountSuccess acc) (Stats.CountPending acc) (Stats.CountError acc)
    (if 0 <? Stats.countDone acc
     then div64 (Stats.durationTotal acc) (Stats.countDone acc)
     else BatchResultLocal.AvgDurationMs res)
    (if 0 <? Stats.CountSuccess acc
     then div64 (Stats.durationSuccess acc) (Stats.CountSuccess acc)
     else BatchResultLocal.AvgSuccessDurationMs res)
    (if 0 <? Stats.CountError acc
     then div64 (Stats.durationError acc) (Stats.CountError acc)
     else BatchResultLocal.AvgErrorDurationMs res).

(** What a call of [Batch] hands back: the named results [res] and [err],
    and the world as it leaves it. *)
Definition Returned : Type := BatchResultLocal.t * ptr error * World.t.

(** [Batch] up to the wait loop (lines 27-96): either an early return, or
    the result so far with the variables the wait loop starts from. *)
Definition batchSubmit (env : Env) (w : World.t) (arg : BatchLocalArg.t)
    (sched : Schedule)
    : outcome (Returned + BatchResultLocal.t * WaitState.t) :=
  let '(startTime, w) := timeNow env w in
  let res := BatchResultLocal.withStartTime BatchResultLocal.zero startTime in
  match LookupSenderSeed env with
  | Err err => Ret (inl (res, Some err, w))
  | Ok (senderAccountID, senderSeed) =>
      match PrepareBatchPayments env (World.walletState w) senderSeed
              (BatchLocalArg.Payments arg) sched with
      | Panic why => Panic why
      | Blocked => Blocked
      | Ret (prepared, Some err, ws) =>
          Ret (inl (res, Some err, withWalletState w ws))
      | Ret (prepared, None, ws) =>
          let w := withWalletState w ws in
          let '(t, w) := timeNow env w in
          let res := BatchResultLocal.withPreparedTime res t in
          match GetListener env with
          | Some err => Ret (inl (res, Some err, w))
          | None =>
              let resultList :=
                replicate (length prepared) BatchPaymentResult.zero in
              match submitLoop env senderAccountID prepared 0 resultList ∅ w with
              | inl (err, w) => Ret (inl (res, Some err, w))
              | inr (resultList, waiting, w) =>
                  let '(t, w) := timeNow env w in
                  let res := BatchResultLocal.withAllSubmittedTime res t in
                  Ret (inr (res,
                            WaitState.Build resultList waiting
                              (Z.of_nat (size waiting)) false w))
              end
          end
      end
  end.

(** [Batch] after the wait loop (lines 133-143). *)
Definition batchFinish (env : Env) (res : BatchResultLocal.t)
    (st : WaitState.t) : Returned :=
  let res := BatchResultLocal.withPayments res (WaitState.resultList st) in
  let '(t, w) := timeNow env (WaitState.world st) in
  let res := BatchResultLocal.withEndTime res t in
  (calculateStats res, None, w).

(** The deferred function of [Batch] (lines 31-35). *)
Definition batchDeferred (env : Env) (r : Returned) : Returned :=
  let '(res, err, w) := r in
  if BatchResultLocal.EndTime res =? 0
  then
    let '(t, w) := timeNow env w in
    (BatchResultLocal.withEndTime res t, err, w)
  else (res, err, w).

(** [Batch] (lines 26-144). *)
Definition Batch (env : Env) (w : World.t) (arg : BatchLocalArg.t)
    (sched : Schedule) (events : list Event) : outcome Returned :=
  match batchSubmit env w arg sched with
  | Panic why => Panic why
  | Blocked => Blocked
  | Ret (inl early) => Ret (batchDeferred env early)
  | Ret (inr (res, st)) =>
      match waitLoop env st events with
      | Panic why => Panic why
      | Blocked => Blocked
      | Ret st => Ret (batchDeferred env (batchFinish env res st))
      end
  end.

(** ** A concrete environment

    Used to run the definitions above on explicit inputs. *)
Module Demo.

(** The value of a decimal digit. *)
Definition digit (c : ascii) : option N :=
  let n := N_of_ascii c in
  if ((48 <=? n) && (n <=? 57))%N then Some (n - 48)%N else None.

(** A string of digits read as a number, continuing from [acc]. *)
Fixpoint digits (s : string) (acc : N) : option N :=
  match s with
  | EmptyString => Some acc
  | String c s =>
      match digit c with
      | Some d => digits s (10 * acc + d)%N
      | None => None
      end
  end.

(** The text before the first dot, and the text after it (if any). *)
Fixpoint splitDot (s : string) : string * option string :=
  match s with
  | EmptyString => (EmptyString, None)
  | String c s =>
      if Ascii.eqb c "."%char then (EmptyString, Some s)
      else let '(a, b) := splitDot s in (String c a, b)
  end.

(** An amount in units of 10^-7, the ledger's precision. *)
Definition parseAmount (s : string) : option N :=
  let '(whole, frac) := splitDot s in
  let frac := default EmptyString frac in
  if (7 <? String.length frac)%nat then None
  else
    match digits whole 0, digits frac 0 with
    | Some a, Some b =>
        Some (a * 10 ^ 7 + b * 10 ^ N.of_nat (7 - String.length frac))%N
    | _, _ => None
    end.

(** Modelled from the spec: [isAmountLessThanMin], a helper of the stellar
    package that batch.go calls and that is declared in another file.
    Amounts are decimal strings compared by value, never as text. *)
Definition decimalLessThan (amount min : string) : bool :=
  match parseAmount amount, parseAmount min with
  | Some a, Some m => (a <? m)%N
  | _, _ => false
  end.

(** ASCII lower case. *)
Definition lowerChar (c : ascii) : ascii :=
  let n := N_of_ascii c in
  if ((65 <=? n) && (n <=? 90))%N then ascii_of_N (n + 32) else c.

Fixpoint toLower (s : string) : string :=
  match s with
  | EmptyString => EmptyString
  | String c s => String (lowerChar c) (toLower s)
  end.

(** Alice has a funded account, Dave an account that is not funded yet,
    Erin an account but no user record, Carol no account (relay); nobody
    else resolves. *)
Definition lookupRecipient (r : string) : result Recipient.t :=
  if String.eqb r "Alice" then
    Ok (Recipient.Build r (Some (User.Build "uv-alice")) (Some "GALICE"))
  else if String.eqb r "Dave" then
    Ok (Recipient.Build r (Some (User.Build "uv-dave")) (Some "GDAVE"))
  else if String.eqb r "Erin" then
    Ok (Recipient.Build r None (Some "GERIN"))
  else if String.eqb r "Carol" then
    Ok (Recipient.Build r (Some (User.Build "uv-carol")) None)
  else Err ("no such user: " +:+ r).

(** The signer takes the next sequence slot; the transaction hash names
    the destination and the amount. *)
Definition sign (seed : SeedStr) (to : AccountID) (amount : string)
    (sp : SeqnoProvider) : result SignResult.t * SeqnoProvider :=
  (Ok (SignResult.Build (sp + 1)%N ("tx:" +:+ to +:+ ":" +:+ amount)
         ("tx:" +:+ to +:+ ":" +:+ amount)),
   (sp + 1)%N).

Definition relayCreate (input : RelayInput.t) (sp : SeqnoProvider)
    : result RelayOutput.t * SeqnoProvider :=
  (Ok (RelayOutput.Build "GRELAY" "box"
         (SignResult.Build (sp + 1)%N
            ("tx:relay:" +:+ RelayInput.AmountXLM input)
            ("tx:relay:" +:+ RelayInput.AmountXLM input))),
   (sp + 1)%N).

Definition statusName (s : PaymentStatus) : string :=
  match s with
  | PaymentStatus_NONE => "NONE"
  | PaymentStatus_PENDING => "PENDING"
  | PaymentStatus_CLAIMABLE => "CLAIMABLE"
  | PaymentStatus_COMPLETED => "COMPLETED"
  | PaymentStatus_ERROR => "ERROR"
  | PaymentStatus_UNKNOWN => "UNKNOWN"
  | PaymentStatus_CANCELED => "CANCELED"
  end.

(** The gateway accepts every transaction, under the hash it was signed
    with; [pending] says whether it answers with a pending
    acknowledgement.  The clock advances ten milliseconds per reading. *)
Definition env (sender : result (AccountID * SeedStr)) (pending : bool) : Env :=
  {| LookupSenderSeed := sender;
     LookupRecipient := lookupRecipient;
     NewNormalizedUsername := toLower;
     isAccountFunded := fun a => Ok (negb (String.eqb a "GDAVE"));
     isAmountLessThanMin := decimalLessThan;
     ActiveDeviceID := "device";
     PaymentXLMTransaction := sign;
     CreateAccountXLMTransaction := sign;
     NoteEncryptB64 := fun note _ => Ok ("enc:" +:+ NoteContents.Note note);
     relays_GetKey := fun _ => Ok ("appkey", "team");
     relays_Create := relayCreate;
     GetListener := None;
     SubmitPayment := fun _ post =>
       Ok (PaymentResult.Build (PaymentDirectPost.SignedTransaction post) pending);
     SubmitRelayPayment := fun _ post =>
       Ok (PaymentResult.Build (PaymentRelayPost.SignedTransaction post) pending);
     now := fun k => 1000 + 10 * Z.of_nat k;
     PaymentStatusRevMap := statusName |}.

Definition sender : result (AccountID * SeedStr) := Ok ("GSENDER", "SSEED").

(** The sender's account is at sequence number 100. *)
Definition world : World.t :=
  World.Build 0 (WalletState.Build 100%N [] []) [].

Definition inOrder : Schedule := BuildSchedule [] [].

Definition pay (recipient amount : string) : BatchPaymentArg.t :=
  BatchPaymentArg.Build recipient amount "".

Definition arg (payments : list BatchPaymentArg.t) : BatchLocalArg.t :=
  BatchLocalArg.Build "demo" 1 payments.

End Demo.

(** ** Vocabulary of the statements *)

(** A prepared entry is a prepare error when its [Error] is set. *)
Definition PrepareErr (m : MiniPrepared.t) : Prop :=
  is_Some (MiniPrepared.Error m).

(** The user name batch.go gives every result of a payment. *)
Definition usernameOf (env : Env) (p : BatchPaymentArg.t) : string :=
  NewNormalizedUsername env (BatchPaymentArg.Recipient p).

(** The payments on which [prepareBatchPaymentDirect] gets as far as
    [&recipient.User.UV] (line 205) with no user record to point into. *)
Definition derefsNilUser (env : Env) (p : BatchPaymentArg.t) : bool :=
  match LookupRecipient env (BatchPaymentArg.Recipient p) with
  | Ok recipient =>
      match Recipient.AccountID recipient, Recipient.User recipient with
      | Some accountID, None =>
          match isAccountFunded env accountID with
          | Ok funded =>
              negb (negb funded &&
                    isAmountLessThanMin env (BatchPaymentArg.Amount p)
                      minAmountCreateAccountXLM)
          | Err _ => false
          end
      | _, _ => false
      end
  | Err _ => false
  end.


(** What [prepareBatchPayment] hands back for one payment. *)
Definition preparedFor (env : Env) (p : BatchPaymentArg.t)
    (r : ptr MiniPrepared.t) : Prop :=
  ∃ m, r = Some m ∧ MiniPrepared.Username m = usernameOf env p ∧
       (PrepareErr m → MiniPrepared.Seqno m = 0%N).

(** [r] is what some goroutine of the batch returned for [p], whatever
    state it found the provider in. *)
Definition preparedBy (env : Env) (senderSeed : SeedStr)
    (p : BatchPaymentArg.t) (r : ptr MiniPrepared.t) : Prop :=
  ∃ sp sp', prepareBatchPayment env sp senderSeed p = Ret (r, sp').

Definition nilUserPanic : string := "nil pointer dereference: recipient.User".

(** The three statuses batch.go itself assigns. *)
Definition namedStatus (s : PaymentStatus) : Prop :=
  s = PaymentStatus_COMPLETED ∨ s = PaymentStatus_PENDING ∨
  s = PaymentStatus_ERROR.

(** [statusDescription] is the label of [status]. *)
Definition described (env : Env) (r : BatchPaymentResult.t) : Prop :=
  BatchPaymentResult.StatusDescription r =
  PaymentStatusRevMap env (BatchPaymentResult.Status r).

(** The waiting set refers to results that are pending under the
    transaction id they are filed under. *)
Definition WaitingInv (resultList : list BatchPaymentResult.t)
    (waiting : gmap TransactionID nat) : Prop :=
  ∀ tx k, waiting !! tx = Some k →
    ∃ r, resultList !! k = Some r ∧
         BatchPaymentResult.Status r = PaymentStatus_PENDING ∧
         BatchPaymentResult.TxID r = tx.

(** The result the submit loop leaves for the prepared entry [m]. *)
Definition submittedFor (env : Env) (m : MiniPrepared.t)
    (r : BatchPaymentResult.t) : Prop :=
  BatchPaymentResult.Username r = MiniPrepared.Username m ∧
  described env r ∧
  namedStatus (BatchPaymentResult.Status r) ∧
  ∀ e, MiniPrepared.Error m = Some e →
       BatchPaymentResult.Status r = PaymentStatus_ERROR ∧
       BatchPaymentResult.Error r = Some (BatchPaymentError.Build e).

(** The turns of the wait loop: from one state, through the events its
    select statement delivered, to another. *)
Inductive waitRun (env : Env) : WaitState.t → list Event → WaitState.t → Prop :=
| waitRun_nil st : waitRun env st [] st
| waitRun_cons st ev st1 evs st' :
    waitGuard st = true →
    waitStep env st ev = Ret st1 →
    waitRun env st1 evs st' →
    waitRun env st (ev :: evs) st'.

(** A status update of the wait loop rewrote [r] into [r']. *)
Definition updatedBy (env : Env) (ev : Event)
    (r r' : BatchPaymentResult.t) : Prop :=
  BatchPaymentResult.Status r = PaymentStatus_PENDING ∧
  ev = Update (BatchPaymentResult.TxID r) (BatchPaymentResult.Status r') ∧
  BatchPaymentResult.Username r' = BatchPaymentResult.Username r ∧
  BatchPaymentResult.TxID r' = BatchPaymentResult.TxID r ∧
  described env r'.

(** The payments of a result list by the class [calculateStats] counts
    them in. *)
Definition completedOf (l : list BatchPaymentResult.t)
    : list BatchPaymentResult.t :=
  filter (λ r, BatchPaymentResult.Status r = PaymentStatus_COMPLETED) l.

Definition pendingOf (l : list BatchPaymentResult.t)
    : list BatchPaymentResult.t :=
  filter (λ r, BatchPaymentResult.Status r = PaymentStatus_PENDING) l.

Definition failedOf (l : list BatchPaymentResult.t)
    : list BatchPaymentResult.t :=
  filter (λ r, BatchPaymentResult.Status r ≠ PaymentStatus_COMPLETED ∧
               BatchPaymentResult.Status r ≠ PaymentStatus_PENDING) l.

(** What [PrepareBatchPayments] returns when it returns: [ms] holds one
    prepared entry per payment, sorted by [Seqno]. *)
Definition PreparedAs (env : Env) (ws : WalletState.t) (senderSeed : SeedStr)
    (payments : list BatchPaymentArg.t) (sched : Schedule)
    (ms : list MiniPrepared.t) : Prop :=
  ∃ order rs sp',
    PrepareBatchPayments env ws senderSeed payments sched =
      Ret (Some <$> ms, None, WalletState.withSeqno ws sp') ∧
    order ≡ₚ payments ∧
    Forall2 (preparedBy env senderSeed) order rs ∧
    Some <$> ms ≡ₚ rs ∧
    StronglySorted (leBy MiniPrepared.Seqno) ms.

(** How the wait loop leaves a result [r0] of the submit loop: as it was,
    or rewritten by a status update for its transaction. *)
Definition settled (env : Env) (events : list Event)
    (r0 r : BatchPaymentResult.t) : Prop :=
  BatchPaymentResult.Username r = BatchPaymentResult.Username r0 ∧
  BatchPaymentResult.TxID r = BatchPaymentResult.TxID r0 ∧
  (r = r0 ∨
   BatchPaymentResult.Status r0 = PaymentStatus_PENDING ∧
   Update (BatchPaymentResult.TxID r0) (BatchPaymentResult.Status r) ∈ events ∧
   described env r).

(** Claim C1 as the specification words it: the result at every index
    belongs to the input payment at that index. *)
Definition resultsInInputOrder (env : Env) (arg : BatchLocalArg.t)
    (res : BatchResultLocal.t) : Prop :=
  ∀ i p, BatchLocalArg.Payments arg !! i = Some p →
    ∃ r, BatchResultLocal.Payments res !! i = Some r ∧
         BatchPaymentResult.Username r = usernameOf env p.

(** Claim C2 as the specification words it: no prepare error comes before
    an entry that was prepared successfully. *)
Definition errorsAfterOk (ms : list MiniPrepared.t) : Prop :=
  ∀ i j a b, ms !! i = Some a → ms !! j = Some b →
    PrepareErr a → MiniPrepared.Error b = None → (j < i)%nat.

(** Claim C3 as the specification words it: the total duration of the
    terminal payments (COMPLETED and ERROR) divided by their number. *)
Definition terminalOf (l : list BatchPaymentResult.t)
    : list BatchPaymentResult.t :=
  filter (λ r, BatchPaymentResult.Status r = PaymentStatus_COMPLETED ∨
               BatchPaymentResult.Status r = PaymentStatus_ERROR) l.

Definition avgDurationOfTerminal (l : list BatchPaymentResult.t) : Z :=
  Z.quot
    (foldr Z.add 0
       ((λ r, BatchPaymentResult.EndTime r - BatchPaymentResult.StartTime r)
          <$> terminalOf l))
    (Z.of_nat (length (terminalOf l))).

(** Claim C6 as the specification words it: a status stays as it is, or
    goes from PENDING to COMPLETED or from PENDING to ERROR. *)
Definition legalTransition (s s' : PaymentStatus) : Prop :=
  s' = s ∨
  s = PaymentStatus_PENDING ∧
  (s' = PaymentStatus_COMPLETED ∨ s' = PaymentStatus_ERROR).

(** The prepared entry of a payment that failed with [err] before
    anything else was filled in. *)
Definition prepareErr (env : Env) (p : BatchPaymentArg.t) (err : error)
    : MiniPrepared.t :=
  MiniPrepared.withError (MiniPrepared.zero (usernameOf env p)) err.

(** A payment below the minimum that applies to it, with the message the
    specification gives for it: a direct payment to an account that is not
    funded, of less than "1"; or a relay payment of less than "2.01". *)
Inductive BelowMinimum (env : Env) (p : BatchPaymentArg.t) : error → Prop :=
| below_create recipient accountID :
    LookupRecipient env (BatchPaymentArg.Recipient p) = Ok recipient →
    Recipient.AccountID recipient = Some accountID →
    isAccountFunded env accountID = Ok false →
    isAmountLessThanMin env (BatchPaymentArg.Amount p) "1" = true →
    BelowMinimum env p
      ("you must send at least 1 XLM to fund the account for "
       +:+ BatchPaymentArg.Recipient p)
| below_relay recipient :
    LookupRecipient env (BatchPaymentArg.Recipient p) = Ok recipient →
    Recipient.AccountID recipient = None →
    isAmountLessThanMin env (BatchPaymentArg.Amount p) "2.01" = true →
    BelowMinimum env p
      ("you must send at least 2.01 XLM to fund the account for "
       +:+ BatchPaymentArg.Recipient p).

(** ** Vocabulary of the further properties *)

(** [p.EndTime - p.StartTime], before it is cut to 64 bits. *)
Definition duration (r : BatchPaymentResult.t) : Z :=
  BatchPaymentResult.EndTime r - BatchPaymentResult.StartTime r.

Definition sumZ (l : list Z) : Z := foldr Z.add 0 l.

(** The prepared entries that go to the gateway. *)
Definition okEntries (ms : list MiniPrepared.t) : list MiniPrepared.t :=
  filter (λ m, MiniPrepared.Error m = None) ms.

(** What [AddPendingTx] files for a prepared entry. *)
Definition registered (senderAccountID : AccountID) (m : MiniPrepared.t)
    : AccountID * TransactionID * N :=
  (senderAccountID, MiniPrepared.TxID m, MiniPrepared.Seqno m).

(** The submit RPC that [submitBatchTx] makes for a prepared entry. *)
Definition submissionOf (m : MiniPrepared.t) : list Submission :=
  match MiniPrepared.Direct m, MiniPrepared.Relay m with
  | Some direct, _ => [SubmitDirect direct]
  | None, Some relay => [SubmitRelay relay]
  | None, None => []
  end.

(** The result [r] after a status update carrying [status] (lines 109-113),
    in the world [w]. *)
Definition applyUpdate (env : Env) (w : World.t) (status : PaymentStatus)
    (r : BatchPaymentResult.t) : BatchPaymentResult.t :=
  let r := BatchPaymentResult.withStatus r status in
  let r :=
    BatchPaymentResult.withStatusDescription r
      (PaymentStatusRevMap env status) in
  if decide (status ≠ PaymentStatus_PENDING)
  then BatchPaymentResult.withEndTime r (now env (World.clock w))
  else r.

(** The same environment with another note encryptor. *)
Definition withNoteEncryptB64 (env : Env)
    (f : NoteContents.t → ptr UserVersion → result string) : Env :=
  {| LookupSenderSeed := LookupSenderSeed env;
     LookupRecipient := LookupRecipient env;
     NewNormalizedUsername := NewNormalizedUsername env;
     isAccountFunded := isAccountFunded env;
     isAmountLessThanMin := isAmountLessThanMin env;
     ActiveDeviceID := ActiveDeviceID env;
     PaymentXLMTransaction := PaymentXLMTransaction env;
     CreateAccountXLMTransaction := CreateAccountXLMTransaction env;
     NoteEncryptB64 := f;
     relays_GetKey := relays_GetKey env;
     relays_Create := relays_Create env;
     GetListener := GetListener env;
     SubmitPayment := SubmitPayment env;
     SubmitRelayPayment := SubmitRelayPayment env;
     now := now env;
     PaymentStatusRevMap := PaymentStatusRevMap env |}.

(** The same environment with another answer of the listener. *)
Definition withGetListener (env : Env) (l : ptr error) : Env :=
  {| LookupSenderSeed := LookupSenderSeed env;
     LookupRecipient := LookupRecipient env;
     NewNormalizedUsername := NewNormalizedUsername env;
     isAccountFunded := isAccountFunded env;
     isAmountLessThanMin := isAmountLessThanMin env;
     ActiveDeviceID := ActiveDeviceID env;
     PaymentXLMTransaction := PaymentXLMTransaction env;
     CreateAccountXLMTransaction := CreateAccountXLMTransaction env;
     NoteEncryptB64 := NoteEncryptB64 env;
     relays_GetKey := relays_GetKey env;
     relays_Create := relays_Create env;
     GetListener := l;
     SubmitPayment := SubmitPayment env;
     SubmitRelayPayment := SubmitRelayPayment env;
     now := now env;
     PaymentStatusRevMap := PaymentStatusRevMap env |}.

(** A clock that never runs backwards. *)
Definition monotoneClock (env : Env) : Prop :=
  ∀ i j, (i ≤ j)%nat → now env i ≤ now env j.

(** What the fields of a result say together: a pending result has no end
    time and no error, and a result with an error has status ERROR. *)
Definition consistentResult (r : BatchPaymentResult.t) : Prop :=
  (BatchPaymentResult.Status r = PaymentStatus_PENDING →
   BatchPaymentResult.EndTime r = 0 ∧ BatchPaymentResult.Error r = None) ∧
  (is_Some (BatchPaymentResult.Error r) →
   BatchPaymentResult.Status r = PaymentStatus_ERROR).

(** The start time of [r] is a reading of the clock from [c0] on and
    before [c1]; if [r] is not pending, its end time is a reading at or
    after that one and before [c]. *)
Definition timedWithin (env : Env) (c0 c1 c : nat)
    (r : BatchPaymentResult.t) : Prop :=
  ∃ ks, BatchPaymentResult.StartTime r = now env ks ∧ (c0 ≤ ks < c1)%nat ∧
        (BatchPaymentResult.Status r ≠ PaymentStatus_PENDING →
         ∃ ke, BatchPaymentResult.EndTime r = now env ke ∧
               (ks ≤ ke < c)%nat).

(** * Properties *)

(** ** The concrete environment at work *)

(** Amounts around the two minimums. *)
Example below_create_minimum :
  Demo.decimalLessThan "0.99" "1" = true ∧
  Demo.decimalLessThan "1" "1" = false ∧
  Demo.decimalLessThan "1.00001" "1" = false.
Proof. by vm_compute. Qed.

Example below_relay_minimum :
  Demo.decimalLessThan "2.00" "2.01" = true ∧
  Demo.decimalLessThan "2.01" "2.01" = false ∧
  Demo.decimalLessThan "2.011" "2.01" = false ∧
  Demo.decimalLessThan "2.1" "2.01" = false.
Proof. by vm_compute. Qed.

(** Two direct payments that the gateway accepts at once: submitted in
    the order of their sequence numbers, both COMPLETED. *)
Example two_directs_complete :
  ∃ res w',
    Batch (Demo.env Demo.sender false) Demo.world
      (Demo.arg [Demo.pay "Alice" "5"; Demo.pay "Dave" "5"]) Demo.inOrder []
    = Ret (res, None, w') ∧
    BatchPaymentResult.Username <$> BatchResultLocal.Payments res
      = ["alice"; "dave"] ∧
    BatchPaymentResult.Status <$> BatchResultLocal.Payments res
      = [PaymentStatus_COMPLETED; PaymentStatus_COMPLETED] ∧
    (BatchResultLocal.CountSuccess res, BatchResultLocal.CountPending res,
     BatchResultLocal.CountError res) = (2, 0, 0) ∧
    (λ x, x.2) <$> WalletState.pendingTxs (World.walletState w')
      = [101%N; 102%N].
Proof.
  do 2 eexists. split; [vm_compute; reflexivity|]. by repeat split.
Qed.

(** The same batch when Dave's goroutine gets to the sequence provider
    first and Alice's result arrives first: Dave holds the smaller
    sequence number and is submitted, and reported, first. *)
Example two_directs_other_schedule :
  ∃ res w',
    Batch (Demo.env Demo.sender false) Demo.world
      (Demo.arg [Demo.pay "Alice" "5"; Demo.pay "Dave" "5"])
      (BuildSchedule [1%nat] [1%nat]) []
    = Ret (res, None, w') ∧
    BatchPaymentResult.Username <$> BatchResultLocal.Payments res
      = ["dave"; "alice"] ∧
    (λ x, x.2) <$> WalletState.pendingTxs (World.walletState w')
      = [101%N; 102%N].
Proof.
  do 2 eexists. split; [vm_compute; reflexivity|]. by repeat split.
Qed.

(** A direct payment to a recipient with an account but no user record
    ends in a panic, not in a result. *)
Example direct_without_user_panics :
  Batch (Demo.env Demo.sender false) Demo.world
    (Demo.arg [Demo.pay "Erin" "5"]) Demo.inOrder [] = Panic nilUserPanic.
Proof. by vm_compute. Qed.

(** With every submit pending and no event left to wake the loop, the
    call does not return. *)
Example pending_without_events_blocks :
  Batch (Demo.env Demo.sender true) Demo.world
    (Demo.arg [Demo.pay "Alice" "5"]) Demo.inOrder [Tick false] = Blocked.
Proof. by vm_compute. Qed.

(** ** Scheduling and sorting *)

Section Arrange.
Context {A : Type}.
Implicit Types (l : list A) (choices : list nat).

Lemma arrange_Permutation choices l : arrange choices l ≡ₚ l.
Proof.
  revert l. induction choices as [|c cs IH]; intros l; simpl; [done|].
  destruct (l !! (c mod length l)%nat) as [x|] eqn:Hx; [|done].
  rewrite IH. symmetry. by apply delete_Permutation.
Qed.

Lemma arrange_length choices l : length (arrange choices l) = length l.
Proof. by rewrite arrange_Permutation. Qed.

(** Every arrangement of the list is the scheduler's to choose. *)
Lemma arrange_complete l l' : l ≡ₚ l' → ∃ choices, arrange choices l = l'.
Proof.
  revert l. induction l' as [|x l' IH]; intros l Hp.
  - apply Permutation_nil_r in Hp as ->. by exists [].
  - assert (x ∈ l) as Hin by (rewrite Hp; left).
    apply list_elem_of_lookup in Hin as [k Hk].
    assert (k < length l)%nat as Hlt by (by eapply lookup_lt_Some).
    destruct (IH (delete k l)) as [cs Hcs].
    { apply (inj (cons x)). by rewrite <- delete_Permutation. }
    exists (k :: cs). simpl.
    rewrite Nat.mod_small by done. by rewrite Hk, Hcs.
Qed.
End Arrange.

Section InsertionSort.
Context {A : Type} (key : A → N).

Local Abbreviation less := (lessBy key).
Local Abbreviation le := (leBy key).
Local Abbreviation ge := (geBy key).

Lemma insertBack_Permutation x r : insertBack less x r ≡ₚ x :: r.
Proof.
  induction r as [|y r IH]; simpl; [done|].
  destruct (less x y); [|done]. rewrite IH. apply Permutation_swap.
Qed.

Lemma insertBack_sorted x r :
  StronglySorted ge r → StronglySorted ge (insertBack less x r).
Proof.
  induction r as [|y r IH]; simpl; intros Hs.
  - repeat constructor.
  - apply StronglySorted_inv in Hs as [Hr Hy].
    destruct (less x y) eqn:Hlt; unfold lessBy in Hlt.
    + apply N.ltb_lt in Hlt. constructor; [by apply IH|].
      rewrite insertBack_Permutation. constructor; [|done].
      unfold geBy. lia.
    + apply N.ltb_ge in Hlt. constructor; [by constructor|].
      constructor; [done|].
      eapply Forall_impl; [exact Hy|]. unfold geBy. intros z Hz. lia.
Qed.

Lemma insertionSort_fold data acc :
  StronglySorted ge acc →
  let out := fold_left (fun acc x => insertBack less x acc) data acc in
  StronglySorted ge out ∧ out ≡ₚ data ++ acc.
Proof.
  revert acc. induction data as [|x data IH]; intros acc Hacc; simpl.
  - done.
  - destruct (IH (insertBack less x acc)) as [Hs Hp].
    { by apply insertBack_sorted. }
    split; [done|]. rewrite Hp, insertBack_Permutation.
    by rewrite Permutation_middle.
Qed.

Lemma insertionSort_Permutation data : insertionSort less data ≡ₚ data.
Proof.
  unfold insertionSort. rewrite <- Permutation_rev.
  destruct (insertionSort_fold data []) as [_ Hp]; [constructor|].
  by rewrite Hp, app_nil_r.
Qed.

Lemma StronglySorted_rev_ge l :
  StronglySorted ge l → StronglySorted le (rev l).
Proof.
  induction l as [|x l IH]; simpl; intros Hs; [constructor|].
  apply StronglySorted_inv in Hs as [Hl Hx].
  apply StronglySorted_app_2; [|by apply IH|repeat constructor].
  intros a b Ha Hb. apply list_elem_of_singleton in Hb as ->.
  apply list_elem_of_In, in_rev, list_elem_of_In in Ha.
  rewrite Forall_forall in Hx. by apply Hx.
Qed.

Lemma insertionSort_sorted data :
  StronglySorted le (insertionSort less data).
Proof.
  unfold insertionSort. apply StronglySorted_rev_ge.
  by destruct (insertionSort_fold data []) as [Hs _]; [constructor|].
Qed.

Lemma StronglySorted_lookup_le l i j a b :
  StronglySorted le l → l !! i = Some a → l !! j = Some b → (i < j)%nat →
  (key a ≤ key b)%N.
Proof.
  intros Hs. revert i j. induction Hs as [|x l Hs IH Hx]; intros i j Ha Hb Hij.
  - by rewrite lookup_nil in Ha.
  - destruct j as [|j]; [lia|]. simpl in Hb.
    destruct i as [|i]; simpl in Ha.
    + injection Ha as ->. rewrite Forall_forall in Hx.
      apply Hx. by eapply list_elem_of_lookup_2.
    + eapply IH; [done..|lia].
Qed.
End InsertionSort.

(** ** Preparation *)

Lemma prepareBatchPayment_cases env sp senderSeed p :
  (derefsNilUser env p = true ∧
   prepareBatchPayment env sp senderSeed p =
     Panic "nil pointer dereference: recipient.User") ∨
  (derefsNilUser env p = false ∧
   ∃ r sp', prepareBatchPayment env sp senderSeed p = Ret (r, sp') ∧
            preparedFor env p r).
Proof.
  unfold derefsNilUser, prepareBatchPayment, prepareBatchPaymentDirect,
    prepareBatchPaymentRelay, preparedFor, usernameOf, PrepareErr.
  repeat case_match; simplify_eq/=;
    first [ by left
          | right; split; [done|]; do 2 eexists; split; [done|];
            eexists; split; [done|]; split; [done|];
            simpl; by intros [? ?] ].
Qed.

Lemma preparedBy_preparedFor env senderSeed p r :
  preparedBy env senderSeed p r → preparedFor env p r.
Proof.
  intros (sp & sp' & Hr).
  destruct (prepareBatchPayment_cases env sp senderSeed p)
    as [[_ Hp]|[_ (r' & sp'' & Hr' & Hfor)]]; congruence.
Qed.

Lemma runPrepare_cases env sp senderSeed order :
  (Exists (λ p, derefsNilUser env p = true) order ∧
   runPrepare env sp senderSeed order = Panic nilUserPanic) ∨
  (Forall (λ p, derefsNilUser env p = false) order ∧
   ∃ rs sp', runPrepare env sp senderSeed order = Ret (rs, sp') ∧
             Forall2 (preparedBy env senderSeed) order rs).
Proof.
  revert sp. induction order as [|p order IH]; intros sp; simpl.
  - right. split; [constructor|]. by exists [], sp.
  - destruct (prepareBatchPayment_cases env sp senderSeed p)
      as [[Hd ->]|[Hd (r & sp1 & Hr & _)]].
    + left. split; [by left|done].
    + rewrite Hr.
      destruct (IH sp1) as [[Hex ->]|[Hall (rs & sp2 & -> & Hrs)]].
      * left. split; [by right|done].
      * right. split; [by constructor|].
        exists (r :: rs), sp2. split; [done|].
        constructor; [by exists sp, sp1|done].
Qed.

Lemma Forall2_preparedFor_Some env order rs :
  Forall2 (preparedFor env) order rs →
  ∃ ms, rs = Some <$> ms ∧
        MiniPrepared.Username <$> ms = usernameOf env <$> order ∧
        Forall (λ m, PrepareErr m → MiniPrepared.Seqno m = 0%N) ms.
Proof.
  induction 1 as [|p r order rs (m & -> & Hu & Hz) _ (ms & -> & Hus & Hzs)].
  - by exists [].
  - exists (m :: ms). rewrite !fmap_cons, Hu, Hus. by repeat constructor.
Qed.

Lemma derefAll_Some {A : Type} (l : list A) : derefAll (Some <$> l) = Some l.
Proof. unfold derefAll. by apply mapM_fmap_Some. Qed.

Lemma StronglySorted_short {A : Type} (R : relation A) (l : list A) :
  (length l < 2)%nat → StronglySorted R l.
Proof.
  destruct l as [|x [|y l]]; simpl; intros; [repeat constructor..|lia].
Qed.

Lemma sortBySeqno_spec ms :
  ∃ ms', sortBySeqno (Some <$> ms) = Ret (Some <$> ms') ∧ ms' ≡ₚ ms ∧
         StronglySorted (leBy MiniPrepared.Seqno) ms'.
Proof.
  unfold sortBySeqno. rewrite length_fmap.
  destruct (length ms <? 2)%nat eqn:Hlen.
  - exists ms. repeat split; [done|].
    apply StronglySorted_short. by apply Nat.ltb_lt.
  - rewrite derefAll_Some. eexists. split; [done|].
    change lessSeqno with (lessBy MiniPrepared.Seqno).
    split; [apply insertionSort_Permutation|apply insertionSort_sorted].
Qed.

Lemma arrange_fmap {A B : Type} (f : A → B) choices (l : list A) :
  arrange choices (f <$> l) = f <$> arrange choices l.
Proof.
  revert l. induction choices as [|c cs IH]; intros l; simpl; [done|].
  rewrite length_fmap, list_lookup_fmap.
  destruct (l !! (c mod length l)%nat) as [x|]; simpl; [|done].
  by rewrite <- list_fmap_delete, IH.
Qed.

(** How [PrepareBatchPayments] ends: with a panic when some goroutine
    dereferences a missing user record, and otherwise with a nil error and
    the prepared entries of all payments, sorted by [Seqno]. *)
Lemma PrepareBatchPayments_cases env ws senderSeed payments sched :
  (Exists (λ p, derefsNilUser env p = true) payments ∧
   PrepareBatchPayments env ws senderSeed payments sched = Panic nilUserPanic) ∨
  (Forall (λ p, derefsNilUser env p = false) payments ∧
   ∃ order rs ms sp',
     PrepareBatchPayments env ws senderSeed payments sched =
       Ret (Some <$> ms, None, WalletState.withSeqno ws sp') ∧
     order ≡ₚ payments ∧
     Forall2 (preparedBy env senderSeed) order rs ∧
     Some <$> ms ≡ₚ rs ∧
     StronglySorted (leBy MiniPrepared.Seqno) ms).
Proof.
  unfold PrepareBatchPayments.
  pose proof (arrange_Permutation (exec_order sched) payments) as Hexec.
  destruct (runPrepare_cases env (WalletState.seqno ws) senderSeed
              (arrange (exec_order sched) payments))
    as [[Hex ->]|[Hall (rs & sp' & -> & Hrs)]].
  - left. split; [|done]. by rewrite <- Hexec.
  - right. split; [by rewrite <- Hexec|].
    destruct (Forall2_preparedFor_Some env
                (arrange (exec_order sched) payments) rs) as (ms0 & -> & _ & _).
    { eapply Forall2_impl; [exact Hrs|]. apply preparedBy_preparedFor. }
    rewrite arrange_fmap.
    destruct (sortBySeqno_spec (arrange (recv_order sched) ms0))
      as (ms & -> & Hperm & Hsorted).
    exists (arrange (exec_order sched) payments), (Some <$> ms0), ms, sp'.
    repeat split; [done..| |done].
    by rewrite Hperm, arrange_Permutation.
Qed.

(** ** The submit loop *)

Lemma timeNow_walletState env w :
  World.walletState (timeNow env w).2 = World.walletState w ∧
  World.chats (timeNow env w).2 = World.chats w.
Proof. done. Qed.

Lemma makeResultError_spec env w res err :
  let r := (makeResultError env w res err).1 in
  BatchPaymentResult.Username r = BatchPaymentResult.Username res ∧
  BatchPaymentResult.Status r = PaymentStatus_ERROR ∧
  BatchPaymentResult.Error r = Some (BatchPaymentError.Build err).
Proof. done. Qed.

Lemma submitBatchTx_spec env w senderAccountID prepared bpResult :
  let r := (submitBatchTx env w senderAccountID prepared bpResult).1 in
  BatchPaymentResult.Username r = BatchPaymentResult.Username bpResult ∧
  namedStatus (BatchPaymentResult.Status r).
Proof.
  unfold submitBatchTx, namedStatus. simpl.
  repeat case_match; simplify_eq/=; auto.
Qed.

(** One pass of the loop body: the result for slot [i] and the waiting set
    after it. *)
Lemma submitOne_spec env senderAccountID i m waiting w :
  ∃ bp waiting1 w1,
    submitOne env senderAccountID i m waiting w = (bp, waiting1, w1) ∧
    submittedFor env m bp ∧
    (waiting1 = waiting ∨
     waiting1 = <[BatchPaymentResult.TxID bp := i]> waiting ∧
     BatchPaymentResult.Status bp = PaymentStatus_PENDING).
Proof.
  unfold submitOne, submittedFor, described.
  destruct (timeNow env w) as [t w0].
  set (bp0 := BatchPaymentResult.started (MiniPrepared.Username m) t).
  destruct (MiniPrepared.Error m) as [err|] eqn:He.
  - do 3 eexists. split; [done|]. simpl.
    split; [|by left]. split; [done|]. split; [done|].
    split; [by right; right|]. by intros e [= ->].
  - pose proof (submitBatchTx_spec env w0 senderAccountID m bp0) as [Hu Hs].
    destruct (submitBatchTx env w0 senderAccountID m bp0) as [bp w1].
    simpl in Hu, Hs. case_decide.
    + do 3 eexists. split; [done|]. simpl. split; [|by right].
      by repeat split.
    + do 3 eexists. split; [done|]. simpl. split; [|by left].
      by repeat split.
Qed.

Lemma submitLoop_spec env senderAccountID ms : ∀ i resultList waiting w,
  length resultList = (i + length ms)%nat →
  (∀ tx k, waiting !! tx = Some k →
     (k < i)%nat ∧
     ∃ r, resultList !! k = Some r ∧
          BatchPaymentResult.Status r = PaymentStatus_PENDING ∧
          BatchPaymentResult.TxID r = tx) →
  ∃ resultList' waiting' w',
    submitLoop env senderAccountID (Some <$> ms) i resultList waiting w =
      inr (resultList', waiting', w') ∧
    length resultList' = length resultList ∧
    (∀ k, (k < i)%nat → resultList' !! k = resultList !! k) ∧
    (∀ k m, ms !! k = Some m →
       ∃ r, resultList' !! (i + k)%nat = Some r ∧ submittedFor env m r) ∧
    WaitingInv resultList' waiting'.
Proof.
  induction ms as [|m ms IH]; intros i rl waiting w Hlen Hwait.
  - exists rl, waiting, w. simpl. repeat split; try done.
    intros tx k Hk. by destruct (Hwait tx k Hk).
  - rewrite fmap_cons. simpl in Hlen. simpl.
    destruct (submitOne_spec env senderAccountID i m waiting w)
      as (bp & waiting1 & w1 & -> & Hfor & Hw1).
    destruct (IH (S i) (<[i:=bp]> rl) waiting1 w1)
      as (rl' & waiting' & w' & -> & Hlen' & Hpre & Hres & Hinv).
    { rewrite length_insert. lia. }
    { intros tx k Hk.
      destruct Hw1 as [->|[-> Hpend]].
      - destruct (Hwait tx k Hk) as [Hlt (r & Hr & Hp & Htx)].
        split; [lia|]. exists r. by rewrite list_lookup_insert_ne by lia.
      - apply lookup_insert_Some in Hk as [[<- <-]|[Hne Hk]].
        + split; [lia|]. exists bp.
          by rewrite list_lookup_insert_eq by lia.
        + destruct (Hwait tx k Hk) as [Hlt (r & Hr & Hp & Htx)].
          split; [lia|]. exists r. by rewrite list_lookup_insert_ne by lia. }
    exists rl', waiting', w'. split; [done|].
    rewrite length_insert in Hlen'. repeat split; [done| | |done].
    + intros k Hk. rewrite Hpre by lia. by rewrite list_lookup_insert_ne by lia.
    + intros [|k] m' Hm'; simpl in Hm'.
      * injection Hm' as <-. exists bp. rewrite Nat.add_0_r, Hpre by lia.
        by rewrite list_lookup_insert_eq by lia.
      * destruct (Hres k m' Hm') as (r & Hr & Hfor'). exists r.
        by replace (i + S k)%nat with (S i + k)%nat by lia.
Qed.

(** ** The wait loop *)

Lemma waitStep_spec env st ev :
  WaitingInv (WaitState.resultList st) (WaitState.waiting st) →
  ∃ st', waitStep env st ev = Ret st' ∧
    WaitingInv (WaitState.resultList st') (WaitState.waiting st') ∧
    length (WaitState.resultList st') = length (WaitState.resultList st) ∧
    (ev = Tick true → WaitState.timedOut st' = true) ∧
    ∀ k r, WaitState.resultList st !! k = Some r →
      ∃ r', WaitState.resultList st' !! k = Some r' ∧
            (r' = r ∨ updatedBy env ev r r').
Proof.
  intros Hinv. destruct ev as [expired|tx s]; simpl.
  { eexists. split; [done|]. simpl. repeat split; [done| |by eauto].
    by intros [= ->]. }
  destruct (WaitState.waiting st !! tx) as [index|] eqn:Hidx.
  2: { exists st. repeat split; [done|done|by eauto]. }
  destruct (Hinv tx index Hidx) as (r0 & Hr0 & Hpend & Htx).
  rewrite Hr0.
  assert (index < length (WaitState.resultList st))%nat as Hlt
    by (by eapply lookup_lt_Some).
  case_decide as Hs.
  - (* a terminal status: the entry leaves the waiting set *)
    simpl. eexists. split; [done|]. simpl.
    repeat split; [|by rewrite length_insert|done|].
    + intros tx' k Hk. apply lookup_delete_Some in Hk as [Hne Hk].
      destruct (Hinv tx' k Hk) as (r & Hr & Hp & Ht). exists r.
      rewrite list_lookup_insert_ne; [done|].
      intros <-. congruence.
    + intros k r Hr. destruct (decide (k = index)) as [->|Hne].
      * eexists. rewrite list_lookup_insert_eq by done. split; [done|].
        right. rewrite Hr0 in Hr. injection Hr as <-.
        unfold updatedBy, described. simpl. by rewrite Htx.
      * exists r. by rewrite list_lookup_insert_ne by done; auto.
  - (* a pending update: still waiting *)
    subst s. simpl.
    eexists. split; [done|]. simpl.
    repeat split; [|by rewrite length_insert|done|].
    + intros tx' k Hk. destruct (Hinv tx' k Hk) as (r & Hr & Hp & Ht).
      destruct (decide (k = index)) as [->|Hne].
      * eexists. rewrite list_lookup_insert_eq by done. split; [done|].
        simpl. rewrite Hr0 in Hr. by injection Hr as <-.
      * exists r. by rewrite list_lookup_insert_ne by done.
    + intros k r Hr. destruct (decide (k = index)) as [->|Hne].
      * eexists. rewrite list_lookup_insert_eq by done. split; [done|].
        right. rewrite Hr0 in Hr. injection Hr as <-.
        unfold updatedBy, described. simpl. by rewrite Htx.
      * exists r. by rewrite list_lookup_insert_ne by done; auto.
Qed.

Lemma waitRun_spec env st evs st' :
  waitRun env st evs st' →
  WaitingInv (WaitState.resultList st) (WaitState.waiting st) →
  WaitingInv (WaitState.resultList st') (WaitState.waiting st') ∧
  length (WaitState.resultList st') = length (WaitState.resultList st) ∧
  ∀ k r, WaitState.resultList st !! k = Some r →
    ∃ r', WaitState.resultList st' !! k = Some r' ∧
          BatchPaymentResult.Username r' = BatchPaymentResult.Username r ∧
          BatchPaymentResult.TxID r' = BatchPaymentResult.TxID r ∧
          (r' = r ∨
           BatchPaymentResult.Status r = PaymentStatus_PENDING ∧
           Update (BatchPaymentResult.TxID r) (BatchPaymentResult.Status r')
             ∈ evs ∧
           described env r').
Proof.
  induction 1 as [st|st ev st1 evs st' Hguard Hstep Hrun IH]; intros Hinv.
  - repeat split; [done..|]. intros k r Hr. exists r. auto.
  - destruct (waitStep_spec env st ev Hinv)
      as (st1' & Hstep' & Hinv1 & Hlen1 & _ & Hres1).
    rewrite Hstep in Hstep'. injection Hstep' as <-.
    destruct (IH Hinv1) as (Hinv' & Hlen' & Hres').
    repeat split; [done|congruence|].
    intros k r Hr.
    destruct (Hres1 k r Hr) as (r1 & Hr1 & Hcase1).
    destruct (Hres' k r1 Hr1) as (r' & Hr' & Hu' & Ht' & Hcase').
    exists r'. split; [done|].
    destruct Hcase1 as [->|(Hp & Hev & Hu1 & Ht1 & Hd1)].
    + repeat split; [done..|].
      destruct Hcase' as [->|(Hp' & Hin & Hd')]; [by left|right].
      repeat split; [done| |done]. by right.
    + repeat split; [congruence..|]. right. split; [done|].
      destruct Hcase' as [->|(Hp' & Hin & Hd')].
      * split; [|done]. rewrite Hev. by left.
      * split; [|done]. right. by rewrite <- Ht1.
Qed.

Lemma waitLoop_run env events : ∀ st st',
  waitLoop env st events = Ret st' →
  ∃ used rest, events = used ++ rest ∧ waitRun env st used st' ∧
               waitGuard st' = false.
Proof.
  induction events as [|ev events IH]; intros st st'; simpl;
    destruct (waitGuard st) eqn:Hguard; intros Hloop; try done.
  - injection Hloop as <-. exists [], [].
    split; [done|]. split; [constructor|done].
  - destruct (waitStep env st ev) as [st1| |] eqn:Hstep; try done.
    destruct (IH st1 st' Hloop) as (used & rest & -> & Hrun & Hend).
    exists (ev :: used), rest.
    split; [done|]. split; [by econstructor|done].
  - injection Hloop as <-. exists [], (ev :: events).
    split; [done|]. split; [constructor|done].
Qed.

(** The loop returns once the deadline tick is among the events. *)
Lemma waitLoop_returns env events : ∀ st,
  WaitingInv (WaitState.resultList st) (WaitState.waiting st) →
  Tick true ∈ events →
  ∃ st', waitLoop env st events = Ret st'.
Proof.
  induction events as [|ev events IH]; intros st Hinv Hin.
  - by apply elem_of_nil in Hin.
  - simpl. destruct (waitGuard st) eqn:Hguard; [|by eauto].
    destruct (waitStep_spec env st ev Hinv)
      as (st1 & -> & Hinv1 & _ & Hout & _).
    apply elem_of_cons in Hin as [<-|Hin]; [|by apply IH].
    exists st1. destruct events; simpl; unfold waitGuard;
      rewrite Hout by done; by rewrite andb_false_r.
Qed.

(** The wait loop never indexes outside the result list. *)
Lemma waitLoop_no_panic env events : ∀ st why,
  WaitingInv (WaitState.resultList st) (WaitState.waiting st) →
  waitLoop env st events ≠ Panic why.
Proof.
  induction events as [|ev events IH]; intros st why Hinv; simpl;
    destruct (waitGuard st); try done.
  destruct (waitStep_spec env st ev Hinv) as (st1 & -> & Hinv1 & _).
  by apply IH.
Qed.

(** ** Statistics *)

Lemma wrap64_small z : - 2 ^ 63 ≤ z < 2 ^ 63 → wrap64 z = z.
Proof. intros Hz. unfold wrap64. rewrite Z.mod_small; lia. Qed.

Lemma classes_cons r (l : list BatchPaymentResult.t) :
  (BatchPaymentResult.Status r = PaymentStatus_COMPLETED ∧
   completedOf (r :: l) = r :: completedOf l ∧
   pendingOf (r :: l) = pendingOf l ∧ failedOf (r :: l) = failedOf l) ∨
  (BatchPaymentResult.Status r = PaymentStatus_PENDING ∧
   completedOf (r :: l) = completedOf l ∧
   pendingOf (r :: l) = r :: pendingOf l ∧ failedOf (r :: l) = failedOf l) ∨
  (BatchPaymentResult.Status r ≠ PaymentStatus_COMPLETED ∧
   BatchPaymentResult.Status r ≠ PaymentStatus_PENDING ∧
   completedOf (r :: l) = completedOf l ∧
   pendingOf (r :: l) = pendingOf l ∧ failedOf (r :: l) = r :: failedOf l).
Proof.
  unfold completedOf, pendingOf, failedOf. rewrite !filter_cons.
  destruct (decide (BatchPaymentResult.Status r = PaymentStatus_COMPLETED))
    as [Hc|Hc].
  - left. rewrite decide_False by congruence.
    rewrite decide_False by (intros [? _]; done). done.
  - right.
    destruct (decide (BatchPaymentResult.Status r = PaymentStatus_PENDING))
      as [Hp|Hp].
    + left. rewrite decide_False by (intros [_ ?]; done). done.
    + right. rewrite decide_True by done. done.
Qed.

Lemma classes_length (l : list BatchPaymentResult.t) :
  (length (completedOf l) + length (pendingOf l) + length (failedOf l))%nat
  = length l.
Proof.
  induction l as [|r l IH]; [done|].
  destruct (classes_cons r l)
    as [(_ & -> & -> & ->)|[(_ & -> & -> & ->)|(_ & _ & -> & -> & ->)]];
    simpl; lia.
Qed.

Lemma statsStep_counts l : ∀ acc,
  0 ≤ Stats.CountSuccess acc → 0 ≤ Stats.CountPending acc →
  0 ≤ Stats.CountError acc →
  Stats.CountSuccess acc + Z.of_nat (length l) < 2 ^ 63 →
  Stats.CountPending acc + Z.of_nat (length l) < 2 ^ 63 →
  Stats.CountError acc + Z.of_nat (length l) < 2 ^ 63 →
  let acc' := fold_left statsStep l acc in
  Stats.CountSuccess acc' =
    Stats.CountSuccess acc + Z.of_nat (length (completedOf l)) ∧
  Stats.CountPending acc' =
    Stats.CountPending acc + Z.of_nat (length (pendingOf l)) ∧
  Stats.CountError acc' =
    Stats.CountError acc + Z.of_nat (length (failedOf l)).
Proof.
  induction l as [|r l IH]; intros acc H1 H2 H3 B1 B2 B3.
  { unfold completedOf, pendingOf, failedOf. simpl. lia. }
  rewrite length_cons in B1, B2, B3.
  assert (∀ c, 0 ≤ c → c + Z.of_nat (S (length l)) < 2 ^ 63 →
               wrap64 (c + 1) = c + 1) as Hw.
  { intros c Hc Hb. apply wrap64_small. lia. }
  cbn [fold_left]. cbv zeta.
  assert (Stats.CountSuccess (statsStep acc r) =
            Stats.CountSuccess acc +
            (if decide (BatchPaymentResult.Status r = PaymentStatus_COMPLETED)
             then 1 else 0) ∧
          Stats.CountPending (statsStep acc r) =
            Stats.CountPending acc +
            (if decide (BatchPaymentResult.Status r = PaymentStatus_PENDING)
             then 1 else 0) ∧
          Stats.CountError (statsStep acc r) =
            Stats.CountError acc +
            (if decide (BatchPaymentResult.Status r = PaymentStatus_COMPLETED)
             then 0
             else if decide (BatchPaymentResult.Status r = PaymentStatus_PENDING)
                  then 0 else 1)) as (E1 & E2 & E3).
  { unfold statsStep.
    destruct (BatchPaymentResult.Status r);
      cbn [Stats.CountSuccess Stats.CountPending Stats.CountError];
      rewrite ?Hw by lia; repeat case_decide; try done; lia. }
  destruct (IH (statsStep acc r)) as (-> & -> & ->).
  1-6: rewrite ?E1, ?E2, ?E3; repeat case_decide; lia.
  rewrite E1, E2, E3.
  destruct (classes_cons r l)
    as [(Hs & -> & -> & ->)|[(Hs & -> & -> & ->)|(Hc & Hp & -> & -> & ->)]].
  - rewrite Hs, length_cons. repeat case_decide; try done; lia.
  - rewrite Hs, length_cons. repeat case_decide; try done; lia.
  - rewrite !decide_False by done. rewrite length_cons. lia.
Qed.

(** ** [Batch] as a whole *)

Lemma batchSubmit_early env w arg sched res err w' :
  batchSubmit env w arg sched = Ret (inl (res, err, w')) →
  is_Some err ∧ BatchResultLocal.Payments res = [].
Proof.
  unfold batchSubmit, timeNow. simpl.
  destruct (LookupSenderSeed env) as [[senderAccountID senderSeed]|e].
  2: { intros [= <- <- <-]. by eauto. }
  destruct (PrepareBatchPayments_cases env (World.walletState w) senderSeed
              (BatchLocalArg.Payments arg) sched)
    as [[_ ->]|[_ (order & rs & ms & sp' & -> & _)]]; [done|].
  destruct (GetListener env) as [e|].
  { intros [= <- <- <-]. by eauto. }
  match goal with
  | |- context [submitLoop ?e ?a ?l ?i ?rl ?wt ?w0] =>
      destruct (submitLoop_spec e a ms i rl wt w0) as (? & ? & ? & -> & _)
  end; [by rewrite length_replicate, length_fmap|done|done].
Qed.

Lemma batchSubmit_ready env w arg sched res st :
  batchSubmit env w arg sched = Ret (inr (res, st)) →
  ∃ senderAccountID senderSeed ms,
    LookupSenderSeed env = Ok (senderAccountID, senderSeed) ∧
    PreparedAs env (World.walletState w) senderSeed
      (BatchLocalArg.Payments arg) sched ms ∧
    length (WaitState.resultList st) = length ms ∧
    (∀ k m, ms !! k = Some m →
       ∃ r, WaitState.resultList st !! k = Some r ∧ submittedFor env m r) ∧
    WaitingInv (WaitState.resultList st) (WaitState.waiting st) ∧
    BatchResultLocal.CountSuccess res = 0 ∧
    BatchResultLocal.CountPending res = 0 ∧
    BatchResultLocal.CountError res = 0.
Proof.
  unfold batchSubmit, timeNow. simpl.
  destruct (LookupSenderSeed env) as [[senderAccountID senderSeed]|e]; [|done].
  destruct (PrepareBatchPayments_cases env (World.walletState w) senderSeed
              (BatchLocalArg.Payments arg) sched)
    as [[_ ->]|[_ (order & rs & ms & sp' & Hprep & Hperm & Hby & Hrs & Hsorted)]];
    [done|].
  rewrite Hprep.
  destruct (GetListener env) as [e|]; [done|].
  match goal with
  | |- context [submitLoop ?e ?a ?l ?i ?rl ?wt ?w0] =>
      destruct (submitLoop_spec e a ms i rl wt w0)
        as (rl' & waiting' & w1 & -> & Hlen & _ & Hres & Hinv)
  end; [by rewrite length_replicate, length_fmap|done|].
  intros [= <- <-]. simpl.
  exists senderAccountID, senderSeed, ms.
  split; [done|]. split; [by exists order, rs, sp'|].
  rewrite length_fmap, length_replicate in Hlen. by repeat split.
Qed.

Lemma Batch_returned env w arg sched events res w' :
  Batch env w arg sched events = Ret (res, None, w') →
  ∃ res0 st0 st' res1,
    batchSubmit env w arg sched = Ret (inr (res0, st0)) ∧
    waitLoop env st0 events = Ret st' ∧
    BatchResultLocal.Payments res = WaitState.resultList st' ∧
    BatchResultLocal.Payments res1 = WaitState.resultList st' ∧
    BatchResultLocal.CountSuccess res1 = BatchResultLocal.CountSuccess res0 ∧
    BatchResultLocal.CountPending res1 = BatchResultLocal.CountPending res0 ∧
    BatchResultLocal.CountError res1 = BatchResultLocal.CountError res0 ∧
    BatchResultLocal.CountSuccess res =
      BatchResultLocal.CountSuccess (calculateStats res1) ∧
    BatchResultLocal.CountPending res =
      BatchResultLocal.CountPending (calculateStats res1) ∧
    BatchResultLocal.CountError res =
      BatchResultLocal.CountError (calculateStats res1) ∧
    BatchResultLocal.AvgDurationMs res =
      BatchResultLocal.AvgDurationMs (calculateStats res1).
Proof.
  unfold Batch.
  destruct (batchSubmit env w arg sched) as [[[[res0 err] w0]|[res0 st0]]| |]
    eqn:Hsub; try done.
  { apply batchSubmit_early in Hsub as [[e ->] _].
    unfold batchDeferred. by case_match. }
  destruct (waitLoop env st0 events) as [st'| |] eqn:Hloop; try done.
  unfold batchFinish, batchDeferred, timeNow. simpl.
  intros Hret. exists res0, st0, st'.
  exists (BatchResultLocal.withEndTime
            (BatchResultLocal.withPayments res0 (WaitState.resultList st'))
            (now env (World.clock (WaitState.world st')))).
  split; [done|]. split; [done|].
  case_match; simplify_eq; by repeat split.
Qed.

Lemma fmap_eq_pointwise {A B C : Type} (f : A → C) (g : B → C)
    (l : list A) (k : list B) :
  length l = length k →
  (∀ i y, k !! i = Some y → ∃ x, l !! i = Some x ∧ f x = g y) →
  f <$> l = g <$> k.
Proof.
  intros Hlen Hpt. apply list_eq. intros i. rewrite !list_lookup_fmap.
  destruct (k !! i) as [y|] eqn:Hk.
  - destruct (Hpt i y Hk) as (x & -> & Hfg). simpl. by rewrite Hfg.
  - apply lookup_ge_None in Hk. rewrite <- Hlen in Hk.
    apply lookup_ge_None in Hk. by rewrite Hk.
Qed.

Lemma fmap_Some_Permutation {A : Type} (l k : list A) :
  Some <$> l ≡ₚ Some <$> k → l ≡ₚ k.
Proof.
  assert (∀ l : list A, omap id (Some <$> l) = l) as Hom.
  { intros l'. induction l' as [|x l' IH]; [done|]. rewrite fmap_cons.
    change (omap id (Some x :: (Some <$> l')))
      with (x :: omap id (Some <$> l')).
    by rewrite IH. }
  intros Hp. rewrite <- (Hom l), <- (Hom k). by rewrite Hp.
Qed.

(** The prepared entries carry the user names of the payments. *)
Lemma PreparedAs_usernames env ws senderSeed payments sched ms :
  PreparedAs env ws senderSeed payments sched ms →
  MiniPrepared.Username <$> ms ≡ₚ usernameOf env <$> payments ∧
  length ms = length payments ∧
  Forall (λ m, PrepareErr m → MiniPrepared.Seqno m = 0%N) ms.
Proof.
  intros (order & rs & sp' & _ & Hperm & Hby & Hrs & _).
  destruct (Forall2_preparedFor_Some env order rs) as (ms0 & -> & Hu & Hz).
  { eapply Forall2_impl; [exact Hby|]. apply preparedBy_preparedFor. }
  apply fmap_Some_Permutation in Hrs.
  split; [by rewrite Hrs, Hu, Hperm|].
  split; [|by rewrite Hrs].
  rewrite <- Hperm, Hrs. apply (f_equal length) in Hu.
  by rewrite !length_fmap in Hu.
Qed.

(** What a call of [Batch] that returns without error has done. *)
Lemma Batch_results env w arg sched events res w' :
  Batch env w arg sched events = Ret (res, None, w') →
  ∃ senderAccountID senderSeed ms,
    LookupSenderSeed env = Ok (senderAccountID, senderSeed) ∧
    PreparedAs env (World.walletState w) senderSeed
      (BatchLocalArg.Payments arg) sched ms ∧
    length (BatchResultLocal.Payments res) = length ms ∧
    ∀ k m, ms !! k = Some m →
      ∃ r0 r, submittedFor env m r0 ∧
              BatchResultLocal.Payments res !! k = Some r ∧
              settled env events r0 r.
Proof.
  intros Hret.
  destruct (Batch_returned _ _ _ _ _ _ _ Hret)
    as (res0 & st0 & st' & res1 & Hsub & Hloop & -> & _).
  destruct (batchSubmit_ready _ _ _ _ _ _ Hsub)
    as (acct & seed & ms & Hlook & Hprep & Hlen & Hres & Hinv & _).
  destruct (waitLoop_run _ _ _ _ Hloop) as (used & rest & -> & Hrun & _).
  destruct (waitRun_spec _ _ _ _ Hrun Hinv) as (_ & Hlen' & Hres').
  exists acct, seed, ms. repeat split; [done..|congruence|].
  intros k m Hm. destruct (Hres k m Hm) as (r0 & Hr0 & Hfor).
  destruct (Hres' k r0 Hr0) as (r & Hr & Hu & Ht & Hcase).
  exists r0, r. split; [done|]. split; [done|].
  unfold settled. split; [done|]. split; [done|].
  destruct Hcase as [->|(Hp & Hin & Hd)]; [by left|right].
  split; [done|]. split; [|done]. apply elem_of_app. by left.
Qed.

(** ** No nil entry reaches the submit loop *)

Lemma submitLoop_no_nil env senderAccountID ms : ∀ i resultList waiting w,
  ∃ out,
    submitLoop env senderAccountID (Some <$> ms) i resultList waiting w
    = inr out.
Proof.
  induction ms as [|m ms IH]; intros i rl waiting w.
  - by eexists.
  - rewrite fmap_cons. simpl.
    destruct (submitOne env senderAccountID i m waiting w) as [[bp wt] w1].
    apply IH.
Qed.

(** ** What the scheduler and the sort leave open *)

Lemma insertionSort_fold_sorted {A : Type} (key : A → N) data : ∀ acc,
  StronglySorted (leBy key) (rev acc ++ data) →
  fold_left (fun acc x => insertBack (lessBy key) x acc) data acc
  = rev data ++ acc.
Proof.
  induction data as [|x data IH]; intros acc Hs; simpl; [done|].
  assert (insertBack (lessBy key) x acc = x :: acc) as ->.
  { destruct acc as [|y acc]; [done|]. simpl.
    assert (leBy key y x) as Hyx.
    { simpl in Hs. rewrite <- app_assoc in Hs.
      apply StronglySorted_app_1_r in Hs.
      apply StronglySorted_inv in Hs as [_ Hy].
      by apply Forall_inv in Hy. }
    unfold lessBy, leBy in *.
    by destruct (N.ltb_spec (key x) (key y)); [lia|]. }
  rewrite IH; [by rewrite <- app_assoc|].
  simpl. by rewrite <- app_assoc.
Qed.

(** A slice that is in order already is left as it is. *)
Lemma insertionSort_sorted_id {A : Type} (key : A → N) (data : list A) :
  StronglySorted (leBy key) data → insertionSort (lessBy key) data = data.
Proof.
  intros Hs. unfold insertionSort.
  rewrite insertionSort_fold_sorted by done.
  by rewrite app_nil_r, rev_involutive.
Qed.

(** Every arrangement of the prepared entries that is in [Seqno] order is a
    possible return of [PrepareBatchPayments]: the order in which equal
    sequence numbers come out is the scheduler's, and the statements below
    hold for whichever order a sort picks among them. *)
Lemma PrepareBatchPayments_any_sorted env ws senderSeed payments exec ms0 sp' ms :
  runPrepare env (WalletState.seqno ws) senderSeed (arrange exec payments)
  = Ret (Some <$> ms0, sp') →
  ms ≡ₚ ms0 →
  StronglySorted (leBy MiniPrepared.Seqno) ms →
  ∃ recv,
    PrepareBatchPayments env ws senderSeed payments (BuildSchedule exec recv)
    = Ret (Some <$> ms, None, WalletState.withSeqno ws sp').
Proof.
  intros Hrun Hperm Hsorted.
  destruct (arrange_complete ms0 ms) as [recv Hrecv]; [done|].
  exists recv. unfold PrepareBatchPayments. simpl. rewrite Hrun.
  rewrite arrange_fmap, Hrecv. unfold sortBySeqno.
  destruct (length (Some <$> ms) <? 2)%nat; [done|].
  rewrite derefAll_Some.
  change lessSeqno with (lessBy MiniPrepared.Seqno).
  by rewrite insertionSort_sorted_id.
Qed.

(** ** When [Batch] returns *)

(** With no missing user record to trip over and the deadline tick among
    the events, [Batch] returns. *)
Lemma Batch_returns env w arg sched events :
  Forall (λ p, derefsNilUser env p = false) (BatchLocalArg.Payments arg) →
  Tick true ∈ events →
  ∃ r, Batch env w arg sched events = Ret r.
Proof.
  intros Hall Htick. unfold Batch.
  destruct (batchSubmit env w arg sched) as [[early|[res st]]| |] eqn:Hsub.
  - by eexists.
  - destruct (batchSubmit_ready _ _ _ _ _ _ Hsub)
      as (_ & _ & _ & _ & _ & _ & _ & Hinv & _).
    destruct (waitLoop_returns env events st Hinv Htick) as [st' ->].
    by eexists.
  - exfalso. revert Hsub. unfold batchSubmit, timeNow. simpl.
    destruct (LookupSenderSeed env) as [[acct seed]|e]; [|done].
    destruct (PrepareBatchPayments_cases env (World.walletState w) seed
                (BatchLocalArg.Payments arg) sched)
      as [[Hex _]|[_ (order & rs & ms & sp' & -> & _)]].
    + apply Exists_exists in Hex as (p & Hin & Hp).
      rewrite Forall_forall in Hall. specialize (Hall p Hin). congruence.
    + destruct (GetListener env); [done|].
      match goal with
      | |- context [submitLoop ?e ?a ?l ?i ?rl ?wt ?w0] =>
          destruct (submitLoop_no_nil e a ms i rl wt w0) as [[[? ?] ?] ->]
      end. done.
  - exfalso. revert Hsub. unfold batchSubmit, timeNow. simpl.
    destruct (LookupSenderSeed env) as [[acct seed]|e]; [|done].
    destruct (PrepareBatchPayments_cases env (World.walletState w) seed
                (BatchLocalArg.Payments arg) sched)
      as [[_ ->]|[_ (order & rs & ms & sp' & -> & _)]]; [done|].
    destruct (GetListener env); [done|].
    match goal with
    | |- context [submitLoop ?e ?a ?l ?i ?rl ?wt ?w0] =>
        destruct (submitLoop_no_nil e a ms i rl wt w0) as [[[? ?] ?] ->]
    end. done.
Qed.

(** ** The claims *)

(** C1 (as stated, refuted): Alice's payment is prepared, Bob does not
    resolve; Bob's prepare error has sequence number zero and sorts first,
    so the results come back as Bob, Alice. *)
Lemma C1_not_input_order :
  ∃ res w',
    Batch (Demo.env Demo.sender false) Demo.world
      (Demo.arg [Demo.pay "Alice" "5"; Demo.pay "Bob" "5"])
      Demo.inOrder [] = Ret (res, None, w') ∧
    BatchPaymentResult.Username <$> BatchResultLocal.Payments res
      = ["bob"; "alice"] ∧
    ¬ resultsInInputOrder (Demo.env Demo.sender false)
        (Demo.arg [Demo.pay "Alice" "5"; Demo.pay "Bob" "5"]) res.
Proof.
  do 2 eexists. split; [vm_compute; reflexivity|]. split; [reflexivity|].
  intros Hclaim.
  destruct (Hclaim 0%nat (Demo.pay "Alice" "5") eq_refl) as (r & Hr & Hu).
  injection Hr as <-. vm_compute in Hu. discriminate Hu.
Qed.

(** C1 (amended): the results of a batch that returns a result (with a
    nil error) are in submission order.  The i-th result carries the user name of the i-th entry of the
    prepared list, which is sorted by [Seqno]; the user names of the
    results are a rearrangement of those of the input payments, and there
    is one result per input payment. *)
Theorem C1_results_in_submission_order env w arg sched events res w' :
  Batch env w arg sched events = Ret (res, None, w') →
  ∃ senderAccountID senderSeed ms,
    LookupSenderSeed env = Ok (senderAccountID, senderSeed) ∧
    PreparedAs env (World.walletState w) senderSeed
      (BatchLocalArg.Payments arg) sched ms ∧
    BatchPaymentResult.Username <$> BatchResultLocal.Payments res
      = MiniPrepared.Username <$> ms ∧
    StronglySorted (leBy MiniPrepared.Seqno) ms ∧
    BatchPaymentResult.Username <$> BatchResultLocal.Payments res
      ≡ₚ usernameOf env <$> BatchLocalArg.Payments arg ∧
    length (BatchResultLocal.Payments res)
      = length (BatchLocalArg.Payments arg).
Proof.
  intros Hret.
  destruct (Batch_results _ _ _ _ _ _ _ Hret)
    as (acct & seed & ms & Hlook & Hprep & Hlen & Hres).
  destruct (PreparedAs_usernames _ _ _ _ _ _ Hprep) as (Hperm & Hlen' & _).
  assert (BatchPaymentResult.Username <$> BatchResultLocal.Payments res
          = MiniPrepared.Username <$> ms) as Heq.
  { apply fmap_eq_pointwise; [done|]. intros k m Hm.
    destruct (Hres k m Hm) as (r0 & r & (Hu0 & _) & Hr & (Hu & _)).
    exists r. split; [done|]. congruence. }
  exists acct, seed, ms. repeat split; [done..| | |congruence].
  - by destruct Hprep as (? & ? & ? & _ & _ & _ & _ & ?).
  - by rewrite Heq.
Qed.

(** The amended C1 on the batch of Alice and Bob. *)
Lemma C1_results_in_submission_order_witness :
  ∃ res w',
    Batch (Demo.env Demo.sender false) Demo.world
      (Demo.arg [Demo.pay "Alice" "5"; Demo.pay "Bob" "5"])
      Demo.inOrder [] = Ret (res, None, w') ∧
    ∃ senderAccountID senderSeed ms,
      LookupSenderSeed (Demo.env Demo.sender false)
        = Ok (senderAccountID, senderSeed) ∧
      PreparedAs (Demo.env Demo.sender false) (World.walletState Demo.world)
        senderSeed [Demo.pay "Alice" "5"; Demo.pay "Bob" "5"]
        Demo.inOrder ms ∧
      BatchPaymentResult.Username <$> BatchResultLocal.Payments res
        = MiniPrepared.Username <$> ms ∧
      StronglySorted (leBy MiniPrepared.Seqno) ms ∧
      BatchPaymentResult.Username <$> BatchResultLocal.Payments res
        ≡ₚ usernameOf (Demo.env Demo.sender false)
             <$> [Demo.pay "Alice" "5"; Demo.pay "Bob" "5"] ∧
      length (BatchResultLocal.Payments res) = 2%nat.
Proof.
  do 2 eexists. split; [vm_compute; reflexivity|].
  eapply (C1_results_in_submission_order (Demo.env Demo.sender false)
            Demo.world (Demo.arg [Demo.pay "Alice" "5"; Demo.pay "Bob" "5"])
            Demo.inOrder []).
  vm_compute; reflexivity.
Defined.

Lemma PrepareBatchPayments_returned env ws senderSeed payments sched l err ws' :
  PrepareBatchPayments env ws senderSeed payments sched = Ret (l, err, ws') →
  ∃ ms, l = Some <$> ms ∧ err = None ∧
        PreparedAs env ws senderSeed payments sched ms.
Proof.
  intros Hret.
  destruct (PrepareBatchPayments_cases env ws senderSeed payments sched)
    as [[_ Hp]|[_ (order & rs & ms & sp' & Heq & Hrest)]]; [congruence|].
  exists ms. rewrite Heq in Hret. injection Hret as <- <- <-.
  repeat split. by exists order, rs, sp'.
Qed.

(** C2 (as stated, refuted): in the batch of Alice and Bob the prepare
    error for Bob, with no sequence number assigned and [Seqno] left at
    zero, is placed before Alice's prepared payment. *)
Lemma C2_error_sorts_first :
  ∃ errBob okAlice ws',
    PrepareBatchPayments (Demo.env Demo.sender false)
      (World.walletState Demo.world) "SSEED"
      [Demo.pay "Alice" "5"; Demo.pay "Bob" "5"] Demo.inOrder
      = Ret ([Some errBob; Some okAlice], None, ws') ∧
    PrepareErr errBob ∧
    MiniPrepared.Error okAlice = None ∧
    MiniPrepared.Seqno okAlice = 101%N ∧
    ¬ errorsAfterOk [errBob; okAlice].
Proof.
  do 3 eexists. split; [vm_compute; reflexivity|].
  split; [by eexists|]. split; [reflexivity|]. split; [reflexivity|].
  intros Hclaim.
  specialize (Hclaim 0%nat 1%nat _ _ eq_refl eq_refl).
  assert (1 < 0)%nat; [|lia].
  apply Hclaim; [by eexists|reflexivity].
Qed.

(** C2 (amended): the list returned by [PrepareBatchPayments] is in
    ascending order of the [Seqno] field, so the Ok entries are in
    ascending seqno order; every PrepareErr entry has [Seqno] zero, and is
    therefore placed before every Ok entry whose seqno is positive. *)
Theorem C2_sorted_by_Seqno_errors_at_zero
    env ws senderSeed payments sched l err ws' :
  PrepareBatchPayments env ws senderSeed payments sched = Ret (l, err, ws') →
  ∃ ms, l = Some <$> ms ∧
    (∀ i j a b, ms !! i = Some a → ms !! j = Some b → (i < j)%nat →
       (MiniPrepared.Seqno a ≤ MiniPrepared.Seqno b)%N) ∧
    (∀ a, a ∈ ms → PrepareErr a → MiniPrepared.Seqno a = 0%N) ∧
    (∀ i j a b, ms !! i = Some a → ms !! j = Some b →
       PrepareErr a → MiniPrepared.Error b = None →
       (0 < MiniPrepared.Seqno b)%N → (i < j)%nat).
Proof.
  intros Hret.
  destruct (PrepareBatchPayments_returned _ _ _ _ _ _ _ _ Hret)
    as (ms & -> & _ & Hprep).
  destruct (PreparedAs_usernames _ _ _ _ _ _ Hprep) as (_ & _ & Hzero).
  destruct Hprep as (_ & _ & _ & _ & _ & _ & _ & Hsorted).
  rewrite Forall_forall in Hzero.
  assert (∀ i j a b, ms !! i = Some a → ms !! j = Some b → (i < j)%nat →
            (MiniPrepared.Seqno a ≤ MiniPrepared.Seqno b)%N) as Hle.
  { intros i j a b Ha Hb Hij.
    by eapply (StronglySorted_lookup_le MiniPrepared.Seqno ms i j). }
  exists ms. repeat split; [done..|].
  intros i j a b Ha Hb Herr Hok Hpos.
  destruct (decide (i < j)%nat) as [|Hge]; [done|].
  assert (MiniPrepared.Seqno a = 0%N) as Hza.
  { apply Hzero; [by eapply list_elem_of_lookup_2|done]. }
  destruct (decide (i = j)) as [->|Hne].
  - rewrite Ha in Hb. injection Hb as ->.
    destruct Herr as [e He]. congruence.
  - assert (MiniPrepared.Seqno b ≤ MiniPrepared.Seqno a)%N
      by (apply (Hle j i); [done..|lia]).
    lia.
Qed.

(** The amended C2 on the batch of Alice and Bob. *)
Lemma C2_sorted_by_Seqno_errors_at_zero_witness :
  ∃ l err ws',
    PrepareBatchPayments (Demo.env Demo.sender false)
      (World.walletState Demo.world) "SSEED"
      [Demo.pay "Alice" "5"; Demo.pay "Bob" "5"] Demo.inOrder
      = Ret (l, err, ws') ∧
    ∃ ms, l = Some <$> ms ∧
      (∀ i j a b, ms !! i = Some a → ms !! j = Some b → (i < j)%nat →
         (MiniPrepared.Seqno a ≤ MiniPrepared.Seqno b)%N) ∧
      (∀ a, a ∈ ms → PrepareErr a → MiniPrepared.Seqno a = 0%N) ∧
      (∀ i j a b, ms !! i = Some a → ms !! j = Some b →
         PrepareErr a → MiniPrepared.Error b = None →
         (0 < MiniPrepared.Seqno b)%N → (i < j)%nat).
Proof.
  do 3 eexists. split; [vm_compute; reflexivity|].
  eapply (C2_sorted_by_Seqno_errors_at_zero (Demo.env Demo.sender false)
            (World.walletState Demo.world) "SSEED"
            [Demo.pay "Alice" "5"; Demo.pay "Bob" "5"] Demo.inOrder).
  vm_compute; reflexivity.
Defined.

(** C3 (the code departs from the claim): Alice's payment completes after
    50 ms, Dave's is still pending when the deadline tick arrives.  The
    average over the terminal payments is 50; [calculateStats] adds the
    pending payment's [0 - StartTime] to the total and reports -990. *)
Lemma C3_average_includes_pending :
  ∃ res w',
    Batch (Demo.env Demo.sender true) Demo.world
      (Demo.arg [Demo.pay "Alice" "5"; Demo.pay "Dave" "5"]) Demo.inOrder
      [Update "tx:GALICE:5" PaymentStatus_COMPLETED; Tick true]
      = Ret (res, None, w') ∧
    BatchPaymentResult.Status <$> BatchResultLocal.Payments res
      = [PaymentStatus_COMPLETED; PaymentStatus_PENDING] ∧
    BatchResultLocal.AvgDurationMs res = -990 ∧
    avgDurationOfTerminal (BatchResultLocal.Payments res) = 50.
Proof.
  do 2 eexists. split; [vm_compute; reflexivity|].
  split; [reflexivity|]. split; vm_compute; reflexivity.
Qed.

(** C4: in the result of a batch that returns a result (with a nil
    error), the list has one entry per input payment, every payment is counted in exactly one of the three
    counters (COMPLETED in [countSuccess], PENDING in [countPending],
    anything else in [countError]), and the counters add up to the number
    of input payments. *)
Theorem C4_counters_partition env w arg sched events res w' :
  Batch env w arg sched events = Ret (res, None, w') →
  Z.of_nat (length (BatchLocalArg.Payments arg)) < 2 ^ 63 →
  length (BatchResultLocal.Payments res)
    = length (BatchLocalArg.Payments arg) ∧
  BatchResultLocal.CountSuccess res
    = Z.of_nat (length (completedOf (BatchResultLocal.Payments res))) ∧
  BatchResultLocal.CountPending res
    = Z.of_nat (length (pendingOf (BatchResultLocal.Payments res))) ∧
  BatchResultLocal.CountError res
    = Z.of_nat (length (failedOf (BatchResultLocal.Payments res))) ∧
  BatchResultLocal.CountSuccess res + BatchResultLocal.CountPending res
    + BatchResultLocal.CountError res
    = Z.of_nat (length (BatchLocalArg.Payments arg)).
Proof.
  intros Hret Hbound.
  assert (length (BatchResultLocal.Payments res)
          = length (BatchLocalArg.Payments arg)) as Hlen.
  { destruct (Batch_results _ _ _ _ _ _ _ Hret)
      as (acct & seed & ms & _ & Hprep & Hlen & _).
    destruct (PreparedAs_usernames _ _ _ _ _ _ Hprep) as (_ & Hlen' & _).
    congruence. }
  destruct (Batch_returned _ _ _ _ _ _ _ Hret)
    as (res0 & st0 & st' & res1 & Hsub & _ & Hp & Hp1 & Hs1 & Hq1 & He1
        & -> & -> & -> & _).
  destruct (batchSubmit_ready _ _ _ _ _ _ Hsub)
    as (_ & _ & _ & _ & _ & _ & _ & _ & Hs0 & Hq0 & He0).
  unfold calculateStats. cbn [BatchResultLocal.CountSuccess
    BatchResultLocal.CountPending BatchResultLocal.CountError].
  rewrite Hp1, <- Hp, Hs1, Hq1, He1, Hs0, Hq0, He0.
  pose proof (classes_length (BatchResultLocal.Payments res)) as Hclasses.
  destruct (statsStep_counts (BatchResultLocal.Payments res)
              (Stats.Build 0 0 0 0 0 0 0)) as (-> & -> & ->);
    cbn [Stats.CountSuccess Stats.CountPending Stats.CountError]; try lia.
Qed.

(** C4 on the batch of Alice and Dave. *)
Lemma C4_counters_partition_witness :
  ∃ res w',
    Batch (Demo.env Demo.sender true) Demo.world
      (Demo.arg [Demo.pay "Alice" "5"; Demo.pay "Dave" "5"]) Demo.inOrder
      [Update "tx:GALICE:5" PaymentStatus_COMPLETED; Tick true]
      = Ret (res, None, w') ∧
    2 < 2 ^ 63 ∧
    BatchResultLocal.CountSuccess res + BatchResultLocal.CountPending res
      + BatchResultLocal.CountError res = 2.
Proof.
  do 2 eexists. split; [vm_compute; reflexivity|]. split; [lia|].
  eapply (C4_counters_partition (Demo.env Demo.sender true) Demo.world
            (Demo.arg [Demo.pay "Alice" "5"; Demo.pay "Dave" "5"])
            Demo.inOrder
            [Update "tx:GALICE:5" PaymentStatus_COMPLETED; Tick true]).
  - vm_compute; reflexivity.
  - simpl. lia.
Defined.

(** C5 (as stated, refuted): Carol is paid through a relay; the listener
    reports her transaction as CLAIMABLE, the wait loop stores that status,
    and the returned result carries a status that is none of COMPLETED,
    PENDING and ERROR. *)
Lemma C5_status_outside_named :
  ∃ res w' r,
    Batch (Demo.env Demo.sender true) Demo.world
      (Demo.arg [Demo.pay "Carol" "5"]) Demo.inOrder
      [Update "tx:relay:5" PaymentStatus_CLAIMABLE] = Ret (res, None, w') ∧
    BatchResultLocal.Payments res !! 0%nat = Some r ∧
    BatchPaymentResult.Status r = PaymentStatus_CLAIMABLE ∧
    ¬ namedStatus (BatchPaymentResult.Status r).
Proof.
  do 3 eexists. split; [vm_compute; reflexivity|].
  split; [reflexivity|]. split; [reflexivity|].
  by intros [?|[?|?]].
Qed.

(** C5 (amended): in the result of a batch that returns a result (with a
    nil error), every payment's
    [statusDescription] is the label of its [status], and its [status] is
    COMPLETED, PENDING or ERROR, or else the non-pending status that a
    listener update delivered for its transaction id; when the updates
    carry only COMPLETED, PENDING and ERROR, so do the results. *)
Theorem C5_status_and_description env w arg sched events res w' :
  Batch env w arg sched events = Ret (res, None, w') →
  ∀ i r, BatchResultLocal.Payments res !! i = Some r →
    described env r ∧
    (namedStatus (BatchPaymentResult.Status r) ∨
     BatchPaymentResult.Status r ≠ PaymentStatus_PENDING ∧
     Update (BatchPaymentResult.TxID r) (BatchPaymentResult.Status r)
       ∈ events) ∧
    ((∀ tx s, Update tx s ∈ events → namedStatus s) →
     namedStatus (BatchPaymentResult.Status r)).
Proof.
  intros Hret i r Hr.
  destruct (Batch_results _ _ _ _ _ _ _ Hret)
    as (acct & seed & ms & _ & _ & Hlen & Hres).
  assert (is_Some (ms !! i)) as [m Hm].
  { apply lookup_lt_is_Some. rewrite <- Hlen. by eapply lookup_lt_Some. }
  destruct (Hres i m Hm)
    as (r0 & r' & (_ & Hd0 & Hn0 & _) & Hr' & (_ & Htx & Hcase)).
  rewrite Hr in Hr'. injection Hr' as <-.
  destruct Hcase as [->|(Hp & Hin & Hd)].
  { repeat split; [done|by left|done]. }
  rewrite <- Htx in Hin.
  repeat split; [done| |by eauto].
  destruct (BatchPaymentResult.Status r) eqn:Hs;
    first [ by left; unfold namedStatus; auto | by right ].
Qed.

(** The amended C5 on the payment to Carol. *)
Lemma C5_status_and_description_witness :
  ∃ res w' r,
    Batch (Demo.env Demo.sender true) Demo.world
      (Demo.arg [Demo.pay "Carol" "5"]) Demo.inOrder
      [Update "tx:relay:5" PaymentStatus_CLAIMABLE] = Ret (res, None, w') ∧
    BatchResultLocal.Payments res !! 0%nat = Some r ∧
    described (Demo.env Demo.sender true) r ∧
    (namedStatus (BatchPaymentResult.Status r) ∨
     BatchPaymentResult.Status r ≠ PaymentStatus_PENDING ∧
     Update (BatchPaymentResult.TxID r) (BatchPaymentResult.Status r)
       ∈ [Update "tx:relay:5" PaymentStatus_CLAIMABLE]) ∧
    ((∀ tx s, Update tx s ∈ [Update "tx:relay:5" PaymentStatus_CLAIMABLE] →
              namedStatus s) →
     namedStatus (BatchPaymentResult.Status r)).
Proof.
  eassert (Batch (Demo.env Demo.sender true) Demo.world
             (Demo.arg [Demo.pay "Carol" "5"]) Demo.inOrder
             [Update "tx:relay:5" PaymentStatus_CLAIMABLE]
           = Ret (_, None, _)) as Hret by (vm_compute; reflexivity).
  do 3 eexists. split; [exact Hret|]. split; [reflexivity|].
  exact (C5_status_and_description _ _ _ _ _ _ _ Hret 0%nat _ eq_refl).
Defined.

(** C6 (as stated, refuted): Carol's relay payment is pending after the
    submit loop; the update CLAIMABLE takes it from PENDING to CLAIMABLE,
    which is neither of the two transitions the claim allows. *)
Lemma C6_pending_to_claimable :
  ∃ res st st' r r',
    batchSubmit (Demo.env Demo.sender true) Demo.world
      (Demo.arg [Demo.pay "Carol" "5"]) Demo.inOrder = Ret (inr (res, st)) ∧
    waitGuard st = true ∧
    waitStep (Demo.env Demo.sender true) st
      (Update "tx:relay:5" PaymentStatus_CLAIMABLE) = Ret st' ∧
    WaitState.resultList st !! 0%nat = Some r ∧
    WaitState.resultList st' !! 0%nat = Some r' ∧
    BatchPaymentResult.Status r = PaymentStatus_PENDING ∧
    BatchPaymentResult.Status r' = PaymentStatus_CLAIMABLE ∧
    ¬ legalTransition (BatchPaymentResult.Status r)
        (BatchPaymentResult.Status r').
Proof.
  do 5 eexists. split; [vm_compute; reflexivity|].
  split; [reflexivity|]. split; [vm_compute; reflexivity|].
  split; [reflexivity|]. split; [reflexivity|].
  split; [reflexivity|]. split; [reflexivity|].
  by intros [?|[_ [?|?]]].
Qed.

(** C6 (amended): the submit loop gives every result one of the statuses
    COMPLETED, PENDING and ERROR; from there on, at every point of the
    wait loop, one more status update either leaves a result's status as
    it is or takes it from PENDING to the non-pending status the update
    carries for that result's transaction id (COMPLETED, ERROR, or
    whatever else the listener delivers), which is one of the two
    transitions PENDING to COMPLETED and PENDING to ERROR whenever the
    update carries one of the three named statuses; and a result that is
    not PENDING stays exactly as it is for the rest of the run, so it is
    never set back to PENDING. *)
Theorem C6_status_leaves_only_pending env w arg sched res st0 evs st :
  batchSubmit env w arg sched = Ret (inr (res, st0)) →
  waitRun env st0 evs st →
  (∀ i r, WaitState.resultList st0 !! i = Some r →
     namedStatus (BatchPaymentResult.Status r)) ∧
  (∀ ev st', waitGuard st = true → waitStep env st ev = Ret st' →
     ∀ i r, WaitState.resultList st !! i = Some r →
       ∃ r', WaitState.resultList st' !! i = Some r' ∧
         (BatchPaymentResult.Status r' = BatchPaymentResult.Status r ∨
          BatchPaymentResult.Status r = PaymentStatus_PENDING ∧
          BatchPaymentResult.Status r' ≠ PaymentStatus_PENDING ∧
          ev = Update (BatchPaymentResult.TxID r)
                 (BatchPaymentResult.Status r')) ∧
         ((∀ tx s, ev = Update tx s → namedStatus s) →
          legalTransition (BatchPaymentResult.Status r)
            (BatchPaymentResult.Status r'))) ∧
  (∀ evs' st', waitRun env st evs' st' →
     ∀ i r, WaitState.resultList st !! i = Some r →
       BatchPaymentResult.Status r ≠ PaymentStatus_PENDING →
       WaitState.resultList st' !! i = Some r).
Proof.
  intros Hsub Hrun.
  destruct (batchSubmit_ready _ _ _ _ _ _ Hsub)
    as (_ & _ & ms & _ & _ & Hlen0 & Hres0 & Hinv0 & _).
  destruct (waitRun_spec _ _ _ _ Hrun Hinv0) as (Hinv & _).
  split; [|split].
  - intros i r Hr.
    assert (is_Some (ms !! i)) as [m Hm].
    { apply lookup_lt_is_Some. rewrite <- Hlen0. by eapply lookup_lt_Some. }
    destruct (Hres0 i m Hm) as (r' & Hr' & _ & _ & Hnamed & _).
    congruence.
  - intros ev st' _ Hstep i r Hr.
    destruct (waitStep_spec env st ev Hinv) as (st1 & Hstep1 & _ & _ & _ & Hres).
    rewrite Hstep in Hstep1. injection Hstep1 as <-.
    destruct (Hres i r Hr) as (r' & Hr' & [->|(Hp & Hev & _)]).
    + exists r. split; [done|]. split; [by left|]. intros _. by left.
    + exists r'. split; [done|].
      destruct (decide (BatchPaymentResult.Status r' = PaymentStatus_PENDING))
        as [Heq|Hne].
      * split; [left; congruence|]. intros _. left. congruence.
      * split; [by right|]. intros Hnamed. right. split; [done|].
        destruct (Hnamed _ _ Hev) as [?|[?|?]]; [by left|done|by right].
  - intros evs' st' Hrun' i r Hr Hterm.
    destruct (waitRun_spec _ _ _ _ Hrun' Hinv) as (_ & _ & Hres).
    by destruct (Hres i r Hr) as (r' & Hr' & _ & _ & [->|[Hp _]]).
Qed.

(** The amended C6 on the payment to Carol. *)
Lemma C6_status_leaves_only_pending_witness :
  ∃ res st0 st' r,
    batchSubmit (Demo.env Demo.sender true) Demo.world
      (Demo.arg [Demo.pay "Carol" "5"]) Demo.inOrder = Ret (inr (res, st0)) ∧
    waitRun (Demo.env Demo.sender true) st0 [] st0 ∧
    waitStep (Demo.env Demo.sender true) st0
      (Update "tx:relay:5" PaymentStatus_COMPLETED) = Ret st' ∧
    WaitState.resultList st0 !! 0%nat = Some r ∧
    ∃ r', WaitState.resultList st' !! 0%nat = Some r' ∧
      (BatchPaymentResult.Status r' = BatchPaymentResult.Status r ∨
       BatchPaymentResult.Status r = PaymentStatus_PENDING ∧
       BatchPaymentResult.Status r' ≠ PaymentStatus_PENDING ∧
       Update "tx:relay:5" PaymentStatus_COMPLETED
         = Update (BatchPaymentResult.TxID r)
             (BatchPaymentResult.Status r')) ∧
      ((∀ tx s, Update "tx:relay:5" PaymentStatus_COMPLETED = Update tx s →
                namedStatus s) →
       legalTransition (BatchPaymentResult.Status r)
         (BatchPaymentResult.Status r')).
Proof.
  eassert (batchSubmit (Demo.env Demo.sender true) Demo.world
             (Demo.arg [Demo.pay "Carol" "5"]) Demo.inOrder
           = Ret (inr (_, _))) as Hsub by (vm_compute; reflexivity).
  match type of Hsub with
  | _ = Ret (inr (_, ?st0)) =>
      eassert (waitStep (Demo.env Demo.sender true) st0
                 (Update "tx:relay:5" PaymentStatus_COMPLETED) = Ret _)
        as Hstep by (vm_compute; reflexivity)
  end.
  do 4 eexists. split; [exact Hsub|]. split; [constructor|].
  split; [exact Hstep|]. split; [reflexivity|].
  exact (proj1 (proj2 (C6_status_leaves_only_pending _ _ _ _ _ _ _ _ Hsub
                         (waitRun_nil _ _)))
           _ _ eq_refl Hstep 0%nat _ eq_refl).
Defined.

(** ** Payments that fail in preparation *)

Lemma runPrepare_app env senderSeed l1 l2 : ∀ sp,
  runPrepare env sp senderSeed (l1 ++ l2) =
  match runPrepare env sp senderSeed l1 with
  | Ret (rs1, sp1) =>
      match runPrepare env sp1 senderSeed l2 with
      | Ret (rs2, sp2) => Ret (rs1 ++ rs2, sp2)
      | Panic why => Panic why
      | Blocked => Blocked
      end
  | Panic why => Panic why
  | Blocked => Blocked
  end.
Proof.
  induction l1 as [|p l1 IH]; intros sp; simpl.
  - by destruct (runPrepare env sp senderSeed l2) as [[rs2 sp2]| |].
  - destruct (prepareBatchPayment env sp senderSeed p) as [[r sp1]| |]; try done.
    rewrite IH.
    destruct (runPrepare env sp1 senderSeed l1) as [[rs1 sp2]| |]; try done.
    by destruct (runPrepare env sp2 senderSeed l2) as [[rs2 sp3]| |].
Qed.

Lemma runPrepare_length env senderSeed order : ∀ sp rs sp',
  runPrepare env sp senderSeed order = Ret (rs, sp') →
  length rs = length order.
Proof.
  induction order as [|p order IH]; intros sp rs sp'; simpl.
  - by intros [= <- _].
  - destruct (prepareBatchPayment env sp senderSeed p) as [[r sp1]| |]; try done.
    destruct (runPrepare env sp1 senderSeed order) as [[rs1 sp2]| |] eqn:Hrun;
      try done.
    intros [= <- _]. simpl. f_equal. by eapply IH.
Qed.

(** A payment whose preparation fails without touching the provider
    leaves the preparation of the other payments of the batch as it would
    be without it. *)
Lemma runPrepare_skip env senderSeed p e before after sp :
  (∀ sp, prepareBatchPayment env sp senderSeed p
         = Ret (Some (prepareErr env p e), sp)) →
  match runPrepare env sp senderSeed (before ++ after) with
  | Ret (rs, sp') =>
      runPrepare env sp senderSeed (before ++ p :: after) =
        Ret (take (length before) rs ++ Some (prepareErr env p e)
               :: drop (length before) rs, sp')
  | Panic why =>
      runPrepare env sp senderSeed (before ++ p :: after) = Panic why
  | Blocked =>
      runPrepare env sp senderSeed (before ++ p :: after) = Blocked
  end.
Proof.
  intros Hp. rewrite !runPrepare_app. simpl.
  destruct (runPrepare env sp senderSeed before) as [[rs1 sp1]| |] eqn:H1;
    try done.
  rewrite Hp.
  destruct (runPrepare env sp1 senderSeed after) as [[rs2 sp2]| |]; try done.
  apply runPrepare_length in H1. rewrite <- H1.
  by rewrite take_app_length, drop_app_length.
Qed.

(** A payment whose preparation fails with [e] shows in the result of the
    batch as an ERROR with that message. *)
Lemma Batch_reports_prepare_error env w arg sched events res w' p e :
  (∀ sp senderSeed, prepareBatchPayment env sp senderSeed p
                    = Ret (Some (prepareErr env p e), sp)) →
  p ∈ BatchLocalArg.Payments arg →
  Batch env w arg sched events = Ret (res, None, w') →
  ∃ i r, BatchResultLocal.Payments res !! i = Some r ∧
         BatchPaymentResult.Username r = usernameOf env p ∧
         BatchPaymentResult.Status r = PaymentStatus_ERROR ∧
         BatchPaymentResult.Error r = Some (BatchPaymentError.Build e).
Proof.
  intros Hp Hin Hret.
  destruct (Batch_results _ _ _ _ _ _ _ Hret)
    as (acct & seed & ms & _ & Hprep & _ & Hres).
  destruct Hprep as (order & rs & sp' & _ & Hperm & Hby & Hrs & _).
  rewrite <- Hperm in Hin. apply list_elem_of_lookup in Hin as [j Hj].
  destruct (Forall2_lookup_l _ _ _ _ _ Hby Hj) as (r & Hr & sp & sp1 & Hrun).
  rewrite Hp in Hrun. injection Hrun as <- _.
  apply list_elem_of_lookup_2 in Hr. rewrite <- Hrs in Hr.
  apply list_elem_of_fmap in Hr as (m & [= <-] & Hm).
  apply list_elem_of_lookup in Hm as [k Hk].
  destruct (Hres k _ Hk) as (r0 & r & (Hu0 & _ & _ & He0) & Hr & (_ & _ & Hcase)).
  destruct (He0 e eq_refl) as [Hs0 Herr0].
  exists k, r. split; [done|].
  destruct Hcase as [->|[Hpend _]]; [done|congruence].
Qed.

Lemma BelowMinimum_prepare env p msg :
  BelowMinimum env p msg →
  ∀ sp senderSeed,
    prepareBatchPayment env sp senderSeed p
    = Ret (Some (prepareErr env p msg), sp).
Proof.
  intros [recipient accountID Hlook Hacct Hfund Hmin
         |recipient Hlook Hacct Hmin] sp senderSeed;
    unfold prepareBatchPayment, prepareBatchPaymentDirect,
      prepareBatchPaymentRelay, minAmountCreateAccountXLM, minAmountRelayXLM;
    rewrite Hlook, Hacct.
  - by rewrite Hfund, Hmin.
  - by rewrite Hmin.
Qed.

(** C7: a payment below the minimum that applies to it (a direct payment
    of less than "1" to an account that is not funded, a relay payment of
    less than "2.01") is prepared as a PrepareErr with the message "you
    must send at least ... XLM to fund the account for ..."; the sequence
    provider is left as it was found; the other payments of the batch are
    prepared to the same entries, and leave the provider in the same
    state, as in the batch without this payment; and the batch reports the
    payment as an ERROR with that message. *)
Theorem C7_below_minimum env p msg :
  BelowMinimum env p msg →
  (∀ sp senderSeed,
     prepareBatchPayment env sp senderSeed p
     = Ret (Some (prepareErr env p msg), sp)) ∧
  MiniPrepared.Error (prepareErr env p msg) = Some msg ∧
  (∀ sp senderSeed before after,
     match runPrepare env sp senderSeed (before ++ after) with
     | Ret (rs, sp') =>
         runPrepare env sp senderSeed (before ++ p :: after) =
           Ret (take (length before) rs ++ Some (prepareErr env p msg)
                  :: drop (length before) rs, sp')
     | Panic why =>
         runPrepare env sp senderSeed (before ++ p :: after) = Panic why
     | Blocked =>
         runPrepare env sp senderSeed (before ++ p :: after) = Blocked
     end) ∧
  (∀ w arg sched events res w',
     p ∈ BatchLocalArg.Payments arg →
     Batch env w arg sched events = Ret (res, None, w') →
     ∃ i r, BatchResultLocal.Payments res !! i = Some r ∧
            BatchPaymentResult.Username r = usernameOf env p ∧
            BatchPaymentResult.Status r = PaymentStatus_ERROR ∧
            BatchPaymentResult.Error r = Some (BatchPaymentError.Build msg)).
Proof.
  intros Hbelow. pose proof (BelowMinimum_prepare env p msg Hbelow) as Hp.
  split; [done|]. split; [done|]. split.
  - intros sp senderSeed before after. by apply runPrepare_skip.
  - intros w arg sched events res w' Hin Hret.
    by eapply Batch_reports_prepare_error.
Qed.

(** C7 on a payment of 0.99 to Dave, whose account is not funded, and on a
    relay payment of 2.00 to Carol. *)
Lemma C7_below_minimum_witness :
  (BelowMinimum (Demo.env Demo.sender true) (Demo.pay "Dave" "0.99")
     "you must send at least 1 XLM to fund the account for Dave" ∧
   prepareBatchPayment (Demo.env Demo.sender true) 100%N "SSEED"
     (Demo.pay "Dave" "0.99")
   = Ret (Some (prepareErr (Demo.env Demo.sender true)
                  (Demo.pay "Dave" "0.99")
                  "you must send at least 1 XLM to fund the account for Dave"),
          100%N)) ∧
  (BelowMinimum (Demo.env Demo.sender true) (Demo.pay "Carol" "2.00")
     "you must send at least 2.01 XLM to fund the account for Carol" ∧
   prepareBatchPayment (Demo.env Demo.sender true) 100%N "SSEED"
     (Demo.pay "Carol" "2.00")
   = Ret (Some (prepareErr (Demo.env Demo.sender true)
                  (Demo.pay "Carol" "2.00")
                  "you must send at least 2.01 XLM to fund the account for Carol"),
          100%N)).
Proof.
  assert (BelowMinimum (Demo.env Demo.sender true) (Demo.pay "Dave" "0.99")
            "you must send at least 1 XLM to fund the account for Dave")
    as Hdave.
  { apply (below_create (Demo.env Demo.sender true) (Demo.pay "Dave" "0.99")
             (Recipient.Build "Dave" (Some (User.Build "uv-dave"))
                (Some "GDAVE")) "GDAVE"); reflexivity. }
  assert (BelowMinimum (Demo.env Demo.sender true) (Demo.pay "Carol" "2.00")
            "you must send at least 2.01 XLM to fund the account for Carol")
    as Hcarol.
  { apply (below_relay (Demo.env Demo.sender true) (Demo.pay "Carol" "2.00")
             (Recipient.Build "Carol" (Some (User.Build "uv-carol")) None));
      reflexivity. }
  split; (split; [assumption|]).
  - exact (proj1 (C7_below_minimum _ _ _ Hdave) 100%N "SSEED").
  - exact (proj1 (C7_below_minimum _ _ _ Hcarol) 100%N "SSEED").
Defined.

(** C8: a payment whose recipient does not resolve is prepared as a
    PrepareErr whose message is exactly "error looking up recipient",
    whatever the resolver's own error was; the sequence provider is left as
    it was found; and the batch reports the payment with status ERROR and
    that message. *)
Theorem C8_lookup_failure env p cause :
  LookupRecipient env (BatchPaymentArg.Recipient p) = Err cause →
  (∀ sp senderSeed,
     prepareBatchPayment env sp senderSeed p
     = Ret (Some (prepareErr env p "error looking up recipient"), sp)) ∧
  (∀ w arg sched events res w',
     p ∈ BatchLocalArg.Payments arg →
     Batch env w arg sched events = Ret (res, None, w') →
     ∃ i r, BatchResultLocal.Payments res !! i = Some r ∧
            BatchPaymentResult.Username r = usernameOf env p ∧
            BatchPaymentResult.Status r = PaymentStatus_ERROR ∧
            BatchPaymentResult.Error r
            = Some (BatchPaymentError.Build "error looking up recipient")).
Proof.
  intros Hlook.
  assert (∀ sp senderSeed,
            prepareBatchPayment env sp senderSeed p
            = Ret (Some (prepareErr env p "error looking up recipient"), sp))
    as Hp.
  { intros sp senderSeed. unfold prepareBatchPayment. by rewrite Hlook. }
  split; [done|].
  intros w arg sched events res w' Hin Hret.
  by eapply Batch_reports_prepare_error.
Qed.

(** C8 on a payment to Bob, who does not resolve. *)
Lemma C8_lookup_failure_witness :
  ∃ res w',
    LookupRecipient (Demo.env Demo.sender false) "Bob"
      = Err "no such user: Bob" ∧
    Batch (Demo.env Demo.sender false) Demo.world
      (Demo.arg [Demo.pay "Bob" "5"]) Demo.inOrder [] = Ret (res, None, w') ∧
    prepareBatchPayment (Demo.env Demo.sender false) 100%N "SSEED"
      (Demo.pay "Bob" "5")
    = Ret (Some (prepareErr (Demo.env Demo.sender false) (Demo.pay "Bob" "5")
                   "error looking up recipient"), 100%N) ∧
    ∃ i r, BatchResultLocal.Payments res !! i = Some r ∧
           BatchPaymentResult.Username r = "bob" ∧
           BatchPaymentResult.Status r = PaymentStatus_ERROR ∧
           BatchPaymentResult.Error r
           = Some (BatchPaymentError.Build "error looking up recipient").
Proof.
  eassert (Batch (Demo.env Demo.sender false) Demo.world
             (Demo.arg [Demo.pay "Bob" "5"]) Demo.inOrder []
           = Ret (_, None, _)) as Hret by (vm_compute; reflexivity).
  pose proof (C8_lookup_failure (Demo.env Demo.sender false)
                (Demo.pay "Bob" "5") "no such user: Bob" eq_refl)
    as [Hprep Hbatch].
  do 2 eexists. split; [reflexivity|]. split; [exact Hret|].
  split; [exact (Hprep 100%N "SSEED")|].
  refine (Hbatch _ _ _ _ _ _ _ Hret). left.
Defined.

(** C9: when the sender lookup fails, [Batch] returns that error with a
    result whose payments list is empty; the wallet state (sequence
    provider, pending transactions, submissions) and the chat
    notifications are as before the call. *)
Theorem C9_sender_lookup_failure env w arg sched events err :
  LookupSenderSeed env = Err err →
  ∃ res w',
    Batch env w arg sched events = Ret (res, Some err, w') ∧
    BatchResultLocal.Payments res = [] ∧
    World.walletState w' = World.walletState w ∧
    World.chats w' = World.chats w.
Proof.
  intros Hlook. unfold Batch, batchSubmit, timeNow. simpl. rewrite Hlook.
  unfold batchDeferred, timeNow. simpl.
  do 2 eexists. by repeat split.
Qed.

(** C9 on the batch of Alice and Bob, with a sender that is not found. *)
Lemma C9_sender_lookup_failure_witness :
  LookupSenderSeed (Demo.env (Err "not logged in") false)
    = Err "not logged in" ∧
  ∃ res w',
    Batch (Demo.env (Err "not logged in") false) Demo.world
      (Demo.arg [Demo.pay "Alice" "5"; Demo.pay "Bob" "5"]) Demo.inOrder []
    = Ret (res, Some "not logged in", w') ∧
    BatchResultLocal.Payments res = [] ∧
    World.walletState w' = World.walletState Demo.world ∧
    World.chats w' = World.chats Demo.world.
Proof.
  split; [reflexivity|].
  exact (C9_sender_lookup_failure (Demo.env (Err "not logged in") false)
           Demo.world
           (Demo.arg [Demo.pay "Alice" "5"; Demo.pay "Bob" "5"])
           Demo.inOrder [] "not logged in" eq_refl).
Defined.

(** C10: the code on a payment whose recipient resolves to an account
    without a user record.  [prepareBatchPaymentDirect] takes
    [&recipient.User.UV] unguarded (line 205) and panics, so neither
    [prepareBatchPayment] nor [PrepareBatchPayments] nor [Batch] returns,
    where the claim has [PrepareBatchPayments] return for every input
    list.  The same read is guarded at line 226 of the same function and
    at line 279 of [prepareBatchPaymentRelay]: run on a recipient without
    a user record, the relay path returns an entry whose post has no
    [To]. *)
Lemma C10_missing_user_panics :
  LookupRecipient (Demo.env Demo.sender false) "Erin"
    = Ok (Recipient.Build "Erin" None (Some "GERIN")) ∧
  prepareBatchPayment (Demo.env Demo.sender false) 100%N "SSEED"
    (Demo.pay "Erin" "5") = Panic nilUserPanic ∧
  PrepareBatchPayments (Demo.env Demo.sender false)
    (World.walletState Demo.world) "SSEED"
    [Demo.pay "Alice" "5"; Demo.pay "Erin" "5"] Demo.inOrder
    = Panic nilUserPanic ∧
  Batch (Demo.env Demo.sender false) Demo.world
    (Demo.arg [Demo.pay "Alice" "5"; Demo.pay "Erin" "5"]) Demo.inOrder
    [Tick true] = Panic nilUserPanic ∧
  ∃ m sp' post,
    prepareBatchPaymentRelay (Demo.env Demo.sender false) 100%N "SSEED"
      (Demo.pay "Erin" "5") (Recipient.Build "Erin" None None)
    = Ret (Some m, sp') ∧
    MiniPrepared.Error m = None ∧
    MiniPrepared.Relay m = Some post ∧
    PaymentRelayPost.To post = None.
Proof.
  split; [reflexivity|]. split; [by vm_compute|]. split; [by vm_compute|].
  split; [by vm_compute|].
  do 3 eexists. split; [vm_compute; reflexivity|].
  split; [reflexivity|]. split; reflexivity.
Qed.

(** * Further properties of batch.go *)

(** ** Statistics *)

Lemma wrap64_add_l a b : wrap64 (wrap64 a + b) = wrap64 (a + b).
Proof.
  unfold wrap64. f_equal.
  replace ((a + 2 ^ 63) mod 2 ^ 64 - 2 ^ 63 + b + 2 ^ 63)
    with ((a + 2 ^ 63) mod 2 ^ 64 + b) by lia.
  rewrite Zplus_mod_idemp_l. f_equal. lia.
Qed.

Lemma wrap64_add_r a b : wrap64 (a + wrap64 b) = wrap64 (a + b).
Proof. rewrite (Z.add_comm a), wrap64_add_l. f_equal. lia. Qed.

Lemma wrap64_idemp a : wrap64 (wrap64 a) = wrap64 a.
Proof.
  replace (wrap64 a) with (wrap64 a + 0) at 1 by lia.
  rewrite wrap64_add_l. f_equal. lia.
Qed.

(** X1: the three phase durations [calculateStats] reports add up, in
    64-bit arithmetic, to the overall duration it reports. *)
Theorem calculateStats_phases_add_up res :
  let out := calculateStats res in
  wrap64 (BatchResultLocal.PrepareDurationMs out
          + BatchResultLocal.SubmitDurationMs out
          + BatchResultLocal.WaitDurationMs out)
  = BatchResultLocal.OverallDurationMs out.
Proof.
  change (wrap64
            (wrap64 (BatchResultLocal.PreparedTime res
                     - BatchResultLocal.StartTime res)
             + wrap64 (BatchResultLocal.AllSubmittedTime res
                       - BatchResultLocal.PreparedTime res)
             + wrap64 (BatchResultLocal.EndTime res
                       - BatchResultLocal.AllSubmittedTime res))
          = wrap64 (BatchResultLocal.EndTime res
                    - BatchResultLocal.StartTime res)).
  set (a := BatchResultLocal.PreparedTime res - BatchResultLocal.StartTime res).
  set (b := BatchResultLocal.AllSubmittedTime res
            - BatchResultLocal.PreparedTime res).
  set (c := BatchResultLocal.EndTime res
            - BatchResultLocal.AllSubmittedTime res).
  rewrite (wrap64_add_r (wrap64 a + wrap64 b) c).
  replace (wrap64 a + wrap64 b + c) with (wrap64 a + (wrap64 b + c)) by lia.
  rewrite (wrap64_add_l a).
  replace (a + (wrap64 b + c)) with (wrap64 b + (a + c)) by lia.
  rewrite (wrap64_add_l b). subst a b c.
  f_equal. lia.
Qed.

Lemma statsStep_accumulators l : ∀ acc,
  wrap64 (Stats.durationTotal acc) = Stats.durationTotal acc →
  wrap64 (Stats.durationSuccess acc) = Stats.durationSuccess acc →
  wrap64 (Stats.durationError acc) = Stats.durationError acc →
  0 ≤ Stats.countDone acc →
  Stats.countDone acc + Z.of_nat (length l) < 2 ^ 63 →
  let acc' := fold_left statsStep l acc in
  Stats.durationTotal acc'
    = wrap64 (Stats.durationTotal acc + sumZ (duration <$> l)) ∧
  Stats.durationSuccess acc'
    = wrap64 (Stats.durationSuccess acc + sumZ (duration <$> completedOf l)) ∧
  Stats.durationError acc'
    = wrap64 (Stats.durationError acc + sumZ (duration <$> failedOf l)) ∧
  Stats.countDone acc'
    = Stats.countDone acc + Z.of_nat (length (completedOf l))
      + Z.of_nat (length (failedOf l)).
Proof.
  induction l as [|r l IH]; intros acc Ht Hs He Hc Hb.
  { unfold completedOf, pendingOf, failedOf, sumZ. simpl.
    rewrite !Z.add_0_r. repeat split; (done || lia). }
  rewrite length_cons in Hb. cbn [fold_left]. cbv zeta.
  assert (Stats.durationTotal (statsStep acc r)
            = wrap64 (Stats.durationTotal acc + duration r)) as Et.
  { unfold statsStep, duration.
    destruct (BatchPaymentResult.Status r); cbn [Stats.durationTotal];
      apply wrap64_add_r. }
  pose proof (classes_length l) as Hlen.
  destruct (classes_cons r l)
    as [(Hst & -> & _ & ->)|[(Hst & -> & _ & ->)|(Hc1 & Hc2 & -> & _ & ->)]].
  - (* COMPLETED *)
    assert (Stats.durationSuccess (statsStep acc r)
              = wrap64 (Stats.durationSuccess acc + duration r) ∧
            Stats.durationError (statsStep acc r) = Stats.durationError acc ∧
            Stats.countDone (statsStep acc r) = Stats.countDone acc + 1)
      as (Es & Ee & Ec).
    { unfold statsStep, duration. rewrite Hst.
      cbn [Stats.durationSuccess Stats.durationError Stats.countDone].
      split; [apply wrap64_add_r|]. split; [done|].
      apply wrap64_small. lia. }
    destruct (IH (statsStep acc r)) as (-> & -> & -> & ->).
    { by rewrite Et, wrap64_idemp. }
    { by rewrite Es, wrap64_idemp. }
    { by rewrite Ee. }
    { lia. }
    { lia. }
    rewrite Et, Es, Ee, Ec, !fmap_cons, length_cons. unfold sumZ. simpl.
    rewrite !wrap64_add_l.
    split; [f_equal; lia|]. split; [f_equal; lia|]. split; [f_equal; lia|lia].
  - (* PENDING *)
    assert (Stats.durationSuccess (statsStep acc r)
              = Stats.durationSuccess acc ∧
            Stats.durationError (statsStep acc r) = Stats.durationError acc ∧
            Stats.countDone (statsStep acc r) = Stats.countDone acc)
      as (Es & Ee & Ec).
    { unfold statsStep. by rewrite Hst. }
    destruct (IH (statsStep acc r)) as (-> & -> & -> & ->).
    { by rewrite Et, wrap64_idemp. }
    { by rewrite Es. }
    { by rewrite Ee. }
    { lia. }
    { lia. }
    rewrite Et, Es, Ee, Ec, !fmap_cons. unfold sumZ. simpl.
    rewrite !wrap64_add_l.
    split; [f_equal; lia|]. split; [f_equal; lia|]. split; [f_equal; lia|lia].
  - (* anything else *)
    assert (Stats.durationSuccess (statsStep acc r)
              = Stats.durationSuccess acc ∧
            Stats.durationError (statsStep acc r)
              = wrap64 (Stats.durationError acc + duration r) ∧
            Stats.countDone (statsStep acc r) = Stats.countDone acc + 1)
      as (Es & Ee & Ec).
    { unfold statsStep, duration.
      destruct (BatchPaymentResult.Status r); try done;
        cbn [Stats.durationSuccess Stats.durationError Stats.countDone];
        (split; [done|]; split; [apply wrap64_add_r|apply wrap64_small; lia]). }
    destruct (IH (statsStep acc r)) as (-> & -> & -> & ->).
    { by rewrite Et, wrap64_idemp. }
    { by rewrite Es. }
    { by rewrite Ee, wrap64_idemp. }
    { lia. }
    { lia. }
    rewrite Et, Es, Ee, Ec, !fmap_cons, length_cons. unfold sumZ. simpl.
    rewrite !wrap64_add_l.
    split; [f_equal; lia|]. split; [f_equal; lia|]. split; [f_equal; lia|lia].
Qed.

(** X2: what [calculateStats] reports as averages when it starts from
    counters at zero, as [Batch] calls it.  The average of the successes
    is the 64-bit total duration of the COMPLETED payments over their
    number, the average of the errors that of the payments that are
    neither COMPLETED nor PENDING over theirs, and the overall average the
    64-bit total duration of all payments, pending ones included, over the
    number of those that are not PENDING.  An average whose divisor is
    zero is left as it was. *)
Theorem calculateStats_averages res :
  BatchResultLocal.CountSuccess res = 0 →
  BatchResultLocal.CountPending res = 0 →
  BatchResultLocal.CountError res = 0 →
  Z.of_nat (length (BatchResultLocal.Payments res)) < 2 ^ 63 →
  let out := calculateStats res in
  let all := BatchResultLocal.Payments res in
  let nc := Z.of_nat (length (completedOf all)) in
  let nf := Z.of_nat (length (failedOf all)) in
  BatchResultLocal.AvgSuccessDurationMs out
    = (if 0 <? nc
       then div64 (wrap64 (sumZ (duration <$> completedOf all))) nc
       else BatchResultLocal.AvgSuccessDurationMs res) ∧
  BatchResultLocal.AvgErrorDurationMs out
    = (if 0 <? nf
       then div64 (wrap64 (sumZ (duration <$> failedOf all))) nf
       else BatchResultLocal.AvgErrorDurationMs res) ∧
  BatchResultLocal.AvgDurationMs out
    = (if 0 <? nc + nf
       then div64 (wrap64 (sumZ (duration <$> all))) (nc + nf)
       else BatchResultLocal.AvgDurationMs res).
Proof.
  intros Hs Hp He Hb. cbv zeta.
  pose proof (classes_length (BatchResultLocal.Payments res)) as Hlen.
  unfold calculateStats.
  cbn [BatchResultLocal.AvgSuccessDurationMs
       BatchResultLocal.AvgErrorDurationMs BatchResultLocal.AvgDurationMs].
  rewrite Hs, Hp, He.
  destruct (statsStep_counts (BatchResultLocal.Payments res)
              (Stats.Build 0 0 0 0 0 0 0)) as (-> & _ & ->);
    cbn [Stats.CountSuccess Stats.CountPending Stats.CountError]; try lia.
  destruct (statsStep_accumulators (BatchResultLocal.Payments res)
              (Stats.Build 0 0 0 0 0 0 0)) as (-> & -> & -> & ->);
    cbn [Stats.durationTotal Stats.durationSuccess Stats.durationError
         Stats.countDone]; try done; try lia.
Qed.

(** X2 on a list with one completed and one pending payment. *)
Lemma calculateStats_averages_witness :
  let res :=
    BatchResultLocal.withPayments BatchResultLocal.zero
      [BatchPaymentResult.withEndTime
         (BatchPaymentResult.withStatus
            (BatchPaymentResult.started "alice" 1020)
            PaymentStatus_COMPLETED) 1070;
       BatchPaymentResult.withStatus
         (BatchPaymentResult.started "dave" 1040) PaymentStatus_PENDING] in
  BatchResultLocal.AvgSuccessDurationMs (calculateStats res) = 50 ∧
  BatchResultLocal.AvgErrorDurationMs (calculateStats res) = 0 ∧
  BatchResultLocal.AvgDurationMs (calculateStats res) = -990.
Proof.
  cbv zeta.
  pose proof (calculateStats_averages
    (BatchResultLocal.withPayments BatchResultLocal.zero
      [BatchPaymentResult.withEndTime
         (BatchPaymentResult.withStatus
            (BatchPaymentResult.started "alice" 1020)
            PaymentStatus_COMPLETED) 1070;
       BatchPaymentResult.withStatus
         (BatchPaymentResult.started "dave" 1040) PaymentStatus_PENDING])
    eq_refl eq_refl eq_refl) as H.
  destruct H as (Hs & He & Ht); [simpl; lia|].
  rewrite Hs, He, Ht. vm_compute. done.
Defined.

(** ** Prepared entries *)

(** Every entry [PrepareBatchPayments] returns was prepared for one of the
    payments of the batch. *)
Lemma PreparedAs_origin env ws senderSeed payments sched ms m :
  PreparedAs env ws senderSeed payments sched ms → m ∈ ms →
  ∃ p, p ∈ payments ∧ preparedBy env senderSeed p (Some m).
Proof.
  intros (order & rs & sp' & _ & Hperm & Hby & Hrs & _) Hm.
  assert (Some m ∈ rs) as Hin by (rewrite <- Hrs; by apply list_elem_of_fmap_2).
  apply list_elem_of_lookup in Hin as [j Hj].
  destruct (Forall2_lookup_r _ _ _ _ _ Hby Hj) as (p & Hp & Hprep).
  exists p. split; [|done]. rewrite <- Hperm. by eapply list_elem_of_lookup_2.
Qed.

Lemma prepared_ok_one_post env senderSeed p m :
  preparedBy env senderSeed p (Some m) → MiniPrepared.Error m = None →
  ∃ recipient,
    LookupRecipient env (BatchPaymentArg.Recipient p) = Ok recipient ∧
    (is_Some (Recipient.AccountID recipient) ∧
     is_Some (MiniPrepared.Direct m) ∧ MiniPrepared.Relay m = None ∨
     Recipient.AccountID recipient = None ∧
     MiniPrepared.Direct m = None ∧ is_Some (MiniPrepared.Relay m)).
Proof.
  intros (sp & sp' & Hprep) Herr. revert Hprep.
  unfold prepareBatchPayment, prepareBatchPaymentDirect,
    prepareBatchPaymentRelay.
  repeat case_match; intros [= <- _]; simplify_eq/=;
    eexists; (split; [done|]); (by left; eauto) || (by right; eauto).
Qed.

(** X3: an entry that [PrepareBatchPayments] returns without error holds
    exactly one of a direct post and a relay post (the direct one when the
    recipient resolved to an account, the relay one otherwise), so
    [submitBatchTx] makes exactly one submit RPC for it and never takes
    its "no prepared direct or relay payment" branch. *)
Theorem prepared_entry_has_one_post
    env ws senderSeed payments sched l err ws' m :
  PrepareBatchPayments env ws senderSeed payments sched = Ret (l, err, ws') →
  Some m ∈ l → MiniPrepared.Error m = None →
  (is_Some (MiniPrepared.Direct m) ∧ MiniPrepared.Relay m = None ∨
   MiniPrepared.Direct m = None ∧ is_Some (MiniPrepared.Relay m)) ∧
  length (submissionOf m) = 1%nat.
Proof.
  intros Hret Hin Herr.
  destruct (PrepareBatchPayments_returned _ _ _ _ _ _ _ _ Hret)
    as (ms & -> & _ & Hprep).
  apply list_elem_of_fmap in Hin as (m' & [= <-] & Hm).
  destruct (PreparedAs_origin _ _ _ _ _ _ _ Hprep Hm) as (p & _ & Hby).
  destruct (prepared_ok_one_post _ _ _ _ Hby Herr)
    as (recipient & _ & [(_ & [d Hd] & Hr)|(_ & Hd & [r Hr])]);
    unfold submissionOf; rewrite Hd, Hr; eauto.
Qed.

(** X3 on the payment to Alice. *)
Lemma prepared_entry_has_one_post_witness :
  ∃ l ws' m,
    PrepareBatchPayments (Demo.env Demo.sender false)
      (World.walletState Demo.world) "SSEED" [Demo.pay "Alice" "5"]
      Demo.inOrder = Ret (l, None, ws') ∧
    Some m ∈ l ∧ MiniPrepared.Error m = None ∧
    length (submissionOf m) = 1%nat.
Proof.
  eassert (PrepareBatchPayments (Demo.env Demo.sender false)
             (World.walletState Demo.world) "SSEED" [Demo.pay "Alice" "5"]
             Demo.inOrder = Ret ([Some _], None, _)) as Hret
    by (vm_compute; reflexivity).
  do 3 eexists. split; [exact Hret|].
  assert (∀ (x : ptr MiniPrepared.t), x ∈ [x]) as Hin by (intros; left).
  split; [apply Hin|]. split; [reflexivity|].
  exact (proj2 (prepared_entry_has_one_post _ _ _ _ _ _ _ _ _ Hret
                  (Hin _) eq_refl)).
Defined.

(** X4: the note encryptor matters only to a direct payment with a message.
    A payment with an empty message, and a payment to a recipient without
    an account (a relay payment, whose note goes to [relays.Create]), are
    prepared to the same entry whatever the note encryptor does. *)
Theorem note_encryptor_only_for_direct_with_message env f sp senderSeed p :
  BatchPaymentArg.Message p = "" ∨
  (∀ recipient,
     LookupRecipient env (BatchPaymentArg.Recipient p) = Ok recipient →
     Recipient.AccountID recipient = None) →
  prepareBatchPayment (withNoteEncryptB64 env f) sp senderSeed p
  = prepareBatchPayment env sp senderSeed p.
Proof.
  intros Hcase. unfold prepareBatchPayment. simpl.
  destruct (LookupRecipient env (BatchPaymentArg.Recipient p))
    as [recipient|e] eqn:Hlook; [|done].
  destruct (Recipient.AccountID recipient) as [accountID|] eqn:Hacct;
    [|reflexivity].
  destruct Hcase as [Hmsg|Hrelay];
    [|specialize (Hrelay _ eq_refl); congruence].
  unfold prepareBatchPaymentDirect. simpl. rewrite Hacct, Hmsg. simpl.
  by repeat case_match.
Qed.

(** X4 on a payment to Alice without a message, and an encryptor that
    always fails. *)
Lemma note_encryptor_only_for_direct_with_message_witness :
  prepareBatchPayment
    (withNoteEncryptB64 (Demo.env Demo.sender false)
       (λ _ _, Err "no key")) 100%N "SSEED" (Demo.pay "Alice" "5")
  = prepareBatchPayment (Demo.env Demo.sender false) 100%N "SSEED"
      (Demo.pay "Alice" "5").
Proof.
  apply (note_encryptor_only_for_direct_with_message
           (Demo.env Demo.sender false) (λ _ _, Err "no key") 100%N "SSEED"
           (Demo.pay "Alice" "5")).
  left. reflexivity.
Defined.

(** X5: when the note of a direct payment cannot be encrypted, the payment
    has been signed already.  The entry is a PrepareErr "error encrypting
    note: ..." that carries neither the sequence number nor the
    transaction id of the signed transaction, while the sequence provider
    stays as the signer left it. *)
Theorem note_failure_after_signing
    env sp senderSeed p recipient accountID user funded signResult sp' e :
  LookupRecipient env (BatchPaymentArg.Recipient p) = Ok recipient →
  Recipient.AccountID recipient = Some accountID →
  Recipient.User recipient = Some user →
  isAccountFunded env accountID = Ok funded →
  negb funded &&
    isAmountLessThanMin env (BatchPaymentArg.Amount p)
      minAmountCreateAccountXLM = false →
  (if funded
   then PaymentXLMTransaction env senderSeed accountID
          (BatchPaymentArg.Amount p) sp
   else CreateAccountXLMTransaction env senderSeed accountID
          (BatchPaymentArg.Amount p) sp) = (Ok signResult, sp') →
  BatchPaymentArg.Message p ≠ "" →
  NoteEncryptB64 env
    {| NoteContents.Note := BatchPaymentArg.Message p;
       NoteContents.StellarID := SignResult.TxHash signResult |}
    (Some (User.UV user)) = Err e →
  ∃ m,
    prepareBatchPayment env sp senderSeed p = Ret (Some m, sp') ∧
    MiniPrepared.Error m = Some ("error encrypting note: " +:+ e) ∧
    MiniPrepared.Seqno m = 0%N ∧
    MiniPrepared.TxID m = "".
Proof.
  intros Hlook Hacct Huser Hfund Hmin Hsign Hmsg Henc.
  unfold prepareBatchPayment, prepareBatchPaymentDirect.
  rewrite Hlook, Hacct, Hfund, Hmin, Huser, Hsign.
  destruct (BatchPaymentArg.Message p) as [|c msg] eqn:Hm; [done|].
  simpl. rewrite Henc. by eexists.
Qed.

(** X5 on a payment to Alice with a message, and an encryptor that always
    fails: slot 101 is taken and lost. *)
Lemma note_failure_after_signing_witness :
  ∃ m,
    prepareBatchPayment
      (withNoteEncryptB64 (Demo.env Demo.sender false)
         (λ _ _, Err "no key")) 100%N "SSEED"
      (BatchPaymentArg.Build "Alice" "5" "thanks")
    = Ret (Some m, 101%N) ∧
    MiniPrepared.Error m = Some "error encrypting note: no key" ∧
    MiniPrepared.Seqno m = 0%N ∧
    MiniPrepared.TxID m = "".
Proof.
  refine (note_failure_after_signing
            (withNoteEncryptB64 (Demo.env Demo.sender false)
               (λ _ _, Err "no key")) 100%N "SSEED"
            (BatchPaymentArg.Build "Alice" "5" "thanks")
            (Recipient.Build "Alice" (Some (User.Build "uv-alice"))
               (Some "GALICE"))
            "GALICE" (User.Build "uv-alice") true
            (SignResult.Build 101%N "tx:GALICE:5" "tx:GALICE:5") 101%N
            "no key" eq_refl eq_refl eq_refl eq_refl eq_refl eq_refl _ eq_refl).
  discriminate.
Defined.

Lemma PrepareBatchPayments_inv env ws senderSeed payments sched l err ws' :
  PrepareBatchPayments env ws senderSeed payments sched = Ret (l, err, ws') →
  ∃ ms0 sp' ms,
    runPrepare env (WalletState.seqno ws) senderSeed
      (arrange (exec_order sched) payments) = Ret (Some <$> ms0, sp') ∧
    l = Some <$> ms ∧ err = None ∧ ws' = WalletState.withSeqno ws sp' ∧
    ms ≡ₚ ms0 ∧ StronglySorted (leBy MiniPrepared.Seqno) ms.
Proof.
  unfold PrepareBatchPayments.
  destruct (runPrepare_cases env (WalletState.seqno ws) senderSeed
              (arrange (exec_order sched) payments))
    as [[_ ->]|[_ (rs & sp' & -> & Hrs)]]; [done|].
  destruct (Forall2_preparedFor_Some env
              (arrange (exec_order sched) payments) rs) as (ms0 & -> & _ & _).
  { eapply Forall2_impl; [exact Hrs|]. apply preparedBy_preparedFor. }
  rewrite arrange_fmap.
  destruct (sortBySeqno_spec (arrange (recv_order sched) ms0))
    as (ms & -> & Hperm & Hsorted).
  intros [= <- <- <-]. exists ms0, sp', ms.
  do 4 (split; [done|]). split; [|done].
  by rewrite Hperm, arrange_Permutation.
Qed.

(** X6: the order in which the prepared entries arrive on the channel does
    not show in what [PrepareBatchPayments] returns, as far as the sort
    can tell them apart.  For the same run of the goroutines, two arrival
    orders give the same wallet state and lists with the same sequence
    numbers at the same positions; they give the same list when no two
    entries share a sequence number. *)
Theorem arrival_order_irrelevant
    env ws senderSeed payments exec recv1 recv2 l1 err1 ws1 l2 err2 ws2 :
  PrepareBatchPayments env ws senderSeed payments (BuildSchedule exec recv1)
    = Ret (l1, err1, ws1) →
  PrepareBatchPayments env ws senderSeed payments (BuildSchedule exec recv2)
    = Ret (l2, err2, ws2) →
  ws1 = ws2 ∧
  ∃ ms1 ms2,
    l1 = Some <$> ms1 ∧ l2 = Some <$> ms2 ∧ ms1 ≡ₚ ms2 ∧
    MiniPrepared.Seqno <$> ms1 = MiniPrepared.Seqno <$> ms2 ∧
    ((∀ a b, a ∈ ms1 → b ∈ ms1 →
        MiniPrepared.Seqno a = MiniPrepared.Seqno b → a = b) →
     l1 = l2).
Proof.
  intros H1 H2.
  destruct (PrepareBatchPayments_inv _ _ _ _ _ _ _ _ H1)
    as (ms0 & sp1 & ms1 & Hrun1 & -> & _ & -> & Hp1 & Hs1).
  destruct (PrepareBatchPayments_inv _ _ _ _ _ _ _ _ H2)
    as (ms0' & sp2 & ms2 & Hrun2 & -> & _ & -> & Hp2 & Hs2).
  simpl in Hrun1, Hrun2. rewrite Hrun1 in Hrun2.
  injection Hrun2 as Hms <-. apply (inj (fmap Some)) in Hms as <-.
  assert (ms1 ≡ₚ ms2) as Hperm by (by rewrite Hp1, Hp2).
  split; [done|]. exists ms1, ms2. repeat split; [done|..].
  - apply (StronglySorted_unique N.le).
    + eapply StronglySorted_fmap; [|exact Hs1]. by unfold leBy.
    + eapply StronglySorted_fmap; [|exact Hs2]. by unfold leBy.
    + by rewrite Hperm.
  - intros Hdistinct. f_equal.
    apply (StronglySorted_unique_strong (leBy MiniPrepared.Seqno));
      [|done..].
    intros a b Ha Hb Hab Hba. apply Hdistinct; [done|by rewrite Hperm|].
    unfold leBy in *. lia.
Qed.

(** X6 on the batch of Alice and Dave, received in input order and in
    reverse. *)
Lemma arrival_order_irrelevant_witness :
  ∃ l1 l2 ws1 ws2,
    PrepareBatchPayments (Demo.env Demo.sender false)
      (World.walletState Demo.world) "SSEED"
      [Demo.pay "Alice" "5"; Demo.pay "Dave" "5"] (BuildSchedule [] [])
      = Ret (l1, None, ws1) ∧
    PrepareBatchPayments (Demo.env Demo.sender false)
      (World.walletState Demo.world) "SSEED"
      [Demo.pay "Alice" "5"; Demo.pay "Dave" "5"] (BuildSchedule [] [1%nat])
      = Ret (l2, None, ws2) ∧
    ws1 = ws2.
Proof.
  eassert (PrepareBatchPayments (Demo.env Demo.sender false)
             (World.walletState Demo.world) "SSEED"
             [Demo.pay "Alice" "5"; Demo.pay "Dave" "5"] (BuildSchedule [] [])
           = Ret (_, None, _)) as H1 by (vm_compute; reflexivity).
  eassert (PrepareBatchPayments (Demo.env Demo.sender false)
             (World.walletState Demo.world) "SSEED"
             [Demo.pay "Alice" "5"; Demo.pay "Dave" "5"]
             (BuildSchedule [] [1%nat])
           = Ret (_, None, _)) as H2 by (vm_compute; reflexivity).
  do 4 eexists. split; [exact H1|]. split; [exact H2|].
  exact (proj1 (arrival_order_irrelevant _ _ _ _ _ _ _ _ _ _ _ _ _ H1 H2)).
Defined.

(** ** What the submit loop does to the world *)

Lemma submitOne_world env senderAccountID i m waiting w :
  let w1 := (submitOne env senderAccountID i m waiting w).2 in
  let ws := World.walletState w in
  let ws1 := World.walletState w1 in
  (World.clock w < World.clock w1)%nat ∧
  World.chats w1 = World.chats w ∧
  WalletState.seqno ws1 = WalletState.seqno ws ∧
  WalletState.pendingTxs ws1
    = WalletState.pendingTxs ws
      ++ (registered senderAccountID <$> okEntries [m]) ∧
  WalletState.submitted ws1
    = WalletState.submitted ws ++ (okEntries [m] ≫= submissionOf).
Proof.
  unfold submitOne, submitBatchTx, makeResultError, timeNow, AddPendingTx,
    logSubmission, withWalletState, submissionOf, registered, okEntries.
  rewrite filter_cons, filter_nil.
  destruct (MiniPrepared.Error m) as [e|] eqn:He.
  - rewrite decide_False by done. simpl.
    rewrite !app_nil_r. repeat split; lia.
  - rewrite decide_True by done. simpl.
    destruct (MiniPrepared.Direct m) as [d|], (MiniPrepared.Relay m) as [r|];
      simpl; repeat case_match; simplify_eq/=;
      rewrite ?app_nil_r; repeat split; lia.
Qed.

Lemma submitOne_entry env senderAccountID i m waiting w :
  let out := submitOne env senderAccountID i m waiting w in
  let bp := out.1.1 in
  BatchPaymentResult.StartTime bp = now env (World.clock w) ∧
  (BatchPaymentResult.Status bp = PaymentStatus_PENDING →
   BatchPaymentResult.EndTime bp = 0 ∧ BatchPaymentResult.Error bp = None) ∧
  (is_Some (BatchPaymentResult.Error bp) →
   BatchPaymentResult.Status bp = PaymentStatus_ERROR) ∧
  (BatchPaymentResult.Status bp ≠ PaymentStatus_PENDING →
   ∃ k, BatchPaymentResult.EndTime bp = now env k ∧
        (World.clock w < k < World.clock out.2)%nat) ∧
  (size out.1.2 ≤ S (size waiting))%nat.
Proof.
  unfold submitOne, submitBatchTx, makeResultError, timeNow, AddPendingTx,
    logSubmission, withWalletState.
  destruct (MiniPrepared.Error m) as [e|] eqn:He; simpl.
  { repeat split; try done; try lia.
    intros _. exists (S (World.clock w)). split; [done|lia]. }
  assert (∀ tx, size (<[tx:=i]> waiting) ≤ S (size waiting))%nat as Hsize.
  { intros tx. rewrite map_size_insert. destruct (waiting !! tx); simpl; lia. }
  destruct (MiniPrepared.Direct m) as [d|], (MiniPrepared.Relay m) as [r|];
    simpl; repeat case_match; simplify_eq/=;
    (split; [done|]); (split; [by intros|]); (split; [by intros [? ?]|]);
    (split; [|by (apply Hsize || lia)]);
    intros Hne; try done;
    exists (S (S (World.clock w))); (split; [done|lia]).
Qed.

Lemma okEntries_cons m ms : okEntries (m :: ms) = okEntries [m] ++ okEntries ms.
Proof. unfold okEntries. by rewrite <- filter_app. Qed.

Lemma submitLoop_world env senderAccountID ms :
  ∀ i resultList waiting w resultList' waiting' w',
  submitLoop env senderAccountID (Some <$> ms) i resultList waiting w
    = inr (resultList', waiting', w') →
  (World.clock w + length ms ≤ World.clock w')%nat ∧
  World.chats w' = World.chats w ∧
  WalletState.seqno (World.walletState w')
    = WalletState.seqno (World.walletState w) ∧
  WalletState.pendingTxs (World.walletState w')
    = WalletState.pendingTxs (World.walletState w)
      ++ (registered senderAccountID <$> okEntries ms) ∧
  WalletState.submitted (World.walletState w')
    = WalletState.submitted (World.walletState w)
      ++ (okEntries ms ≫= submissionOf) ∧
  (size waiting' ≤ size waiting + length ms)%nat.
Proof.
  induction ms as [|m ms IH]; intros i rl waiting w rl' waiting' w'.
  - simpl. intros [= <- <- <-]. unfold okEntries. simpl.
    rewrite !app_nil_r. repeat split; lia.
  - rewrite fmap_cons. simpl.
    pose proof (submitOne_world env senderAccountID i m waiting w)
      as (Hc & Hch & Hsq & Hpt & Hsb).
    pose proof (submitOne_entry env senderAccountID i m waiting w)
      as (_ & _ & _ & _ & Hsz).
    destruct (submitOne env senderAccountID i m waiting w) as [[bp wt1] w1].
    simpl in *. intros Hloop.
    destruct (IH _ _ _ _ _ _ _ Hloop) as (Hc' & Hch' & Hsq' & Hpt' & Hsb' & Hsz').
    rewrite okEntries_cons, fmap_app, bind_app.
    rewrite Hpt', Hsb', Hpt, Hsb, !app_assoc.
    repeat split; [lia|congruence|congruence|lia].
Qed.

Lemma submitLoop_entries env senderAccountID ms :
  ∀ i resultList waiting w resultList' waiting' w',
  length resultList = (i + length ms)%nat →
  submitLoop env senderAccountID (Some <$> ms) i resultList waiting w
    = inr (resultList', waiting', w') →
  (∀ j, (j < i)%nat → resultList' !! j = resultList !! j) ∧
  ∀ k m, ms !! k = Some m →
    ∃ waiting0 w0,
      resultList' !! (i + k)%nat
        = Some (submitOne env senderAccountID (i + k) m waiting0 w0).1.1 ∧
      (World.clock w ≤ World.clock w0)%nat ∧
      (World.clock (submitOne env senderAccountID (i + k) m waiting0 w0).2
       ≤ World.clock w')%nat.
Proof.
  induction ms as [|m ms IH]; intros i rl waiting w rl' waiting' w' Hlen.
  - simpl. intros [= <- <- <-]. split; [done|]. by intros k m Hk.
  - rewrite fmap_cons. simpl. simpl in Hlen.
    pose proof (submitOne_world env senderAccountID i m waiting w) as (Hc & _).
    destruct (submitOne env senderAccountID i m waiting w)
      as [[bp wt1] w1] eqn:Hone.
    simpl in Hc. intros Hloop.
    pose proof (submitLoop_world _ _ _ _ _ _ _ _ _ _ Hloop) as (Hc' & _).
    destruct (IH (S i) (<[i:=bp]> rl) wt1 w1 rl' waiting' w') as [Hpre Hres];
      [rewrite length_insert; lia|done|].
    split.
    + intros j Hj. rewrite Hpre by lia. by rewrite list_lookup_insert_ne by lia.
    + intros [|k] m' Hm'; simpl in Hm'.
      * injection Hm' as <-. exists waiting, w.
        rewrite Nat.add_0_r, Hone, Hpre by lia.
        rewrite list_lookup_insert_eq by lia. simpl. split; [done|]. lia.
      * destruct (Hres k m' Hm') as (wt0 & w0 & Hr & Hc0 & Hc1).
        exists wt0, w0.
        replace (i + S k)%nat with (S i + k)%nat by lia.
        split; [done|]. split; lia.
Qed.

(** ** What the wait loop does *)

(** One turn of the wait loop either changes no result, or applies a
    status update to the one result its transaction id is filed under. *)
Lemma waitStep_cases env st ev st' :
  waitStep env st ev = Ret st' →
  World.walletState (WaitState.world st')
    = World.walletState (WaitState.world st) ∧
  (WaitState.resultList st' = WaitState.resultList st ∧
   WaitState.waiting st' = WaitState.waiting st ∧
   WaitState.waitingCount st' = WaitState.waitingCount st ∧
   WaitState.world st' = WaitState.world st ∧
   (∀ tx s, ev = Update tx s → WaitState.waiting st !! tx = None) ∨
   ∃ tx s k r,
     ev = Update tx s ∧ WaitState.waiting st !! tx = Some k ∧
     WaitState.resultList st !! k = Some r ∧
     WaitState.resultList st'
       = <[k := applyUpdate env (WaitState.world st) s r]>
           (WaitState.resultList st) ∧
     WaitState.waiting st'
       = (if decide (s ≠ PaymentStatus_PENDING)
          then delete tx (WaitState.waiting st) else WaitState.waiting st) ∧
     WaitState.waitingCount st'
       = (if decide (s ≠ PaymentStatus_PENDING)
          then wrap64 (WaitState.waitingCount st - 1)
          else WaitState.waitingCount st) ∧
     WaitState.timedOut st' = WaitState.timedOut st ∧
     World.chats (WaitState.world st')
       = World.chats (WaitState.world st)
         ++ (if decide (s = PaymentStatus_COMPLETED)
             then [(BatchPaymentResult.Username r, tx)] else []) ∧
     World.clock (WaitState.world st')
       = (if decide (s ≠ PaymentStatus_PENDING)
          then S (World.clock (WaitState.world st))
          else World.clock (WaitState.world st))).
Proof.
  destruct ev as [expired|tx s]; simpl.
  { intros [= <-]. simpl. split; [done|]. left. by repeat split. }
  destruct (WaitState.waiting st !! tx) as [k|] eqn:Hk.
  2: { intros [= <-]. split; [done|]. left. repeat split; try done.
       by intros ?? [= <- <-]. }
  destruct (WaitState.resultList st !! k) as [r|] eqn:Hr; [|done].
  unfold applyUpdate, timeNow.
  destruct (decide (s ≠ PaymentStatus_PENDING)) as [Hs|Hs];
    destruct (decide (s = PaymentStatus_COMPLETED)) as [Hc|Hc];
    simpl; intros [= <-]; simpl; (split; [done|]); right;
    exists tx, s, k, r; repeat split; try done;
    repeat case_decide; simplify_eq; rewrite ?app_nil_r; done.
Qed.

Lemma waitStep_world env st ev st' :
  waitStep env st ev = Ret st' →
  World.walletState (WaitState.world st')
    = World.walletState (WaitState.world st) ∧
  (World.clock (WaitState.world st) ≤ World.clock (WaitState.world st'))%nat.
Proof.
  intros Hstep. destruct (waitStep_cases _ _ _ _ Hstep)
    as (Hws & [(_ & _ & _ & -> & _)|(tx & s & k & r & _ & _ & _ & _ & _ & _ & _ & _ & Hc)]).
  - done.
  - split; [done|]. rewrite Hc. case_decide; lia.
Qed.

Lemma waitRun_world env st evs st' :
  waitRun env st evs st' →
  World.walletState (WaitState.world st')
    = World.walletState (WaitState.world st) ∧
  (World.clock (WaitState.world st) ≤ World.clock (WaitState.world st'))%nat.
Proof.
  induction 1 as [st|st ev st1 evs st' _ Hstep _ [IHws IHc]]; [done|].
  destruct (waitStep_world _ _ _ _ Hstep) as [Hws Hc].
  split; [congruence|lia].
Qed.

(** An invariant of the results that may depend on how far the clock has
    been read is kept by the wait loop if it survives the passing of time
    and a status update of a pending result. *)
Lemma waitRun_Forall env (P : nat → BatchPaymentResult.t → Prop) :
  (∀ c c' r, (c ≤ c')%nat → P c r → P c' r) →
  (∀ w s r,
     P (World.clock w) r →
     BatchPaymentResult.Status r = PaymentStatus_PENDING →
     P (if decide (s ≠ PaymentStatus_PENDING)
        then S (World.clock w) else World.clock w)
       (applyUpdate env w s r)) →
  ∀ st evs st',
    waitRun env st evs st' →
    WaitingInv (WaitState.resultList st) (WaitState.waiting st) →
    Forall (P (World.clock (WaitState.world st))) (WaitState.resultList st) →
    Forall (P (World.clock (WaitState.world st'))) (WaitState.resultList st').
Proof.
  intros Hmono Hupd st evs st'.
  induction 1 as [st|st ev st1 evs st' _ Hstep _ IH]; intros Hinv Hall; [done|].
  destruct (waitStep_spec env st ev Hinv) as (st1' & Hstep' & Hinv1 & _).
  rewrite Hstep in Hstep'. injection Hstep' as <-.
  apply IH; [done|].
  destruct (waitStep_cases _ _ _ _ Hstep)
    as (_ & [(-> & _ & _ & -> & _)
            |(tx & s & k & r & _ & Hk & Hr & -> & _ & _ & _ & _ & ->)]);
    [done|].
  destruct (Hinv tx k Hk) as (r0 & Hr0 & Hpend & _).
  rewrite Hr in Hr0. injection Hr0 as <-.
  rewrite Forall_lookup in Hall. apply Forall_lookup. intros j x Hj.
  destruct (decide (j = k)) as [->|Hne].
  - rewrite list_lookup_insert_eq in Hj by (by eapply lookup_lt_Some).
    injection Hj as <-. apply Hupd; [by eapply Hall|done].
  - rewrite list_lookup_insert_ne in Hj by done.
    eapply Hmono; [|by eapply Hall]. case_decide; lia.
Qed.

(** ** The course of a call that returns a result *)

Lemma Batch_success_shape env w arg sched events res w' :
  Batch env w arg sched events = Ret (res, None, w') →
  ∃ senderAccountID senderSeed ms sp' rl0 waiting0 w2 st',
    LookupSenderSeed env = Ok (senderAccountID, senderSeed) ∧
    GetListener env = None ∧
    PreparedAs env (World.walletState w) senderSeed
      (BatchLocalArg.Payments arg) sched ms ∧
    PrepareBatchPayments env (World.walletState w) senderSeed
      (BatchLocalArg.Payments arg) sched
      = Ret (Some <$> ms, None,
             WalletState.withSeqno (World.walletState w) sp') ∧
    submitLoop env senderAccountID (Some <$> ms) 0
      (replicate (length ms) BatchPaymentResult.zero) ∅
      (World.Build (S (S (World.clock w)))
         (WalletState.withSeqno (World.walletState w) sp') (World.chats w))
      = inr (rl0, waiting0, w2) ∧
    waitLoop env
      (WaitState.Build rl0 waiting0 (Z.of_nat (size waiting0)) false
         (World.Build (S (World.clock w2)) (World.walletState w2)
            (World.chats w2)))
      events = Ret st' ∧
    let res1 :=
      BatchResultLocal.withEndTime
        (BatchResultLocal.withPayments
           (BatchResultLocal.withAllSubmittedTime
              (BatchResultLocal.withPreparedTime
                 (BatchResultLocal.withStartTime BatchResultLocal.zero
                    (now env (World.clock w)))
                 (now env (S (World.clock w))))
              (now env (World.clock w2)))
           (WaitState.resultList st'))
        (now env (World.clock (WaitState.world st'))) in
    World.walletState w' = World.walletState (WaitState.world st') ∧
    World.chats w' = World.chats (WaitState.world st') ∧
    (res = calculateStats res1 ∨
     now env (World.clock (WaitState.world st')) = 0 ∧
     res = BatchResultLocal.withEndTime (calculateStats res1)
             (now env (S (World.clock (WaitState.world st'))))).
Proof.
  unfold Batch, batchSubmit, timeNow. simpl.
  destruct (LookupSenderSeed env) as [[acct seed]|e]; [|done].
  destruct (PrepareBatchPayments_cases env (World.walletState w) seed
              (BatchLocalArg.Payments arg) sched)
    as [[_ ->]|[_ (order & rs & ms & sp' & Hprep & Hrest)]]; [done|].
  rewrite Hprep.
  destruct (GetListener env) as [e|]; [done|].
  rewrite length_fmap.
  destruct (submitLoop env acct (Some <$> ms) 0
              (replicate (length ms) BatchPaymentResult.zero) ∅ _)
    as [[e w1]|[[rl0 waiting0] w2]] eqn:Hloop; [done|].
  destruct (waitLoop env _ events) as [st'| |] eqn:Hwait; [|done..].
  unfold batchFinish, batchDeferred, timeNow. simpl.
  intros Hret. exists acct, seed, ms, sp', rl0, waiting0, w2, st'.
  do 2 (split; [done|]). split; [by exists order, rs, sp'|].
  do 3 (split; [done|]).
  case_match eqn:Hz; injection Hret as <- <-; simpl.
  - split; [done|]. split; [done|]. right. split; [|done].
    by apply Z.eqb_eq in Hz.
  - split; [done|]. split; [done|]. by left.
Qed.

Lemma waitStep_count env st ev st' :
  waitStep env st ev = Ret st' →
  WaitState.waitingCount st = Z.of_nat (size (WaitState.waiting st)) →
  Z.of_nat (size (WaitState.waiting st)) < 2 ^ 63 →
  WaitState.waitingCount st' = Z.of_nat (size (WaitState.waiting st')) ∧
  (size (WaitState.waiting st') ≤ size (WaitState.waiting st))%nat ∧
  (WaitState.timedOut st' = true →
   WaitState.timedOut st = true ∨ ev = Tick true).
Proof.
  intros Hstep Hcnt Hb.
  destruct (waitStep_cases _ _ _ _ Hstep)
    as (_ & [(_ & -> & -> & _ & _)
            |(tx & s & k & r & -> & Hk & _ & _ & -> & -> & -> & _)]).
  - split; [done|]. split; [done|]. intros Ht.
    destruct ev as [[]|]; simpl in Hstep; [by right|..];
      left; revert Hstep; repeat case_match; intros [= <-]; by simpl in *.
  - case_decide; [|by auto].
    assert (size (WaitState.waiting st) ≠ 0)%nat as Hpos.
    { apply map_size_non_empty_iff. intros Hempty.
      by rewrite Hempty, lookup_empty in Hk. }
    rewrite map_size_delete_Some by done.
    rewrite wrap64_small by lia. split; [lia|]. split; [lia|]. by left.
Qed.

Lemma waitRun_count env st evs st' :
  waitRun env st evs st' →
  WaitState.waitingCount st = Z.of_nat (size (WaitState.waiting st)) →
  Z.of_nat (size (WaitState.waiting st)) < 2 ^ 63 →
  WaitState.waitingCount st' = Z.of_nat (size (WaitState.waiting st')) ∧
  (WaitState.timedOut st' = true →
   WaitState.timedOut st = true ∨ Tick true ∈ evs).
Proof.
  induction 1 as [st|st ev st1 evs st' _ Hstep _ IH]; intros Hcnt Hb;
    [by auto|].
  destruct (waitStep_count _ _ _ _ Hstep Hcnt Hb) as (Hcnt1 & Hle & Ht1).
  destruct IH as [Hcnt' Ht']; [done|lia|]. split; [done|].
  intros Ht. destruct (Ht' Ht) as [Ht1'|Hin].
  - destruct (Ht1 Ht1') as [? | ->]; [by left|right; left].
  - right. by right.
Qed.

Lemma batchSubmit_waiting env w arg sched res st :
  batchSubmit env w arg sched = Ret (inr (res, st)) →
  WaitState.waitingCount st = Z.of_nat (size (WaitState.waiting st)) ∧
  WaitState.timedOut st = false ∧
  (size (WaitState.waiting st) ≤ length (BatchLocalArg.Payments arg))%nat.
Proof.
  unfold batchSubmit, timeNow. simpl.
  destruct (LookupSenderSeed env) as [[acct seed]|e]; [|done].
  destruct (PrepareBatchPayments_cases env (World.walletState w) seed
              (BatchLocalArg.Payments arg) sched)
    as [[_ ->]|[_ (order & rs & ms & sp' & Hprep & Hrest)]]; [done|].
  rewrite Hprep.
  assert (PreparedAs env (World.walletState w) seed
            (BatchLocalArg.Payments arg) sched ms) as Has
    by (by exists order, rs, sp').
  destruct (PreparedAs_usernames _ _ _ _ _ _ Has) as (_ & Hlen & _).
  destruct (GetListener env) as [e|]; [done|].
  destruct (submitLoop env acct (Some <$> ms) 0 _ ∅ _)
    as [[e w1]|[[rl0 waiting0] w2]] eqn:Hloop; [done|].
  pose proof (submitLoop_world _ _ _ _ _ _ _ _ _ _ Hloop)
    as (_ & _ & _ & _ & _ & Hsize).
  rewrite map_size_empty in Hsize.
  intros [= <- <-]. simpl. repeat split; try done; lia.
Qed.

(** X7: the counter of the wait loop and its waiting set stay in step:
    at every turn [waitingCount] is the number of transactions waited
    for.  So when the loop ends, the deadline tick has been seen or no
    transaction is waited for any more; without a deadline tick among the
    events, [Batch] returns only with an empty waiting set. *)
Theorem waitingCount_is_size env w arg sched res st0 events st' :
  batchSubmit env w arg sched = Ret (inr (res, st0)) →
  Z.of_nat (length (BatchLocalArg.Payments arg)) < 2 ^ 63 →
  waitLoop env st0 events = Ret st' →
  WaitState.waitingCount st' = Z.of_nat (size (WaitState.waiting st')) ∧
  (WaitState.timedOut st' = true ∧ Tick true ∈ events ∨
   WaitState.timedOut st' = false ∧ WaitState.waiting st' = ∅).
Proof.
  intros Hsub Hb Hloop.
  destruct (batchSubmit_waiting _ _ _ _ _ _ Hsub) as (Hcnt & Ht0 & Hsize).
  destruct (waitLoop_run _ _ _ _ Hloop) as (used & rest & -> & Hrun & Hguard).
  destruct (waitRun_count _ _ _ _ Hrun Hcnt) as [Hcnt' Ht']; [lia|].
  split; [done|].
  destruct (WaitState.timedOut st') eqn:Ht.
  - left. split; [done|]. destruct (Ht' eq_refl) as [?|Hin]; [congruence|].
    apply elem_of_app. by left.
  - right. split; [done|]. apply map_size_empty_iff.
    unfold waitGuard in Hguard. rewrite Ht, andb_true_r in Hguard.
    apply Z.ltb_ge in Hguard. lia.
Qed.

(** X7 on the batch of Alice and Dave, with the update for Alice and then
    the deadline. *)
Lemma waitingCount_is_size_witness :
  ∃ res st0 st',
    batchSubmit (Demo.env Demo.sender true) Demo.world
      (Demo.arg [Demo.pay "Alice" "5"; Demo.pay "Dave" "5"]) Demo.inOrder
      = Ret (inr (res, st0)) ∧
    2 < 2 ^ 63 ∧
    waitLoop (Demo.env Demo.sender true) st0
      [Update "tx:GALICE:5" PaymentStatus_COMPLETED; Tick true] = Ret st' ∧
    WaitState.waitingCount st' = Z.of_nat (size (WaitState.waiting st')).
Proof.
  eassert (batchSubmit (Demo.env Demo.sender true) Demo.world
             (Demo.arg [Demo.pay "Alice" "5"; Demo.pay "Dave" "5"])
             Demo.inOrder = Ret (inr (_, _))) as Hsub
    by (vm_compute; reflexivity).
  match type of Hsub with
  | _ = Ret (inr (_, ?st0)) =>
      eassert (waitLoop (Demo.env Demo.sender true) st0
                 [Update "tx:GALICE:5" PaymentStatus_COMPLETED; Tick true]
               = Ret _) as Hloop by (vm_compute; reflexivity)
  end.
  assert (2 < 2 ^ 63) as Hb by lia.
  do 3 eexists. split; [exact Hsub|]. split; [exact Hb|].
  split; [exact Hloop|].
  exact (proj1 (waitingCount_is_size _ _ _ _ _ _ _ _ Hsub Hb Hloop)).
Defined.

Lemma StronglySorted_filter {A : Type} (R : relation A) (P : A → Prop)
    `{∀ x, Decision (P x)} (l : list A) :
  StronglySorted R l → StronglySorted R (filter P l).
Proof.
  induction 1 as [|x l Hs IH Hx]; [constructor|].
  rewrite filter_cons. case_decide; [|done].
  constructor; [done|]. rewrite Forall_forall in Hx. apply Forall_forall.
  intros y Hy. apply list_elem_of_filter in Hy as [_ Hy]. by apply Hx.
Qed.

Lemma bind_length_singletons {A B : Type} (f : A → list B) (l : list A) :
  (∀ x, x ∈ l → length (f x) = 1%nat) → length (l ≫= f) = length l.
Proof.
  induction l as [|x l IH]; intros Hone; [done|].
  rewrite bind_cons, length_app, IH, Hone; [done|by left|].
  intros y Hy. apply Hone. by right.
Qed.

(** X8: a call of [Batch] that returns a result has filed with the wallet
    ([AddPendingTx]) and sent to the gateway exactly the prepared entries
    that carry no error, each once and in the order of the prepared list,
    which is the ascending order of their sequence numbers; no PrepareErr
    entry is filed or submitted. *)
Theorem submissions_in_seqno_order env w arg sched events res w' :
  Batch env w arg sched events = Ret (res, None, w') →
  ∃ senderAccountID senderSeed ms,
    LookupSenderSeed env = Ok (senderAccountID, senderSeed) ∧
    PreparedAs env (World.walletState w) senderSeed
      (BatchLocalArg.Payments arg) sched ms ∧
    WalletState.pendingTxs (World.walletState w')
      = WalletState.pendingTxs (World.walletState w)
        ++ (registered senderAccountID <$> okEntries ms) ∧
    WalletState.submitted (World.walletState w')
      = WalletState.submitted (World.walletState w)
        ++ (okEntries ms ≫= submissionOf) ∧
    length (okEntries ms ≫= submissionOf) = length (okEntries ms) ∧
    StronglySorted N.le (MiniPrepared.Seqno <$> okEntries ms).
Proof.
  intros Hret.
  destruct (Batch_success_shape _ _ _ _ _ _ _ Hret)
    as (acct & seed & ms & sp' & rl0 & waiting0 & w2 & st' & Hlook & _
        & Hprep & _ & Hloop & Hwait & Hws & _).
  pose proof (submitLoop_world _ _ _ _ _ _ _ _ _ _ Hloop)
    as (_ & _ & _ & Hpt & Hsb & _).
  destruct (waitLoop_run _ _ _ _ Hwait) as (used & rest & _ & Hrun & _).
  destruct (waitRun_world _ _ _ _ Hrun) as [Hws' _]. simpl in Hws', Hpt, Hsb.
  exists acct, seed, ms. split; [done|]. split; [done|].
  rewrite Hws, Hws'. split; [done|]. split; [done|]. split.
  - apply bind_length_singletons. intros m Hm.
    apply list_elem_of_filter in Hm as [Herr Hm].
    destruct (PreparedAs_origin _ _ _ _ _ _ _ Hprep Hm) as (p & _ & Hby).
    destruct (prepared_ok_one_post _ _ _ _ Hby Herr)
      as (recipient & _ & [(_ & [d Hd] & Hr)|(_ & Hd & [r Hr])]);
      unfold submissionOf; rewrite Hd; try rewrite Hr; done.
  - destruct Hprep as (_ & _ & _ & _ & _ & _ & _ & Hsorted).
    eapply StronglySorted_fmap; [|by apply StronglySorted_filter].
    by unfold leBy.
Qed.

(** X8 on the batch of Alice, Bob (who does not resolve) and Dave. *)
Lemma submissions_in_seqno_order_witness :
  ∃ res w',
    Batch (Demo.env Demo.sender false) Demo.world
      (Demo.arg [Demo.pay "Alice" "5"; Demo.pay "Bob" "5";
                 Demo.pay "Dave" "5"]) Demo.inOrder []
    = Ret (res, None, w') ∧
    ∃ senderAccountID senderSeed ms,
      LookupSenderSeed (Demo.env Demo.sender false)
        = Ok (senderAccountID, senderSeed) ∧
      PreparedAs (Demo.env Demo.sender false) (World.walletState Demo.world)
        senderSeed
        [Demo.pay "Alice" "5"; Demo.pay "Bob" "5"; Demo.pay "Dave" "5"]
        Demo.inOrder ms ∧
      WalletState.pendingTxs (World.walletState w')
        = [] ++ (registered senderAccountID <$> okEntries ms) ∧
      WalletState.submitted (World.walletState w')
        = [] ++ (okEntries ms ≫= submissionOf) ∧
      length (okEntries ms ≫= submissionOf) = length (okEntries ms) ∧
      StronglySorted N.le (MiniPrepared.Seqno <$> okEntries ms).
Proof.
  eassert (Batch (Demo.env Demo.sender false) Demo.world
             (Demo.arg [Demo.pay "Alice" "5"; Demo.pay "Bob" "5";
                        Demo.pay "Dave" "5"]) Demo.inOrder []
           = Ret (_, None, _)) as Hret by (vm_compute; reflexivity).
  do 2 eexists. split; [exact Hret|].
  exact (submissions_in_seqno_order _ _ _ _ _ _ _ Hret).
Defined.

Lemma submitLoop_from_start env senderAccountID ms w rl0 waiting0 w2 :
  submitLoop env senderAccountID (Some <$> ms) 0
    (replicate (length ms) BatchPaymentResult.zero) ∅ w
    = inr (rl0, waiting0, w2) →
  length rl0 = length ms ∧ WaitingInv rl0 waiting0 ∧
  Forall (λ r, ∃ i m waiting1 w0,
            r = (submitOne env senderAccountID i m waiting1 w0).1.1 ∧
            (World.clock w ≤ World.clock w0)%nat ∧
            (World.clock (submitOne env senderAccountID i m waiting1 w0).2
             ≤ World.clock w2)%nat) rl0.
Proof.
  intros Hloop.
  destruct (submitLoop_spec env senderAccountID ms 0
              (replicate (length ms) BatchPaymentResult.zero) ∅ w)
    as (rl' & wt' & w' & Hloop' & Hlen & _ & _ & Hinv);
    [by rewrite length_replicate|done|].
  rewrite Hloop in Hloop'. injection Hloop' as <- <- <-.
  rewrite length_replicate in Hlen.
  destruct (submitLoop_entries _ _ _ _ _ _ _ _ _ _
              (length_replicate _ _) Hloop) as [_ Hres].
  split; [done|]. split; [done|].
  apply Forall_lookup. intros j r Hj.
  assert (is_Some (ms !! j)) as [m Hm].
  { apply lookup_lt_is_Some. rewrite <- Hlen. by eapply lookup_lt_Some. }
  destruct (Hres j m Hm) as (wt0 & w0 & Hr & Hc0 & Hc1). simpl in Hr.
  rewrite Hj in Hr. injection Hr as ->. by exists j, m, wt0, w0.
Qed.

Lemma applyUpdate_consistent env w s r :
  consistentResult r →
  BatchPaymentResult.Status r = PaymentStatus_PENDING →
  consistentResult (applyUpdate env w s r).
Proof.
  intros [Hp _] Hpend. destruct (Hp Hpend) as [Hend Herr].
  unfold consistentResult, applyUpdate. case_decide as Hs; simpl.
  - split; [done|]. rewrite Herr. by intros [? ?].
  - split; [done|]. rewrite Herr. by intros [? ?].
Qed.

(** X9: in the result of a call of [Batch] that returns one, a payment
    that is still PENDING has no end time and no error, and a payment that
    carries an error has status ERROR.  (A payment that the listener
    reported as ERROR has that status and no error message.) *)
Theorem results_are_consistent env w arg sched events res w' :
  Batch env w arg sched events = Ret (res, None, w') →
  Forall consistentResult (BatchResultLocal.Payments res).
Proof.
  intros Hret.
  destruct (Batch_success_shape _ _ _ _ _ _ _ Hret)
    as (acct & seed & ms & sp' & rl0 & waiting0 & w2 & st' & _ & _ & _ & _
        & Hloop & Hwait & _ & _ & Hres).
  destruct (submitLoop_from_start _ _ _ _ _ _ _ Hloop) as (_ & Hinv & Hall).
  destruct (waitLoop_run _ _ _ _ Hwait) as (used & rest & _ & Hrun & _).
  assert (Forall consistentResult (WaitState.resultList st')) as Hfinal.
  { apply (waitRun_Forall env (λ _, consistentResult)) in Hrun;
      [done|done|by intros; apply applyUpdate_consistent|done|].
    simpl. eapply Forall_impl; [exact Hall|].
    intros r (i & m & wt0 & w0 & -> & _).
    destruct (submitOne_entry env acct i m wt0 w0) as (_ & Hp & He & _).
    by split. }
  by destruct Hres as [->|[_ ->]].
Qed.

Lemma applyUpdate_timed env c0 c1 w s r :
  (c1 ≤ World.clock w)%nat →
  timedWithin env c0 c1 (World.clock w) r →
  BatchPaymentResult.Status r = PaymentStatus_PENDING →
  timedWithin env c0 c1
    (if decide (s ≠ PaymentStatus_PENDING)
     then S (World.clock w) else World.clock w)
    (applyUpdate env w s r).
Proof.
  intros Hc1 (ks & Hstart & Hks & _) Hpend.
  unfold applyUpdate. case_decide as Hs; exists ks; simpl.
  - split; [done|]. split; [done|]. intros _.
    exists (World.clock w). split; [done|lia].
  - split; [done|]. split; [done|]. by intros ?.
Qed.

(** X10: with a clock that never runs backwards, the time stamps of a
    result that [Batch] returns are in the order in which the code takes
    them: start, prepared, all submitted, end; every payment starts
    between prepared and all submitted, and a payment that is not pending
    ends between its own start and the end of the batch. *)
Theorem timestamps_in_order env w arg sched events res w' :
  monotoneClock env →
  Batch env w arg sched events = Ret (res, None, w') →
  BatchResultLocal.StartTime res ≤ BatchResultLocal.PreparedTime res ∧
  BatchResultLocal.PreparedTime res ≤ BatchResultLocal.AllSubmittedTime res ∧
  BatchResultLocal.AllSubmittedTime res ≤ BatchResultLocal.EndTime res ∧
  ∀ i r, BatchResultLocal.Payments res !! i = Some r →
    BatchResultLocal.PreparedTime res ≤ BatchPaymentResult.StartTime r ∧
    BatchPaymentResult.StartTime r ≤ BatchResultLocal.AllSubmittedTime res ∧
    (BatchPaymentResult.Status r ≠ PaymentStatus_PENDING →
     BatchPaymentResult.StartTime r ≤ BatchPaymentResult.EndTime r ∧
     BatchPaymentResult.EndTime r ≤ BatchResultLocal.EndTime res).
Proof.
  intros Hmono Hret.
  destruct (Batch_success_shape _ _ _ _ _ _ _ Hret)
    as (acct & seed & ms & sp' & rl0 & waiting0 & w2 & st' & _ & _ & _ & _
        & Hloop & Hwait & _ & _ & Hres).
  destruct (submitLoop_from_start _ _ _ _ _ _ _ Hloop) as (_ & Hinv & Hall).
  pose proof (submitLoop_world _ _ _ _ _ _ _ _ _ _ Hloop) as (Hc2 & _).
  simpl in Hc2.
  destruct (waitLoop_run _ _ _ _ Hwait) as (used & rest & _ & Hrun & _).
  destruct (waitRun_world _ _ _ _ Hrun) as [_ Hc']. simpl in Hc'.
  set (c0 := S (S (World.clock w))) in *.
  set (c1 := S (World.clock w2)) in *.
  assert (Forall (timedWithin env c0 c1 (World.clock (WaitState.world st')))
            (WaitState.resultList st')) as Hfinal.
  { assert (∀ st evs st'', waitRun env st evs st'' →
              (c1 ≤ World.clock (WaitState.world st))%nat →
              WaitingInv (WaitState.resultList st) (WaitState.waiting st) →
              Forall (timedWithin env c0 c1 (World.clock (WaitState.world st)))
                (WaitState.resultList st) →
              Forall (timedWithin env c0 c1
                        (World.clock (WaitState.world st'')))
                (WaitState.resultList st'')) as Hgen.
    { intros st evs st'' Hrun' Hge Hinv' Hall'.
      apply (waitRun_Forall env
               (λ c r, (c1 ≤ c)%nat ∧ timedWithin env c0 c1 c r)) in Hrun'.
      - eapply Forall_impl; [exact Hrun'|]. by intros r [_ ?].
      - intros c c' r Hcc [Hge' (ks & Hs & Hks & He)]. split; [lia|].
        exists ks. split; [done|]. split; [done|].
        intros Hne. destruct (He Hne) as (ke & Hke & Hb).
        exists ke. split; [done|lia].
      - intros w0 s r [Hge' Ht] Hp. split; [case_decide; lia|].
        by apply applyUpdate_timed.
      - done.
      - eapply Forall_impl; [exact Hall'|]. by intros r ?. }
    apply (Hgen _ _ _ Hrun); [simpl; lia|done|]. simpl.
    eapply Forall_impl; [exact Hall|].
    intros r (i & m & wt0 & w0 & -> & Hlo & Hhi).
    destruct (submitOne_entry env acct i m wt0 w0) as (Hs & _ & _ & He & _).
    pose proof (submitOne_world env acct i m wt0 w0) as (Hlt & _).
    simpl in Hlt, Hlo.
    exists (World.clock w0). split; [done|]. split; [lia|].
    intros Hne. destruct (He Hne) as (ke & Hke & Hb).
    exists ke. split; [done|lia]. }
  assert (BatchResultLocal.StartTime res = now env (World.clock w) ∧
          BatchResultLocal.PreparedTime res = now env (S (World.clock w)) ∧
          BatchResultLocal.AllSubmittedTime res = now env (World.clock w2) ∧
          BatchResultLocal.Payments res = WaitState.resultList st' ∧
          ∃ kf, BatchResultLocal.EndTime res = now env kf ∧
                (World.clock (WaitState.world st') ≤ kf)%nat)
    as (-> & -> & -> & -> & kf & -> & Hkf).
  { destruct Hres as [->|[_ ->]]; simpl; repeat split; eauto. }
  split; [apply Hmono; lia|]. split; [apply Hmono; lia|].
  split; [apply Hmono; lia|].
  intros i r Hr. rewrite Forall_lookup in Hfinal.
  destruct (Hfinal i r Hr) as (ks & -> & Hks & He).
  split; [apply Hmono; lia|]. split; [apply Hmono; lia|].
  intros Hne. destruct (He Hne) as (ke & -> & Hke).
  split; apply Hmono; lia.
Qed.

(** X9 on the batch of Alice and Dave, with Dave pending at the deadline. *)
Lemma results_are_consistent_witness :
  ∃ res w',
    Batch (Demo.env Demo.sender true) Demo.world
      (Demo.arg [Demo.pay "Alice" "5"; Demo.pay "Dave" "5"]) Demo.inOrder
      [Update "tx:GALICE:5" PaymentStatus_COMPLETED; Tick true]
    = Ret (res, None, w') ∧
    Forall consistentResult (BatchResultLocal.Payments res).
Proof.
  eassert (Batch (Demo.env Demo.sender true) Demo.world
             (Demo.arg [Demo.pay "Alice" "5"; Demo.pay "Dave" "5"])
             Demo.inOrder
             [Update "tx:GALICE:5" PaymentStatus_COMPLETED; Tick true]
           = Ret (_, None, _)) as Hret by (vm_compute; reflexivity).
  do 2 eexists. split; [exact Hret|].
  exact (results_are_consistent _ _ _ _ _ _ _ Hret).
Defined.

(** X10 on the same run; the demonstration clock advances by ten
    milliseconds per reading. *)
Lemma timestamps_in_order_witness :
  ∃ res w',
    monotoneClock (Demo.env Demo.sender true) ∧
    Batch (Demo.env Demo.sender true) Demo.world
      (Demo.arg [Demo.pay "Alice" "5"; Demo.pay "Dave" "5"]) Demo.inOrder
      [Update "tx:GALICE:5" PaymentStatus_COMPLETED; Tick true]
    = Ret (res, None, w') ∧
    BatchResultLocal.StartTime res ≤ BatchResultLocal.PreparedTime res ∧
    BatchResultLocal.PreparedTime res
      ≤ BatchResultLocal.AllSubmittedTime res ∧
    BatchResultLocal.AllSubmittedTime res ≤ BatchResultLocal.EndTime res.
Proof.
  assert (monotoneClock (Demo.env Demo.sender true)) as Hmono.
  { intros i j Hij. simpl. lia. }
  eassert (Batch (Demo.env Demo.sender true) Demo.world
             (Demo.arg [Demo.pay "Alice" "5"; Demo.pay "Dave" "5"])
             Demo.inOrder
             [Update "tx:GALICE:5" PaymentStatus_COMPLETED; Tick true]
           = Ret (_, None, _)) as Hret by (vm_compute; reflexivity).
  do 2 eexists. split; [exact Hmono|]. split; [exact Hret|].
  pose proof (timestamps_in_order _ _ _ _ _ _ _ Hmono Hret)
    as (H1 & H2 & H3 & _).
  split; [exact H1|]. split; [exact H2|exact H3].
Defined.

(** ** Chat notifications *)

Lemma waitRun_chats env st evs st' :
  waitRun env st evs st' →
  WaitingInv (WaitState.resultList st) (WaitState.waiting st) →
  ∃ new,
    World.chats (WaitState.world st')
      = World.chats (WaitState.world st) ++ new ∧
    NoDup (snd <$> new) ∧
    ∀ u tx, (u, tx) ∈ new →
      is_Some (WaitState.waiting st !! tx) ∧
      Update tx PaymentStatus_COMPLETED ∈ evs ∧
      ∃ k r, WaitState.resultList st' !! k = Some r ∧
             BatchPaymentResult.Username r = u ∧
             BatchPaymentResult.TxID r = tx ∧
             BatchPaymentResult.Status r = PaymentStatus_COMPLETED.
Proof.
  induction 1 as [st|st ev st1 evs st' _ Hstep Hrun IH]; intros Hinv.
  { exists []. rewrite app_nil_r. split; [done|]. split; [constructor|].
    intros u tx Hin. by apply elem_of_nil in Hin. }
  destruct (waitStep_spec env st ev Hinv) as (st1' & Hstep' & Hinv1 & _).
  rewrite Hstep in Hstep'. injection Hstep' as <-.
  destruct (IH Hinv1) as (new1 & Hchats1 & Hnodup1 & Hnew1).
  destruct (waitStep_cases _ _ _ _ Hstep)
    as (_ & [(_ & Hw & _ & Hworld & _)
            |(tx & s & k & r & -> & Hk & Hr & Hrl & Hw & _ & _ & Hch & _)]).
  - exists new1. rewrite Hchats1, Hworld. split; [done|]. split; [done|].
    intros u tx Hin. destruct (Hnew1 u tx Hin) as (Hsome & Hev & Hres).
    rewrite Hw in Hsome. split; [done|]. split; [by right|done].
  - assert (∀ tx', is_Some (WaitState.waiting st1 !! tx') →
                   is_Some (WaitState.waiting st !! tx')) as Hsub.
    { intros tx'. rewrite Hw.
      destruct (decide (s ≠ PaymentStatus_PENDING)); [|done].
      intros [x Hx]. apply lookup_delete_Some in Hx as [_ Hx]. by eexists. }
    destruct (decide (s = PaymentStatus_COMPLETED)) as [->|Hne].
    + exists ((BatchPaymentResult.Username r, tx) :: new1).
      rewrite Hchats1, Hch, <- app_assoc. split; [done|]. split.
      * rewrite fmap_cons. simpl. constructor; [|done].
        intros Hin. apply list_elem_of_fmap in Hin as ([u tx'] & Heq & Hin).
        simpl in Heq. subst tx'.
        destruct (Hnew1 u tx Hin) as ([x Hx] & _).
        rewrite Hw in Hx. rewrite decide_True in Hx by done.
        by rewrite lookup_delete_eq in Hx.
      * intros u tx' Hin. apply elem_of_cons in Hin as [[= -> ->]|Hin].
        -- split; [by eexists|]. split; [by left|].
           destruct (Hinv tx k Hk) as (r0 & Hr0 & _ & Htx).
           rewrite Hr in Hr0. injection Hr0 as <-.
           assert (WaitState.resultList st1 !! k
                   = Some (applyUpdate env (WaitState.world st)
                             PaymentStatus_COMPLETED r)) as Hr1.
           { rewrite Hrl. apply list_lookup_insert_eq.
             by eapply lookup_lt_Some. }
           destruct (waitRun_spec _ _ _ _ Hrun Hinv1) as (_ & _ & Hkeep).
           destruct (Hkeep k _ Hr1) as (r' & Hr' & _ & _ & [->|[Hp _]]).
           ++ exists k. eexists. split; [exact Hr'|]. by repeat split.
           ++ done.
        -- destruct (Hnew1 u tx' Hin) as (Hsome & Hev & Hres).
           split; [by apply Hsub|]. split; [by right|done].
    + exists new1. rewrite Hchats1, Hch, app_nil_r. split; [done|].
      split; [done|]. intros u tx' Hin.
      destruct (Hnew1 u tx' Hin) as (Hsome & Hev & Hres).
      split; [by apply Hsub|]. split; [by right|done].
Qed.

(** X11: the chat notifications of a call of [Batch] that returns a
    result.  Each one names a payment of the result that is COMPLETED,
    with that payment's user name and transaction id, and was caused by a
    COMPLETED update from the listener; no transaction id is notified
    twice.  A payment that the gateway accepted at once, without a status
    update, is not notified. *)
Theorem chat_notifications env w arg sched events res w' :
  Batch env w arg sched events = Ret (res, None, w') →
  ∃ new,
    World.chats w' = World.chats w ++ new ∧
    NoDup (snd <$> new) ∧
    ∀ u tx, (u, tx) ∈ new →
      Update tx PaymentStatus_COMPLETED ∈ events ∧
      ∃ i r, BatchResultLocal.Payments res !! i = Some r ∧
             BatchPaymentResult.Username r = u ∧
             BatchPaymentResult.TxID r = tx ∧
             BatchPaymentResult.Status r = PaymentStatus_COMPLETED.
Proof.
  intros Hret.
  destruct (Batch_success_shape _ _ _ _ _ _ _ Hret)
    as (acct & seed & ms & sp' & rl0 & waiting0 & w2 & st' & _ & _ & _ & _
        & Hloop & Hwait & _ & Hch & Hres).
  destruct (submitLoop_from_start _ _ _ _ _ _ _ Hloop) as (_ & Hinv & _).
  pose proof (submitLoop_world _ _ _ _ _ _ _ _ _ _ Hloop) as (_ & Hch2 & _).
  destruct (waitLoop_run _ _ _ _ Hwait) as (used & rest & -> & Hrun & _).
  destruct (waitRun_chats _ _ _ _ Hrun Hinv) as (new & Hchats & Hnodup & Hnew).
  simpl in Hchats, Hch2.
  assert (BatchResultLocal.Payments res = WaitState.resultList st') as ->
    by (by destruct Hres as [->|[_ ->]]).
  exists new. rewrite Hch, Hchats, Hch2. split; [done|]. split; [done|].
  intros u tx Hin. destruct (Hnew u tx Hin) as (_ & Hev & Hr).
  split; [|done]. apply elem_of_app. by left.
Qed.

(** X11 on the batch of Alice and Dave: one notification, for Alice. *)
Lemma chat_notifications_witness :
  ∃ res w',
    Batch (Demo.env Demo.sender true) Demo.world
      (Demo.arg [Demo.pay "Alice" "5"; Demo.pay "Dave" "5"]) Demo.inOrder
      [Update "tx:GALICE:5" PaymentStatus_COMPLETED; Tick true]
    = Ret (res, None, w') ∧
    World.chats w' = [("alice", "tx:GALICE:5")] ∧
    ∃ new, World.chats w' = World.chats Demo.world ++ new ∧
           NoDup (snd <$> new).
Proof.
  eassert (Batch (Demo.env Demo.sender true) Demo.world
             (Demo.arg [Demo.pay "Alice" "5"; Demo.pay "Dave" "5"])
             Demo.inOrder
             [Update "tx:GALICE:5" PaymentStatus_COMPLETED; Tick true]
           = Ret (_, None, _)) as Hret by (vm_compute; reflexivity).
  do 2 eexists. split; [exact Hret|]. split; [reflexivity|].
  destruct (chat_notifications _ _ _ _ _ _ _ Hret) as (new & Hc & Hn & _).
  exists new. split; [exact Hc|exact Hn].
Defined.

(** ** Edge cases of [Batch] *)

Lemma arrange_nil {A : Type} choices : arrange choices (@nil A) = [].
Proof. by destruct choices. Qed.

(** X12: a batch without payments.  With the sender known and the
    listener available, [Batch] returns a nil error and an empty result
    with all counters and the average at zero, whatever the listener
    delivers (even nothing: the wait loop is not entered), and leaves the
    wallet and the chats as they were. *)
Theorem empty_batch env w arg sched events senderAccountID senderSeed :
  LookupSenderSeed env = Ok (senderAccountID, senderSeed) →
  GetListener env = None →
  BatchLocalArg.Payments arg = [] →
  ∃ res w',
    Batch env w arg sched events = Ret (res, None, w') ∧
    BatchResultLocal.Payments res = [] ∧
    BatchResultLocal.CountSuccess res = 0 ∧
    BatchResultLocal.CountPending res = 0 ∧
    BatchResultLocal.CountError res = 0 ∧
    BatchResultLocal.AvgDurationMs res = 0 ∧
    World.walletState w' = World.walletState w ∧
    World.chats w' = World.chats w.
Proof.
  intros Hsender Hlistener Hpay.
  unfold Batch, batchSubmit, PrepareBatchPayments, timeNow. simpl.
  rewrite Hsender, Hpay, arrange_nil. simpl. rewrite arrange_nil. simpl.
  rewrite Hlistener. simpl.
  assert (waitLoop env
            (WaitState.Build [] ∅ (Z.of_nat (size (∅ : gmap TransactionID nat)))
               false
               (World.Build (S (S (S (World.clock w))))
                  (WalletState.withSeqno (World.walletState w)
                     (WalletState.seqno (World.walletState w)))
                  (World.chats w))) events
          = Ret (WaitState.Build [] ∅
                   (Z.of_nat (size (∅ : gmap TransactionID nat))) false
                   (World.Build (S (S (S (World.clock w))))
                      (WalletState.withSeqno (World.walletState w)
                         (WalletState.seqno (World.walletState w)))
                      (World.chats w)))) as Hwait.
  { rewrite map_size_empty. by destruct events. }
  unfold withWalletState. simpl. rewrite Hwait.
  unfold batchFinish, batchDeferred, timeNow. simpl.
  destruct (now env (S (S (S (World.clock w)))) =? 0);
    do 2 eexists; (split; [reflexivity|]); simpl;
    repeat (split; [done|]); by destruct (World.walletState w).
Qed.

(** X12 on the demonstration environment, with no event at all. *)
Lemma empty_batch_witness :
  ∃ res w',
    Batch (Demo.env Demo.sender true) Demo.world (Demo.arg []) Demo.inOrder []
    = Ret (res, None, w') ∧
    BatchResultLocal.Payments res = [] ∧
    World.walletState w' = World.walletState Demo.world.
Proof.
  destruct (empty_batch (Demo.env Demo.sender true) Demo.world (Demo.arg [])
              Demo.inOrder [] "GSENDER" "SSEED" eq_refl eq_refl eq_refl)
    as (res & w' & Hret & Hp & _ & _ & _ & _ & Hws & _).
  exists res, w'. split; [exact Hret|]. split; [exact Hp|exact Hws].
Defined.

(** X13: the listener cannot be had (lines 55-58).  [Batch] returns the
    listener's error with no payment results; nothing was submitted and
    no chat message sent, but the sequence numbers taken while preparing
    stay taken: the wallet is the one [PrepareBatchPayments] left.  The
    deferred function stamps the end time. *)
Theorem listener_failure env w arg sched events senderAccountID senderSeed
    err prepared perr ws' :
  LookupSenderSeed env = Ok (senderAccountID, senderSeed) →
  GetListener env = Some err →
  PrepareBatchPayments env (World.walletState w) senderSeed
    (BatchLocalArg.Payments arg) sched = Ret (prepared, perr, ws') →
  ∃ res w',
    Batch env w arg sched events = Ret (res, Some err, w') ∧
    BatchResultLocal.Payments res = [] ∧
    BatchResultLocal.StartTime res = now env (World.clock w) ∧
    BatchResultLocal.PreparedTime res = now env (S (World.clock w)) ∧
    BatchResultLocal.EndTime res = now env (S (S (World.clock w))) ∧
    World.walletState w' = ws' ∧
    WalletState.submitted ws' = WalletState.submitted (World.walletState w) ∧
    WalletState.pendingTxs ws'
      = WalletState.pendingTxs (World.walletState w) ∧
    World.chats w' = World.chats w.
Proof.
  intros Hsender Hlistener Hprep.
  destruct (PrepareBatchPayments_inv _ _ _ _ _ _ _ _ Hprep)
    as (ms0 & sp' & ms & _ & -> & -> & -> & _).
  unfold Batch, batchSubmit, timeNow. simpl.
  rewrite Hsender, Hprep. simpl. rewrite Hlistener.
  unfold batchDeferred, timeNow. simpl.
  do 2 eexists. split; [reflexivity|]. by repeat split.
Qed.

(** X13 on the batch of Alice and Dave with a listener that fails: both
    sequence numbers are gone and nothing is submitted. *)
Lemma listener_failure_witness :
  ∃ res w',
    Batch (withGetListener (Demo.env Demo.sender true) (Some "no listener"))
      Demo.world (Demo.arg [Demo.pay "Alice" "5"; Demo.pay "Dave" "5"])
      Demo.inOrder []
    = Ret (res, Some "no listener", w') ∧
    BatchResultLocal.Payments res = [] ∧
    WalletState.seqno (World.walletState w') = 102%N ∧
    WalletState.submitted (World.walletState w') = [].
Proof.
  eassert (PrepareBatchPayments
             (withGetListener (Demo.env Demo.sender true) (Some "no listener"))
             (World.walletState Demo.world) "SSEED"
             (BatchLocalArg.Payments
                (Demo.arg [Demo.pay "Alice" "5"; Demo.pay "Dave" "5"]))
             Demo.inOrder = Ret (_, _, _)) as Hprep
    by (vm_compute; reflexivity).
  destruct (listener_failure
              (withGetListener (Demo.env Demo.sender true) (Some "no listener"))
              Demo.world (Demo.arg [Demo.pay "Alice" "5"; Demo.pay "Dave" "5"])
              Demo.inOrder [] "GSENDER" "SSEED" "no listener" _ _ _
              eq_refl eq_refl Hprep)
    as (res & w' & Hret & Hp & _ & _ & _ & Hws & Hsub & _).
  exists res, w'. split; [exact Hret|]. split; [exact Hp|].
  rewrite Hws. split; [reflexivity|exact Hsub].
Defined.

(** X14: the three ways a call of [Batch] can end.  It panics only with
    the nil dereference of line 205, and only when some payment makes
    [prepareBatchPaymentDirect] read the user record of a recipient that
    has none; it stays parked in the wait loop only when the deadline
    never fires; and when it returns, it is either without error, or with
    an error and a result that carries no payments. *)
Theorem Batch_outcome env w arg sched events :
  match Batch env w arg sched events with
  | Panic why =>
      why = nilUserPanic ∧
      Exists (λ p, derefsNilUser env p = true) (BatchLocalArg.Payments arg)
  | Blocked =>
      (Tick true ∉ events) ∧
      Forall (λ p, derefsNilUser env p = false) (BatchLocalArg.Payments arg)
  | Ret (res, err, w') =>
      (err = None →
       Forall (λ p, derefsNilUser env p = false)
         (BatchLocalArg.Payments arg)) ∧
      (is_Some err → BatchResultLocal.Payments res = [])
  end.
Proof.
  unfold Batch.
  destruct (batchSubmit env w arg sched) as [[early|[res st]]| |] eqn:Hsub.
  - destruct early as [[res err] w0].
    destruct (batchSubmit_early _ _ _ _ _ _ _ Hsub) as [[e ->] Hnil].
    unfold batchDeferred, timeNow. simpl.
    destruct (BatchResultLocal.EndTime res =? 0); simpl; by split.
  - destruct (batchSubmit_ready _ _ _ _ _ _ Hsub)
      as (acct & seed & ms & _ & (order & rs & sp' & Hprep & _) & _ & _
          & Hinv & _).
    assert (Forall (λ p, derefsNilUser env p = false)
              (BatchLocalArg.Payments arg)) as Hall.
    { destruct (PrepareBatchPayments_cases env (World.walletState w) seed
                  (BatchLocalArg.Payments arg) sched)
        as [[_ Hp]|[Hall _]]; [congruence|done]. }
    destruct (waitLoop env st events) as [st'| |] eqn:Hwait.
    + unfold batchFinish, batchDeferred, timeNow. simpl.
      destruct (now env (World.clock (WaitState.world st')) =? 0); simpl;
        (split; [done|by intros [? ?]]).
    + by apply waitLoop_no_panic in Hwait.
    + split; [|done]. intros Htick.
      destruct (waitLoop_returns env events st Hinv Htick) as [st' Hst'].
      congruence.
  - revert Hsub. unfold batchSubmit, timeNow. simpl.
    destruct (LookupSenderSeed env) as [[acct seed]|e]; [|done].
    destruct (PrepareBatchPayments_cases env (World.walletState w) seed
                (BatchLocalArg.Payments arg) sched)
      as [[Hex ->]|[_ (order & rs & ms & sp' & -> & _)]].
    + by intros [= <-].
    + destruct (GetListener env); [done|].
      match goal with
      | |- context [submitLoop ?e ?a ?l ?i ?rl ?wt ?w0] =>
          destruct (submitLoop_no_nil e a ms i rl wt w0) as [[[? ?] ?] ->]
      end. done.
  - revert Hsub. unfold batchSubmit, timeNow. simpl.
    destruct (LookupSenderSeed env) as [[acct seed]|e]; [|done].
    destruct (PrepareBatchPayments_cases env (World.walletState w) seed
                (BatchLocalArg.Payments arg) sched)
      as [[Hex ->]|[_ (order & rs & ms & sp' & -> & _)]]; [done|].
    destruct (GetListener env); [done|].
    match goal with
    | |- context [submitLoop ?e ?a ?l ?i ?rl ?wt ?w0] =>
        destruct (submitLoop_no_nil e a ms i rl wt w0) as [[[? ?] ?] ->]
    end. done.
Qed.

(** ** A gateway that settles every payment at once *)

Lemma waitLoop_idle env st events :
  WaitState.waitingCount st ≤ 0 → waitLoop env st events = Ret st.
Proof.
  intros Hc. assert (waitGuard st = false) as Hg.
  { unfold waitGuard. by rewrite (proj2 (Z.ltb_ge _ _) Hc). }
  destruct events; simpl; by rewrite Hg.
Qed.

Lemma submitOne_no_pending env senderAccountID i m waiting w :
  (∀ s post r, SubmitPayment env s post = Ok r →
               PaymentResult.Pending r = false) →
  (∀ s post r, SubmitRelayPayment env s post = Ok r →
               PaymentResult.Pending r = false) →
  let out := submitOne env senderAccountID i m waiting w in
  out.1.2 = waiting ∧
  BatchPaymentResult.Status out.1.1 ≠ PaymentStatus_PENDING.
Proof.
  intros Hdirect Hrelay.
  unfold submitOne, submitBatchTx, makeResultError, timeNow. simpl.
  destruct (MiniPrepared.Error m) as [e|]; simpl; [done|].
  destruct (MiniPrepared.Direct m) as [direct|];
    [|destruct (MiniPrepared.Relay m) as [relay|]]; simpl.
  - destruct (SubmitPayment env _ direct) as [r|e] eqn:Hr; simpl; [|done].
    by rewrite (Hdirect _ _ _ Hr).
  - destruct (SubmitRelayPayment env _ relay) as [r|e] eqn:Hr; simpl; [|done].
    by rewrite (Hrelay _ _ _ Hr).
  - done.
Qed.

Lemma submitLoop_no_pending env senderAccountID ms :
  (∀ s post r, SubmitPayment env s post = Ok r →
               PaymentResult.Pending r = false) →
  (∀ s post r, SubmitRelayPayment env s post = Ok r →
               PaymentResult.Pending r = false) →
  ∀ i resultList waiting w resultList' waiting' w',
  submitLoop env senderAccountID (Some <$> ms) i resultList waiting w
    = inr (resultList', waiting', w') →
  waiting' = waiting.
Proof.
  intros Hdirect Hrelay.
  induction ms as [|m ms IH]; intros i rl waiting w rl' waiting' w'.
  { by intros [= <- <- <-]. }
  rewrite fmap_cons. simpl.
  pose proof (submitOne_no_pending env senderAccountID i m waiting w
                Hdirect Hrelay) as [Hw _].
  destruct (submitOne env senderAccountID i m waiting w) as [[bp wt1] w1].
  simpl in Hw. subst wt1. apply IH.
Qed.

(** X15: a gateway that never answers "pending".  [Batch] then returns
    without entering the wait loop, whatever the listener delivers (even
    nothing): every payment of the result is COMPLETED or ERROR, and no
    chat message is sent, since only a payment completed by a status
    update is announced. *)
Theorem no_pending_no_wait env w arg sched events senderAccountID senderSeed :
  (∀ s post r, SubmitPayment env s post = Ok r →
               PaymentResult.Pending r = false) →
  (∀ s post r, SubmitRelayPayment env s post = Ok r →
               PaymentResult.Pending r = false) →
  LookupSenderSeed env = Ok (senderAccountID, senderSeed) →
  GetListener env = None →
  Forall (λ p, derefsNilUser env p = false) (BatchLocalArg.Payments arg) →
  ∃ res w',
    Batch env w arg sched events = Ret (res, None, w') ∧
    length (BatchResultLocal.Payments res)
      = length (BatchLocalArg.Payments arg) ∧
    Forall (λ r, BatchPaymentResult.Status r = PaymentStatus_COMPLETED ∨
                 BatchPaymentResult.Status r = PaymentStatus_ERROR)
      (BatchResultLocal.Payments res) ∧
    World.chats w' = World.chats w.
Proof.
  intros Hdirect Hrelay Hsender Hlistener Hall.
  assert (∃ res w', Batch env w arg sched events = Ret (res, None, w'))
    as (res & w' & Hret).
  { unfold Batch, batchSubmit, timeNow. simpl. rewrite Hsender.
    destruct (PrepareBatchPayments_cases env (World.walletState w) senderSeed
                (BatchLocalArg.Payments arg) sched)
      as [[Hex _]|[_ (order & rs & ms & sp' & -> & _)]].
    { apply Exists_exists in Hex as (p & Hin & Hp).
      rewrite Forall_forall in Hall. specialize (Hall p Hin). congruence. }
    rewrite Hlistener.
    match goal with
    | |- context [submitLoop ?e ?a ?l ?i ?rl ?wt ?w0] =>
        destruct (submitLoop_no_nil e a ms i rl wt w0)
          as [[[rl0 waiting0] w2] Hloop]
    end.
    rewrite Hloop.
    apply submitLoop_no_pending in Hloop as ->; [|done..].
    simpl. rewrite waitLoop_idle by (simpl; by rewrite map_size_empty).
    unfold batchFinish, batchDeferred, timeNow. simpl.
    destruct (now env (S (World.clock w2)) =? 0); by do 2 eexists. }
  exists res, w'. split; [done|].
  destruct (Batch_success_shape _ _ _ _ _ _ _ Hret)
    as (acct & seed & ms & sp' & rl0 & waiting0 & w2 & st' & _ & _ & Hprep
        & _ & Hloop & Hwait & _ & Hch & Hres).
  pose proof (submitLoop_no_pending _ _ _ Hdirect Hrelay _ _ _ _ _ _ _ Hloop)
    as ->.
  rewrite waitLoop_idle in Hwait by (simpl; by rewrite map_size_empty).
  injection Hwait as <-. simpl in Hch, Hres.
  destruct (submitLoop_from_start _ _ _ _ _ _ _ Hloop) as (Hlen & _ & Hrl).
  pose proof (submitLoop_world _ _ _ _ _ _ _ _ _ _ Hloop) as (_ & Hch2 & _).
  simpl in Hch2.
  assert (BatchResultLocal.Payments res = rl0) as ->
    by (by destruct Hres as [->|[_ ->]]).
  split; [|split; [|congruence]].
  - rewrite Hlen. destruct Hprep as (order & rs & sp'' & _ & Hperm & Hby & Hrs & _).
    rewrite <- Hperm, (Forall2_length _ _ _ Hby), <- Hrs. by rewrite length_fmap.
  - eapply Forall_impl; [exact Hrl|]. simpl.
    intros r (i & m & waiting1 & w0 & -> & _).
    pose proof (submitOne_no_pending env acct i m waiting1 w0 Hdirect Hrelay)
      as [_ Hnp].
    destruct (submitOne_spec env acct i m waiting1 w0)
      as (bp & wt1 & w1 & Hone & (_ & _ & Hnamed & _) & _).
    rewrite Hone in Hnp |- *. simpl in Hnp |- *.
    destruct Hnamed as [?|[?|?]]; [by left|done|by right].
Qed.

(** X15 on the batch of Alice, Bob (who does not resolve) and Carol (a
    relay payment), with a gateway that completes at once. *)
Lemma no_pending_no_wait_witness :
  ∃ res w',
    Batch (Demo.env Demo.sender false) Demo.world
      (Demo.arg [Demo.pay "Alice" "5"; Demo.pay "Bob" "5";
                 Demo.pay "Carol" "5"]) Demo.inOrder []
    = Ret (res, None, w') ∧
    length (BatchResultLocal.Payments res) = 3%nat ∧
    World.chats w' = [].
Proof.
  destruct (no_pending_no_wait (Demo.env Demo.sender false) Demo.world
              (Demo.arg [Demo.pay "Alice" "5"; Demo.pay "Bob" "5";
                         Demo.pay "Carol" "5"]) Demo.inOrder []
              "GSENDER" "SSEED")
    as (res & w' & Hret & Hlen & _ & Hch).
  - intros s post r [= <-]. reflexivity.
  - intros s post r [= <-]. reflexivity.
  - reflexivity.
  - reflexivity.
  - repeat constructor.
  - exists res, w'. split; [exact Hret|]. split; [exact Hlen|exact Hch].
Defined.

(** X14 on the payment to Erin, who has an account and no user record:
    the call panics, and the payment is found. *)
Lemma Batch_outcome_witness :
  Batch (Demo.env Demo.sender false) Demo.world
    (Demo.arg [Demo.pay "Erin" "5"]) Demo.inOrder [] = Panic nilUserPanic ∧
  Exists (λ p, derefsNilUser (Demo.env Demo.sender false) p = true)
    (BatchLocalArg.Payments (Demo.arg [Demo.pay "Erin" "5"])).
Proof.
  assert (Batch (Demo.env Demo.sender false) Demo.world
            (Demo.arg [Demo.pay "Erin" "5"]) Demo.inOrder []
          = Panic nilUserPanic) as Hp by (vm_compute; reflexivity).
  split; [exact Hp|].
  pose proof (Batch_outcome (Demo.env Demo.sender false) Demo.world
                (Demo.arg [Demo.pay "Erin" "5"]) Demo.inOrder []) as H.
  rewrite Hp in H. exact (proj2 H).
Defined.

(** ** The entries [PrepareBatchPayments] returns *)

(** X16: every return of [prepareBatchPayment] hands back a non-nil
    entry; whenever [PrepareBatchPayments] returns, its error is nil, its
    list has one entry per payment and none of them is nil, so the submit
    loop run on that list never takes the "batch prepare failed" return.
    [PrepareBatchPayments] never stays blocked, and it returns for every
    input list except when a goroutine panics on the missing user record
    of a directly paid recipient (line 205), which is no return at all. *)
Theorem PrepareBatchPayments_entries_non_nil env ws senderSeed payments sched :
  (∀ sp p r sp',
     prepareBatchPayment env sp senderSeed p = Ret (r, sp') → is_Some r) ∧
  (∀ l err ws',
     PrepareBatchPayments env ws senderSeed payments sched
     = Ret (l, err, ws') →
     err = None ∧ Forall is_Some l ∧ length l = length payments ∧
     ∀ senderAccountID i resultList waiting w,
       ∃ out, submitLoop env senderAccountID l i resultList waiting w
              = inr out) ∧
  (Forall (λ p, derefsNilUser env p = false) payments →
   ∃ l ws',
     PrepareBatchPayments env ws senderSeed payments sched
     = Ret (l, None, ws')) ∧
  (Exists (λ p, derefsNilUser env p = true) payments →
   PrepareBatchPayments env ws senderSeed payments sched
   = Panic nilUserPanic) ∧
  PrepareBatchPayments env ws senderSeed payments sched ≠ Blocked.
Proof.
  split; [|split; [|split; [|split]]].
  - intros sp p r sp' Hret.
    destruct (preparedBy_preparedFor env senderSeed p r) as (m & -> & _);
      [by exists sp, sp'|by eexists].
  - intros l err ws' Hret.
    destruct (PrepareBatchPayments_returned _ _ _ _ _ _ _ _ Hret)
      as (ms & -> & -> & Hprep).
    destruct (PreparedAs_usernames _ _ _ _ _ _ Hprep) as (_ & Hlen & _).
    split; [done|]. split; [|split].
    + apply Forall_fmap, Forall_true. by eexists.
    + by rewrite length_fmap.
    + intros. apply submitLoop_no_nil.
  - intros Hall.
    destruct (PrepareBatchPayments_cases env ws senderSeed payments sched)
      as [[Hex _]|[_ (order & rs & ms & sp' & -> & _)]]; [|by eauto].
    apply Exists_exists in Hex as (p & Hin & Hp).
    rewrite Forall_forall in Hall. specialize (Hall p Hin). congruence.
  - intros Hex.
    destruct (PrepareBatchPayments_cases env ws senderSeed payments sched)
      as [[_ ->]|[Hall _]]; [done|].
    apply Exists_exists in Hex as (p & Hin & Hp).
    rewrite Forall_forall in Hall. specialize (Hall p Hin). congruence.
  - by destruct (PrepareBatchPayments_cases env ws senderSeed payments sched)
      as [[_ ->]|[_ (order & rs & ms & sp' & -> & _)]].
Qed.

(** X16 on the batch of Alice and Bob. *)
Lemma PrepareBatchPayments_entries_non_nil_witness :
  ∃ l ws',
    Forall (λ p, derefsNilUser (Demo.env Demo.sender false) p = false)
      [Demo.pay "Alice" "5"; Demo.pay "Bob" "5"] ∧
    PrepareBatchPayments (Demo.env Demo.sender false)
      (World.walletState Demo.world) "SSEED"
      [Demo.pay "Alice" "5"; Demo.pay "Bob" "5"] Demo.inOrder
    = Ret (l, None, ws') ∧
    Forall is_Some l ∧ length l = 2%nat ∧
    ∃ out, submitLoop (Demo.env Demo.sender false) "GSENDER" l 0
             (replicate 2 BatchPaymentResult.zero) ∅ Demo.world = inr out.
Proof.
  pose proof (PrepareBatchPayments_entries_non_nil (Demo.env Demo.sender false)
                (World.walletState Demo.world) "SSEED"
                [Demo.pay "Alice" "5"; Demo.pay "Bob" "5"] Demo.inOrder)
    as (_ & Hret & Htotal & _).
  assert (Forall (λ p, derefsNilUser (Demo.env Demo.sender false) p = false)
            [Demo.pay "Alice" "5"; Demo.pay "Bob" "5"]) as Hall.
  { repeat constructor. }
  destruct (Htotal Hall) as (l & ws' & Hprep).
  destruct (Hret l None ws' Hprep) as (_ & Hsome & Hlen & Hloop).
  exists l, ws'. split; [exact Hall|]. split; [exact Hprep|].
  split; [exact Hsome|]. split; [exact Hlen|]. apply Hloop.
Defined.
